(** * tk_tools.groups: calendar and spreadsheet-pager logic

    A shallow embedding of the computational parts of
    [src/tk_tools/groups.py]: the construction-time validation of [Grid]
    and [KeyValueEntry], the paging arithmetic of [SpreadSheetReader] and
    the month grid, navigation and selection of [Calendar]; and further
    the rows of the grids ([LabelGrid], [EntryGrid], [ButtonGrid]) with
    what [EntryGrid.read] returns, and the entry widgets of
    [KeyValueEntry] with [reset], [change_enables], [load] and [get].

    Python integers are [Z]; Python exceptions are the [Raise] branch of
    [Result]; attribute mutation is explicit state passing on records.
    The pieces of the Python standard library the code calls
    ([datetime], [calendar]) are embedded after CPython's pure-Python
    sources ([Lib/_pydatetime.py], and [Lib/calendar.py] as of Python
    3.8), with the conversions of arguments to machine integers that
    the C implementations ([datetime], [list.pop]) make first, and what
    the code asks of the toolkit ([ttk.Treeview]) after
    [Lib/tkinter/ttk.py]. What the platform knows of a locale (whether
    it is supported, and its weekday names) is an argument of the
    calendar's constructor. *)

From Stdlib Require Import ZArith List Bool Lia String Ascii Sorted.
From Stdlib Require Import DecimalString.
Import ListNotations.
Open Scope Z_scope.

(** ** Python runtime: exceptions, truthiness, indexing, slicing *)

Module Py.

Inductive Exn : Type :=
| ValueError
| OverflowError
| IndexError
| TypeError
| LocaleError.                  (* [locale.Error] *)

Inductive Result (A : Type) : Type :=
| Ok (a : A)
| Raise (e : Exn).
Arguments Ok {A} a.
Arguments Raise {A} e.

Definition bind {A B} (r : Result A) (k : A -> Result B) : Result B :=
  match r with
  | Ok a => k a
  | Raise e => Raise e
  end.

(** [len(l)] *)
Definition len {A} (l : list A) : Z := Z.of_nat (List.length l).

(** An argument that a function written in C takes as a C [int]
    (format [i]) or as a [Py_ssize_t] (format [n], here of a 64-bit
    build, where [sys.maxsize] is [2 ** 63 - 1]): an integer that does
    not fit makes the call raise [OverflowError]. *)
Definition INT_MIN : Z := - 2 ^ 31.
Definition INT_MAX : Z := 2 ^ 31 - 1.
Definition PY_SSIZE_T_MIN : Z := - 2 ^ 63.
Definition PY_SSIZE_T_MAX : Z := 2 ^ 63 - 1.

Definition fits_int (n : Z) : bool := (INT_MIN <=? n) && (n <=? INT_MAX).

Definition fits_ssize_t (n : Z) : bool :=
  (PY_SSIZE_T_MIN <=? n) && (n <=? PY_SSIZE_T_MAX).

(** Truth value of a list: [[]] is falsy. *)
Definition truthy {A} (l : list A) : bool :=
  match l with [] => false | _ :: _ => true end.

(** Truth value of an optional list argument: [None] and [[]] are falsy. *)
Definition truthy_opt {A} (o : option (list A)) : bool :=
  match o with None => false | Some l => truthy l end.

(** [l[i]]: negative indices count from the end, anything outside
    raises [IndexError]. *)
Definition index {A} (l : list A) (i : Z) : Result A :=
  let j := if i <? 0 then i + len l else i in
  if (j <? 0) || (len l <=? j) then Raise IndexError
  else match nth_error l (Z.to_nat j) with
       | Some a => Ok a
       | None => Raise IndexError
       end.

(** Normalisation of one slice bound, as [slice.indices] does for a
    step of 1. *)
Definition clamp (i n : Z) : Z :=
  if i <? 0 then Z.max 0 (i + n) else Z.min i n.

(** [l[a:b]] *)
Definition slice {A} (l : list A) (a b : Z) : list A :=
  let s := clamp a (len l) in
  let e := clamp b (len l) in
  firstn (Z.to_nat (e - s)) (skipn (Z.to_nat s) l).

(** [range(a, b)] *)
Definition range (a b : Z) : list Z :=
  map (fun k => a + Z.of_nat k) (seq 0 (Z.to_nat (b - a))).

(** [range(0, n, step)] for a positive [step]. *)
Definition range_step (n step : Z) : list Z :=
  map (fun k => step * Z.of_nat k) (seq 0 (Z.to_nat ((n + step - 1) / step))).

(** [str(n)] for an integer. *)
Definition str (n : Z) : string := NilZero.string_of_int (Z.to_int n).

(** ['%02d' % n]: at least two characters, padded on the left with a
    zero (the sign of a negative number counts as a character). *)
Definition fmt02d (n : Z) : string :=
  if (0 <=? n) && (n <? 10) then String "0"%char (str n) else str n.

(** [int(s)] on the texts that occur here: decimal digits, possibly
    after a minus sign, give the number, and a text that is no number
    (an empty one, a weekday name) raises [ValueError]. The plus signs,
    blanks and underscores that [int] also accepts occur in no cell. *)
Definition int (s : string) : Result Z :=
  match NilZero.int_of_string s with
  | Some d => Ok (Z.of_int d)
  | None => Raise ValueError
  end.

(** Texts are strings of one-byte characters, read as the characters
    of Latin-1. [ch.isspace()] holds of the characters 9 to 13, 28 to
    32, 133 and 160. *)
Definition str_isspace (ch : ascii) : bool :=
  let n := Z.of_nat (nat_of_ascii ch) in
  ((9 <=? n) && (n <=? 13)) || ((28 <=? n) && (n <=? 32))
  || (n =? 133) || (n =? 160).

(** [s.split()] reads [s] from the left; [word] holds the characters of
    the word that has begun, and white space ends a word. *)
Fixpoint split_from (word s : string) : list string :=
  match s with
  | EmptyString =>
      match word with EmptyString => [] | String _ _ => [word] end
  | String ch rest =>
      if str_isspace ch
      then match word with
           | EmptyString => split_from EmptyString rest
           | String _ _ => word :: split_from EmptyString rest
           end
      else split_from (String.append word (String ch EmptyString)) rest
  end.

(** [s.split()]: the words of [s], which white space separates. *)
Definition str_split (s : string) : list string := split_from EmptyString s.

(** [s[:n]] for [n >= 0] *)
Definition str_take (s : string) (n : Z) : string :=
  substring 0 (Z.to_nat n) s.

(** A text of [n] blanks. *)
Definition blanks (n : Z) : string :=
  string_of_list_ascii (repeat " "%char (Z.to_nat n)).

(** [s.center(width)]: of the blanks that fill [s] up to [width], the
    left side gets the half rounded down, and one more when both the
    number of blanks and [width] are odd. *)
Definition str_center (s : string) (width : Z) : string :=
  let marg := width - Z.of_nat (String.length s) in
  if marg <=? 0 then s
  else
    let left := marg / 2 + Z.land (Z.land marg width) 1 in
    String.append (blanks left) (String.append s (blanks (marg - left))).

(** [sep.join(l)] *)
Fixpoint str_join (sep : string) (l : list string) : string :=
  match l with
  | [] => EmptyString
  | x :: rest =>
      match rest with
      | [] => x
      | _ :: _ => String.append x (String.append sep (str_join sep rest))
      end
  end.

End Py.

Notation "x <- c1 ;; c2" := (Py.bind c1 (fun x => c2))
  (at level 61, c1 at next level, right associativity).

(** ** More of the Python runtime: dictionaries, lists built in a loop *)

Module Dict.

(** A [dict] (or [OrderedDict]) with string keys: the items in insertion
    order. *)
Definition t (V : Type) : Type := list (string * V).

(** [d[k] = v]: a key already there keeps its place. *)
Fixpoint set {V} (k : string) (v : V) (d : t V) : t V :=
  match d with
  | [] => [(k, v)]
  | (k', v') :: rest =>
      if String.eqb k' k then (k', v) :: rest else (k', v') :: set k v rest
  end.

(** [d.get(k)] *)
Fixpoint get {V} (k : string) (d : t V) : option V :=
  match d with
  | [] => None
  | (k', v) :: rest => if String.eqb k' k then Some v else get k rest
  end.

(** [d.update(items)] *)
Definition update {V} (d : t V) (items : list (string * V)) : t V :=
  fold_left (fun d kv => set (fst kv) (snd kv) d) items d.

End Dict.

(** [[f(x) for x in xs]] where [f] may raise. *)
Fixpoint map_result {A B} (f : A -> Py.Result B) (xs : list A)
  : Py.Result (list B) :=
  match xs with
  | [] => Py.Ok []
  | x :: rest =>
      y <- f x ;;
      ys <- map_result f rest ;;
      Py.Ok (y :: ys)
  end.

(** [for x in xs: body(x)] on a state that [body] updates. *)
Fixpoint for_each {X S} (body : X -> S -> Py.Result S) (xs : list X) (s : S)
  : Py.Result S :=
  match xs with
  | [] => Py.Ok s
  | x :: rest => s' <- body x s ;; for_each body rest s'
  end.

(** [enumerate(l)] *)
Definition enumerate {A} (l : list A) : list (Z * A) :=
  combine (Py.range 0 (Py.len l)) l.

(** ** [datetime]: proleptic Gregorian dates *)

Module datetime.
Import Py.

Definition MINYEAR : Z := 1.
Definition MAXYEAR : Z := 9999.
(** [date.max.toordinal()] *)
Definition _MAXORDINAL : Z := 3652059.

Definition _DAYS_IN_MONTH : list Z :=
  [-1; 31; 28; 31; 30; 31; 30; 31; 31; 30; 31; 30; 31].

Definition _DAYS_BEFORE_MONTH : list Z :=
  [-1; 0; 31; 59; 90; 120; 151; 181; 212; 243; 273; 304; 334].

Definition tbl (t : list Z) (i : Z) : Z := nth (Z.to_nat i) t 0.

Definition _is_leap (year : Z) : bool :=
  (year mod 4 =? 0) && (negb (year mod 100 =? 0) || (year mod 400 =? 0)).

Definition _days_before_year (year : Z) : Z :=
  let y := year - 1 in
  y * 365 + y / 4 - y / 100 + y / 400.

Definition _days_in_month (year month : Z) : Z :=
  if (month =? 2) && _is_leap year then 29 else tbl _DAYS_IN_MONTH month.

Definition _days_before_month (year month : Z) : Z :=
  tbl _DAYS_BEFORE_MONTH month
  + (if (2 <? month) && _is_leap year then 1 else 0).

Definition _ymd2ord (year month day : Z) : Z :=
  _days_before_year year + _days_before_month year month + day.

Definition _DI400Y : Z := Eval cbv in _days_before_year 401.
Definition _DI100Y : Z := Eval cbv in _days_before_year 101.
Definition _DI4Y : Z := Eval cbv in _days_before_year 5.

(** [_ord2ymd(n)]; its [assert]s are left out, and [divmod] by a
    positive number is [Z.div] and [Z.modulo]. *)
Definition _ord2ymd (n : Z) : Z * Z * Z :=
  let n := n - 1 in
  let n400 := n / _DI400Y in
  let n := n mod _DI400Y in
  let year := n400 * 400 + 1 in
  let n100 := n / _DI100Y in
  let n := n mod _DI100Y in
  let n4 := n / _DI4Y in
  let n := n mod _DI4Y in
  let n1 := n / 365 in
  let n := n mod 365 in
  let year := year + (n100 * 100 + n4 * 4 + n1) in
  if (n1 =? 4) || (n100 =? 4) then (year - 1, 12, 31)
  else
    let leapyear := (n1 =? 3) && (negb (n4 =? 24) || (n100 =? 3)) in
    let month := Z.shiftr (n + 50) 5 in
    let preceding :=
      tbl _DAYS_BEFORE_MONTH month
      + (if (2 <? month) && leapyear then 1 else 0) in
    if n <? preceding then
      let month := month - 1 in
      let preceding :=
        preceding
        - (tbl _DAYS_IN_MONTH month
           + (if (month =? 2) && leapyear then 1 else 0)) in
      (year, month, n - preceding + 1)
    else (year, month, n - preceding + 1).

(** A [datetime] value. The program only ever builds values at
    midnight and only adds whole days, so the time of day is left out. *)
Record t : Type := mk { year : Z; month : Z; day : Z }.

(** [datetime(year, month, day)]: the three arguments are taken as C
    [int]s, and then checked as [_check_date_fields] does. *)
Definition new (y m d : Z) : Result t :=
  if negb (fits_int y && fits_int m && fits_int d) then Raise OverflowError
  else if negb ((MINYEAR <=? y) && (y <=? MAXYEAR)) then Raise ValueError
  else if negb ((1 <=? m) && (m <=? 12)) then Raise ValueError
  else if negb ((1 <=? d) && (d <=? _days_in_month y m)) then Raise ValueError
  else Ok (mk y m d).

Definition toordinal (d : t) : Z := _ymd2ord (year d) (month d) (day d).

Definition fromordinal (n : Z) : t :=
  let '(y, m, d) := _ord2ymd n in mk y m d.

(** [d + timedelta(days=k)] (and [d - timedelta(days=k)] with [-k]). *)
Definition add_days (d : t) (k : Z) : Result t :=
  let o := toordinal d + k in
  if (0 <? o) && (o <=? _MAXORDINAL) then Ok (fromordinal o)
  else Raise OverflowError.

(** [d.weekday()]: Monday is 0. *)
Definition weekday (d : t) : Z := (toordinal d + 6) mod 7.

End datetime.

(** ** [calendar] *)

Module calendar.
Import Py.

Definition SUNDAY : Z := 6.
Definition February : Z := 2.

Definition mdays : list Z := [0; 31; 28; 31; 30; 31; 30; 31; 31; 30; 31; 30; 31].

Definition isleap (year : Z) : bool :=
  (year mod 4 =? 0) && (negb (year mod 100 =? 0) || (year mod 400 =? 0)).

(** [calendar.weekday(year, month, day)] *)
Definition weekday (year month day : Z) : Result Z :=
  let year :=
    if negb ((datetime.MINYEAR <=? year) && (year <=? datetime.MAXYEAR))
    then 2000 + year mod 400 else year in
  d <- datetime.new year month day ;;
  Ok (datetime.weekday d).

(** [calendar.monthrange(year, month)]; [IllegalMonthError] is a
    [ValueError]. *)
Definition monthrange (year month : Z) : Result (Z * Z) :=
  if negb ((1 <=? month) && (month <=? 12)) then Raise ValueError
  else
    day1 <- weekday year month 1 ;;
    let ndays :=
      datetime.tbl mdays month
      + (if (month =? February) && isleap year then 1 else 0) in
    Ok (day1, ndays).

(** [Calendar(firstweekday).itermonthdays(year, month)], as a list. *)
Definition itermonthdays (firstweekday year month : Z) : Result (list Z) :=
  r <- monthrange year month ;;
  let '(day1, ndays) := r in
  let days_before := (day1 - firstweekday) mod 7 in
  let days_after := (firstweekday - day1 - ndays) mod 7 in
  Ok (repeat 0 (Z.to_nat days_before)
      ++ range 1 (ndays + 1)
      ++ repeat 0 (Z.to_nat days_after)).

(** [Calendar(firstweekday).monthdayscalendar(year, month)] *)
Definition monthdayscalendar (firstweekday year month : Z)
  : Result (list (list Z)) :=
  days <- itermonthdays firstweekday year month ;;
  Ok (map (fun i => slice days i (i + 7)) (range_step (len days) 7)).

End calendar.

(** ** The widget grids: [Grid], [EntryGrid] *)

Module Grid.
Import Py.

(** The data a [Grid] holds: the texts of its header labels and, row by
    row, the texts of its cell widgets. Geometry management is left out. *)
Record t : Type := mk {
  headers : list string;
  rows : list (list string);
  num_of_columns : Z
}.

(** [Grid.__init__(parent, num_of_columns, headers=None)] *)
Definition __init__ (num_of_columns : Z) (headers : option (list string))
  : Result t :=
  match headers with
  | Some (h :: hs) =>
      if negb (len (h :: hs) =? num_of_columns) then Raise ValueError
      else Ok (mk (h :: hs) [] num_of_columns)
  | _ => Ok (mk [] [] num_of_columns)
  end.

(** [list.pop(i)] on the rows: the index is taken as a [Py_ssize_t]. *)
Definition pop {A} (l : list A) (i : Z) : Result (list A) :=
  if negb (fits_ssize_t i) then Raise OverflowError
  else
    let j := if i <? 0 then i + len l else i in
    if (j <? 0) || (len l <=? j) then Raise IndexError
    else Ok (firstn (Z.to_nat j) l ++ skipn (S (Z.to_nat j)) l).

(** [Grid.remove_row(row_number=-1)] *)
Definition remove_row (row_number : Z) (g : t) : Result t :=
  if len (rows g) =? 0 then Ok g
  else
    rs <- pop (rows g) row_number ;;
    Ok (mk (headers g) rs (num_of_columns g)).

Fixpoint clear_loop (n : nat) (g : t) : Result t :=
  match n with
  | O => Ok g
  | S k => g' <- remove_row 0 g ;; clear_loop k g'
  end.

(** [Grid.clear()]: [for i in range(len(self.rows)): self.remove_row(0)] *)
Definition clear (g : t) : Result t :=
  clear_loop (List.length (rows g)) g.

End Grid.

Module EntryGrid.
Import Py.

(** [EntryGrid.__init__] only calls [Grid.__init__]. *)
Definition __init__ := Grid.__init__.

(** [EntryGrid.add_row(data=None)]. An element of [data] is shown by
    its [str()]; the cells of a row added without data are blank. The
    [<Tab>] binding goes to [self.rows[-1][-1]], which raises
    [IndexError] on a row without cells. *)
Definition add_row (data : option (list string)) (g : Grid.t)
  : Result Grid.t :=
  if truthy (Grid.headers g) && truthy_opt data
     && negb (len (Grid.headers g) =? len (match data with Some d => d | None => [] end))
  then Raise ValueError
  else
    let row :=
      match data with
      | Some (e :: es) => e :: es
      | _ => map (fun _ => EmptyString) (range 0 (Grid.num_of_columns g))
      end in
    last_entry <- index row (-1) ;;
    Ok (Grid.mk (Grid.headers g) (Grid.rows g ++ [row]) (Grid.num_of_columns g)).

(** What [read] returns: a list of dictionaries or a list of rows. *)
Inductive contents : Type :=
| AsDicts (ds : list (Dict.t string))
| AsTable (rows : list (list string)).

(** The loop [for i, header in enumerate(self.headers)] over one row. *)
Fixpoint row_dict (headers : list string) (i : Z) (row : list string)
    (row_data : Dict.t string) : Result (Dict.t string) :=
  match headers with
  | [] => Ok row_data
  | header :: rest =>
      v <- index row i ;;
      row_dict rest (i + 1) row (Dict.set header v row_data)
  end.

(** [EntryGrid._read_as_dict()] *)
Definition _read_as_dict (g : Grid.t) : Result (list (Dict.t string)) :=
  map_result (fun row => row_dict (Grid.headers g) 0 row []) (Grid.rows g).

(** [EntryGrid._read_as_table()] *)
Definition _read_as_table (g : Grid.t) : Result (list (list string)) :=
  map_result
    (fun row => map_result (index row) (range 0 (Grid.num_of_columns g)))
    (Grid.rows g).

(** [EntryGrid.read(as_dicts=True)] *)
Definition read (as_dicts : bool) (g : Grid.t) : Result contents :=
  if as_dicts then ds <- _read_as_dict g ;; Ok (AsDicts ds)
  else rows <- _read_as_table g ;; Ok (AsTable rows).

End EntryGrid.

(** ** [LabelGrid] and [ButtonGrid] *)

Module LabelGrid.
Import Py.

(** [LabelGrid.__init__] only calls [Grid.__init__]. *)
Definition __init__ := Grid.__init__.

(** [LabelGrid.add_row(data)]; a label shows [str(element)]. *)
Definition add_row (data : list string) (g : Grid.t) : Result Grid.t :=
  if truthy (Grid.headers g) && negb (len (Grid.headers g) =? len data)
  then Raise ValueError
  else Ok (Grid.mk (Grid.headers g) (Grid.rows g ++ [data])
                   (Grid.num_of_columns g)).

End LabelGrid.

Module ButtonGrid.
Import Py.

(** [ButtonGrid.__init__] only calls [Grid.__init__]. *)
Definition __init__ := Grid.__init__.

(** [ButtonGrid.add_row(data=None)]: an element of [data] is a pair of a
    button text and a command. Without [data] the loop
    [for i, e in enumerate(data)] raises [TypeError]. *)
Definition add_row {C} (data : option (list (string * C))) (g : Grid.t)
  : Result Grid.t :=
  if truthy (Grid.headers g) && truthy_opt data
     && negb (len (Grid.headers g)
              =? len (match data with Some d => d | None => [] end))
  then Raise ValueError
  else
    match data with
    | None => Raise TypeError
    | Some d =>
        Ok (Grid.mk (Grid.headers g) (Grid.rows g ++ [map fst d])
                    (Grid.num_of_columns g))
    end.

End ButtonGrid.

(** ** [KeyValueEntry] *)

Module KeyValueEntry.
Import Py.

Record t : Type := mk {
  keys : list string;
  defaults : list (option string);
  unit_labels : list string;
  enables : list (option bool);
  title : option string
}.

(** [KeyValueEntry.add_row(key, default, unit_label, enable)] *)
Definition add_row (key : string) (default : option string)
    (unit_label : option string) (enable : option bool) (kv : t) : t :=
  mk (keys kv ++ [key])
     (defaults kv ++ [default])
     (unit_labels kv ++ [match unit_label with
                         | Some (String c u) => String c u
                         | _ => EmptyString
                         end])
     (enables kv ++ [enable])
     (title kv).

(** [xs[i] if xs else None] *)
Definition pick {A} (xs : option (list A)) (i : Z) : Result (option A) :=
  match xs with
  | Some (x :: l) => a <- index (x :: l) i ;; Ok (Some a)
  | _ => Ok None
  end.

Fixpoint add_rows (ks : list string) (defaults unit_labels : option (list string))
    (enables : option (list bool)) (idxs : list Z) (kv : t) : Result t :=
  match idxs with
  | [] => Ok kv
  | i :: rest =>
      key <- index ks i ;;
      default <- pick defaults i ;;
      unit_label <- pick unit_labels i ;;
      enable <- pick enables i ;;
      add_rows ks defaults unit_labels enables rest
               (add_row key default unit_label enable kv)
  end.

(** [KeyValueEntry.__init__(parent, keys, defaults=None,
    unit_labels=None, enables=None, title=None)] *)
Definition __init__ (ks : list string)
    (defaults unit_labels : option (list string))
    (enables : option (list bool)) (title : option string) : Result t :=
  if truthy_opt defaults
     && negb (len ks =? len (match defaults with Some l => l | None => [] end))
  then Raise ValueError
  else if truthy_opt unit_labels
     && negb (len ks =? len (match unit_labels with Some l => l | None => [] end))
  then Raise ValueError
  else if truthy_opt enables
     && negb (len ks =? len (match enables with Some l => l | None => [] end))
  then Raise ValueError
  else
    add_rows ks defaults unit_labels enables (range 0 (len ks))
             (mk [] [] [] [] title).

End KeyValueEntry.

(** ** [tk.Entry] and the entries of [KeyValueEntry] *)

Module Entry.

(** An entry widget: its text and whether its state is [NORMAL] (it is
    [DISABLED] otherwise). Tk changes the text of a disabled entry by no
    widget command. *)
Record t : Type := mk { text : string; normal : bool }.

(** [tk.Entry(parent)] *)
Definition new : t := mk EmptyString true.

(** [e.config(state=NORMAL)], [e.config(state=DISABLED)] *)
Definition config_state (b : bool) (e : t) : t := mk (text e) b.

(** [e.delete(0, tk.END)] *)
Definition delete_all (e : t) : t :=
  if normal e then mk EmptyString true else e.

(** [e.insert(0, s)] *)
Definition insert0 (s : string) (e : t) : t :=
  if normal e then mk (s ++ text e) true else e.

(** [e.get()] *)
Definition get (e : t) : string := text e.

End Entry.

Module KeyValueForm.
Import Py.

(** A [KeyValueEntry] with its entry widgets [self.values]. *)
Record t : Type := mk {
  lists : KeyValueEntry.t;
  values : list Entry.t
}.

(** [l[i] = x] for an index in range. *)
Fixpoint store {A} (l : list A) (i : nat) (x : A) : list A :=
  match l, i with
  | [], _ => []
  | _ :: rest, O => x :: rest
  | y :: rest, S k => y :: store rest k x
  end.

(** Truth value of a default. *)
Definition truthy_default (d : option string) : bool :=
  match d with
  | Some (String _ _) => true
  | _ => false
  end.

(** One round of the loop of [add_row], on row [i]. *)
Definition redraw_row (l : KeyValueEntry.t) (i : Z) (vals : list Entry.t)
  : Result (list Entry.t) :=
  key <- index (KeyValueEntry.keys l) i ;;
  e <- index vals i ;;
  unit_label <- index (KeyValueEntry.unit_labels l) i ;;
  default <- index (KeyValueEntry.defaults l) i ;;
  let e :=
    if truthy_default default
    then Entry.insert0 (match default with Some s => s | None => EmptyString end)
           (Entry.delete_all (Entry.config_state true e))
    else e in
  enable <- index (KeyValueEntry.enables l) i ;;
  let e :=
    match enable with
    | Some false => Entry.config_state false e
    | _ => Entry.config_state true e
    end in
  Ok (store vals (Z.to_nat i) e).

(** [KeyValueEntry.add_row(key, default, unit_label, enable)] with the
    widgets. *)
Definition add_row (key : string) (default unit_label : option string)
    (enable : option bool) (f : t) : Result t :=
  let l := KeyValueEntry.add_row key default unit_label enable (lists f) in
  let vals := values f ++ [Entry.new] in
  vals <- for_each (redraw_row l) (range 0 (len (KeyValueEntry.keys l))) vals ;;
  Ok (mk l vals).

Fixpoint add_rows (ks : list string) (defaults unit_labels : option (list string))
    (enables : option (list bool)) (idxs : list Z) (f : t) : Result t :=
  match idxs with
  | [] => Ok f
  | i :: rest =>
      key <- index ks i ;;
      default <- KeyValueEntry.pick defaults i ;;
      unit_label <- KeyValueEntry.pick unit_labels i ;;
      enable <- KeyValueEntry.pick enables i ;;
      f <- add_row key default unit_label enable f ;;
      add_rows ks defaults unit_labels enables rest f
  end.

(** [KeyValueEntry.__init__], with the widgets. *)
Definition __init__ (ks : list string)
    (defaults unit_labels : option (list string))
    (enables : option (list bool)) (title : option string) : Result t :=
  if truthy_opt defaults
     && negb (len ks =? len (match defaults with Some l => l | None => [] end))
  then Raise ValueError
  else if truthy_opt unit_labels
     && negb (len ks =? len (match unit_labels with Some l => l | None => [] end))
  then Raise ValueError
  else if truthy_opt enables
     && negb (len ks =? len (match enables with Some l => l | None => [] end))
  then Raise ValueError
  else
    add_rows ks defaults unit_labels enables (range 0 (len ks))
             (mk (KeyValueEntry.mk [] [] [] [] title) []).

(** One round of the loop of [reset]. *)
Definition reset_row (l : KeyValueEntry.t) (i : Z) (vals : list Entry.t)
  : Result (list Entry.t) :=
  e <- index vals i ;;
  let e := Entry.delete_all e in
  default <- index (KeyValueEntry.defaults l) i ;;
  let e :=
    match default with
    | Some s => Entry.insert0 s e
    | None => e
    end in
  Ok (store vals (Z.to_nat i) e).

(** [KeyValueEntry.reset()] *)
Definition reset (f : t) : Result t :=
  vals <- for_each (reset_row (lists f)) (range 0 (len (values f)))
                   (values f) ;;
  Ok (mk (lists f) vals).

(** The loop of [change_enables] over [enumerate(self.values)]. *)
Fixpoint change_rows (enables_list : list bool) (i : Z) (vals : list Entry.t)
  : Result (list Entry.t) :=
  match vals with
  | [] => Ok []
  | entry :: rest =>
      b <- index enables_list i ;;
      rest <- change_rows enables_list (i + 1) rest ;;
      Ok (Entry.config_state b entry :: rest)
  end.

(** [KeyValueEntry.change_enables(enables_list)] *)
Definition change_enables (enables_list : list bool) (f : t) : Result t :=
  vals <- change_rows enables_list 0 (values f) ;;
  Ok (mk (lists f) vals).

(** One round of the loop of [load]. *)
Definition load_row (data : Dict.t string) (key : string) (i : Z)
    (vals : list Entry.t) : Result (list Entry.t) :=
  match Dict.get key data with
  | None => Ok vals
  | Some v =>
      e <- index vals i ;;
      let entry_was_enabled := Entry.normal e in
      let e := if negb entry_was_enabled then Entry.config_state true e else e in
      let e := Entry.insert0 v (Entry.delete_all e) in
      let e := if negb entry_was_enabled then Entry.config_state false e else e in
      Ok (store vals (Z.to_nat i) e)
  end.

(** [KeyValueEntry.load(data)]; a value of [data] is written as its
    [str()]. *)
Definition load (data : Dict.t string) (f : t) : Result t :=
  vals <- for_each (fun il => load_row data (snd il) (fst il))
                   (enumerate (KeyValueEntry.keys (lists f))) (values f) ;;
  Ok (mk (lists f) vals).

(** [KeyValueEntry.get()] *)
Definition get (f : t) : Dict.t string :=
  fold_left (fun data kv => Dict.set (fst kv) (Entry.get (snd kv)) data)
            (combine (KeyValueEntry.keys (lists f)) (values f)) [].

End KeyValueForm.

(** ** [SpreadSheetReader]: the paged view of a sheet *)

Module SpreadSheetReader.
Import Py.

(** [sheet] is the content of the selected sheet of the workbook at
    [path], one list of cell values per row, each value written as its
    [str()]; [opened] counts the calls of [xlrd.open_workbook]. *)
Record t : Type := mk {
  sheet : list (list string);
  rows_to_display : Z;
  cols_to_display : Z;
  current_position : Z * Z;
  entry_grid : Grid.t;
  opened : nat
}.

(** The body of [for i, row in enumerate(sheet.get_rows())] in
    [read_xl]. *)
Fixpoint read_rows (rows_to_display cols_to_display row_number column_number : Z)
    (i : Z) (rows : list (list string)) (g : Grid.t) : Result Grid.t :=
  match rows with
  | [] => Ok g
  | row :: rest =>
      g' <- (if row_number <=? i
             then
               let data := slice row column_number
                                 (column_number + cols_to_display) in
               EntryGrid.add_row (Some data) g
             else Ok g) ;;
      if rows_to_display + row_number <=? i then Ok g'
      else read_rows rows_to_display cols_to_display row_number
                     column_number (i + 1) rest g'
  end.

(** [read_xl(row_number=0, column_number=0, sheetname=None)] *)
Definition read_xl (row_number column_number : Z) (r : t) : Result t :=
  g <- read_rows (rows_to_display r) (cols_to_display r)
                 row_number column_number 0 (sheet r) (entry_grid r) ;;
  Ok (mk (sheet r) (rows_to_display r) (cols_to_display r)
         (current_position r) g (S (opened r))).

Definition with_grid (g : Grid.t) (r : t) : t :=
  mk (sheet r) (rows_to_display r) (cols_to_display r)
     (current_position r) g (opened r).

Definition with_position (p : Z * Z) (r : t) : t :=
  mk (sheet r) (rows_to_display r) (cols_to_display r)
     p (entry_grid r) (opened r).

(** [SpreadSheetReader.__init__(parent, path, rows_to_display=20,
    cols_do_display=8)] *)
Definition __init__ (sheet : list (list string))
    (rows_to_display cols_do_display : Z) : Result t :=
  g <- EntryGrid.__init__ 8 None ;;
  read_xl 0 0 (mk sheet rows_to_display cols_do_display (0, 0) g O).

Definition move_right (page : bool) (r : t) : Result t :=
  let '(row_pos, col_pos) := current_position r in
  g <- Grid.clear (entry_grid r) ;;
  let r := with_grid g r in
  let r :=
    if page then with_position (row_pos, col_pos + cols_to_display r) r
    else with_position (row_pos, col_pos + 1) r in
  read_xl (fst (current_position r)) (snd (current_position r)) r.

Definition move_left (page : bool) (r : t) : Result t :=
  let '(row_pos, col_pos) := current_position r in
  if negb page && (col_pos =? 0) then Ok r
  else if page && (col_pos <? cols_to_display r) then Ok r
  else
    g <- Grid.clear (entry_grid r) ;;
    let r := with_grid g r in
    let r :=
      if page then with_position (row_pos, col_pos - cols_to_display r) r
      else with_position (row_pos, col_pos - 1) r in
    read_xl (fst (current_position r)) (snd (current_position r)) r.

Definition move_down (page : bool) (r : t) : Result t :=
  let '(row_pos, col_pos) := current_position r in
  g <- Grid.clear (entry_grid r) ;;
  let r := with_grid g r in
  let r :=
    if page then with_position (row_pos + rows_to_display r, col_pos) r
    else with_position (row_pos + 1, col_pos) r in
  read_xl (fst (current_position r)) (snd (current_position r)) r.

Definition move_up (page : bool) (r : t) : Result t :=
  let '(row_pos, col_pos) := current_position r in
  if negb page && (row_pos =? 0) then Ok r
  else if page && (row_pos <? rows_to_display r) then Ok r
  else
    g <- Grid.clear (entry_grid r) ;;
    let r := with_grid g r in
    let r :=
      if page then with_position (row_pos - rows_to_display r, col_pos) r
      else with_position (row_pos - 1, col_pos) r in
    read_xl (fst (current_position r)) (snd (current_position r)) r.

End SpreadSheetReader.

(** ** [ttk.Treeview], as far as [Calendar] uses it *)

Module Treeview.
Import Py.

(** Item identifiers, numbered in insertion order. *)
Definition item : Type := nat.

(** The widget keeps its column identifiers ([tv['columns']]) and, per
    item, the list of the values given for it. *)
Record t : Type := mk {
  columns : list string;
  rows : list (item * list string)
}.

(** [ttk.Treeview(parent, show='', ...)]: no column and no item yet. *)
Definition new : t := mk [] [].

(** [tv['columns'] = cols] *)
Definition set_columns (cols : list string) (tv : t) : t :=
  mk cols (rows tv).

(** The items of the tree. *)
Definition ids (tv : t) : list item := map fst (rows tv).

(** A value read back from the widget: [ttk._convert_stringval] turns
    a text that [int()] accepts into that integer. *)
Inductive value : Type :=
| VInt (n : Z)
| VStr (s : string).

Definition _convert_stringval (s : string) : value :=
  match int s with
  | Ok n => VInt n
  | Raise _ => VStr s
  end.

(** Truth value of a cell value. *)
Definition truthy_value (v : value) : bool :=
  match v with
  | VInt n => negb (n =? 0)
  | VStr EmptyString => false
  | VStr _ => true
  end.

(** ['%02d' % v] *)
Definition fmt02d_value (v : value) : Result string :=
  match v with
  | VInt n => Ok (fmt02d n)
  | VStr _ => Raise TypeError
  end.

(** [tv.insert('', 'end', values=vs)]: returns the new item. *)
Definition insert (vs : list string) (tv : t) : item * t :=
  (List.length (rows tv),
   mk (columns tv) (rows tv ++ [(List.length (rows tv), vs)])).

Fixpoint set_row (it : item) (vs : list string)
    (rs : list (item * list string)) : list (item * list string) :=
  match rs with
  | [] => []
  | (k, old) :: rest =>
      if Nat.eqb k it then (k, vs) :: rest
      else (k, old) :: set_row it vs rest
  end.

(** [tv.item(it, values=vs)], for an item of the tree. *)
Definition set_values (it : item) (vs : list string) (tv : t) : t :=
  mk (columns tv) (set_row it vs (rows tv)).

Fixpoint row_values (it : item) (rs : list (item * list string))
  : list string :=
  match rs with
  | [] => []
  | (k, vs) :: rest => if Nat.eqb k it then vs else row_values it rest
  end.

(** The values of an item, as given. *)
Definition raw_values (it : item) (tv : t) : list string :=
  row_values it (rows tv).

(** [tv.item(it)['values']] *)
Definition values (it : item) (tv : t) : list value :=
  map _convert_stringval (raw_values it tv).

(** The cells in which the tree shows an item: one per column, with the
    value at the column's place; a column for which the item has no
    value shows an empty cell, and a value past the last column is not
    shown. *)
Definition cells (it : item) (tv : t) : list string :=
  map (fun k => nth k (raw_values it tv) EmptyString)
      (seq 0 (List.length (columns tv))).

End Treeview.

(** ** [locale]: the weekday names of a locale *)

Module locale.

(** What the platform makes of the locale given to a
    [LocaleTextCalendar] when the calendar formats a weekday name under
    it: [setlocale(LC_TIME, locale)] raises [locale.Error], or the locale
    is supported and [calendar.day_abbr] then holds these seven
    abbreviated names of the weekdays, from Monday to Sunday. *)
Inductive t : Type :=
| Unsupported
| Supported (mon tue wed thu fri sat sun : string).

End locale.

(** ** [Calendar] *)

Module Calendar.
Import Py.

(** What the toolkit reports for a button press at [(evt.x, evt.y)]:
    [identify_row] (an item, or nothing), [identify_column] (the [n] of
    ['#n'], or nothing) and whether [bbox] of that cell is non-empty. *)
Record event : Type := mk_event {
  hit_row : option Treeview.item;
  hit_column : option Z;
  hit_bbox : bool
}.

Record t : Type := mk {
  _date : datetime.t;
  _selection : option (string * Treeview.item * Z);
  callback : bool;               (* is a callback installed *)
  callback_calls : nat;          (* how often it has been called *)
  _cal : Z;                      (* first weekday of [self._cal] *)
  _calendar : Treeview.t;
  _items : list Treeview.item;
  canvas_placed : bool;          (* is the selection canvas shown *)
  canvas_text : string
}.

(** [calendar.day_abbr] in the C locale, which is the locale of
    [LC_TIME] as long as the program sets no other: the names that a
    calendar made without a locale shows. *)
Definition weekday_names : list string :=
  ["Mon"; "Tue"; "Wed"; "Thu"; "Fri"; "Sat"; "Sun"]%string.

(** The calendar objects of [calendar]: a [TextCalendar(firstweekday)],
    or a [LocaleTextCalendar(firstweekday, locale)]. *)
Inductive text_calendar : Type :=
| TextCalendar (firstweekday : Z)
| LocaleTextCalendar (firstweekday : Z) (loc : locale.t).

Definition firstweekday (cal : text_calendar) : Z :=
  match cal with
  | TextCalendar fw => fw
  | LocaleTextCalendar fw _ => fw
  end.

(** [_get_calendar(locale, fwday)] *)
Definition _get_calendar (loc : option locale.t) (fwday : Z)
  : text_calendar :=
  match loc with
  | None => TextCalendar fwday
  | Some l => LocaleTextCalendar fwday l
  end.

(** [calendar.day_abbr] as the calendar finds it when it formats a
    weekday name: a [LocaleTextCalendar] sets its locale first, which
    the platform must support. *)
Definition day_abbr (cal : text_calendar) : Result (list string) :=
  match cal with
  | TextCalendar _ => Ok weekday_names
  | LocaleTextCalendar _ locale.Unsupported => Raise LocaleError
  | LocaleTextCalendar _ (locale.Supported mon tue wed thu fri sat sun) =>
      Ok [mon; tue; wed; thu; fri; sat; sun]
  end.

(** [cal.iterweekdays()]: the numbers of the seven weekdays from the
    first weekday on, Monday being 0. *)
Definition iterweekdays (firstweekday : Z) : list Z :=
  map (fun i => i mod 7) (range firstweekday (firstweekday + 7)).

(** [names[day][:width].center(width)], what [cal.formatweekday(day,
    width)] returns for a [width] below 9. *)
Definition weekday_text (names : list string) (day width : Z) : string :=
  str_center (str_take (nth (Z.to_nat day) names EmptyString) width) width.

(** [' '.join(cal.formatweekday(i, width) for i in
    cal.iterweekdays())] *)
Definition weekheader_text (names : list string) (firstweekday width : Z)
  : string :=
  str_join " " (map (fun i => weekday_text names i width)
                    (iterweekdays firstweekday)).

(** [cal.formatweekheader(width)] *)
Definition formatweekheader (cal : text_calendar) (width : Z)
  : Result string :=
  names <- day_abbr cal ;;
  Ok (weekheader_text names (firstweekday cal) width).

(** [[('%02d' % day) if day else '' for day in week]] *)
Definition fmt_week (week : list Z) : list string :=
  map (fun day => if negb (day =? 0) then fmt02d day else EmptyString) week.

(** The loop of [_build_calendar] over [enumerate(self._items)]. *)
Fixpoint fill_items (cal : list (list Z)) (indx : Z)
    (items : list Treeview.item) (tv : Treeview.t) : Result Treeview.t :=
  match items with
  | [] => Ok tv
  | item :: rest =>
      week <- (if indx <? len cal then index cal indx else Ok []) ;;
      fill_items cal (indx + 1) rest
                 (Treeview.set_values item (fmt_week week) tv)
  end.

Definition with_calendar (tv : Treeview.t) (c : t) : t :=
  mk (_date c) (_selection c) (callback c) (callback_calls c) (_cal c)
     tv (_items c) (canvas_placed c) (canvas_text c).

Definition with_date (d : datetime.t) (c : t) : t :=
  mk d (_selection c) (callback c) (callback_calls c) (_cal c)
     (_calendar c) (_items c) (canvas_placed c) (canvas_text c).

(** [self._canvas.place_forget()] *)
Definition place_forget (c : t) : t :=
  mk (_date c) (_selection c) (callback c) (callback_calls c) (_cal c)
     (_calendar c) (_items c) false (canvas_text c).

(** [Calendar._build_calendar()] *)
Definition _build_calendar (c : t) : Result t :=
  let year := datetime.year (_date c) in
  let month := datetime.month (_date c) in
  cal <- calendar.monthdayscalendar (_cal c) year month ;;
  tv <- fill_items cal 0 (_items c) (_calendar c) ;;
  Ok (with_calendar tv c).

(** The six [insert('', 'end', values='')] of [__init__]. *)
Fixpoint insert_items (n : nat) (tv : Treeview.t)
  : list Treeview.item * Treeview.t :=
  match n with
  | O => ([], tv)
  | S k =>
      let '(it, tv) := Treeview.insert [] tv in
      let '(its, tv) := insert_items k tv in
      (it :: its, tv)
  end.

(** [Calendar.__config_calendar()]: the columns of the tree and its
    first row are the words of the week header, of which there must be
    one at least for the widest to be measured. *)
Definition __config_calendar (cal : text_calendar) (tv : Treeview.t)
  : Result Treeview.t :=
  header <- formatweekheader cal 3 ;;
  let cols := str_split header in
  let tv := Treeview.set_columns cols tv in
  let '(_, tv) := Treeview.insert cols tv in
  (* [maxwidth = max(font.measure(col) for col in cols)] *)
  if negb (truthy cols) then Raise ValueError else Ok tv.

(** [Calendar.__init__(parent, callback=None, locale=None, year=...,
    month=...)]; [year] and [month] default to today's. *)
Definition __init__ (cb : bool) (loc : option locale.t)
    (year month : Z) : Result t :=
  let fwday := calendar.SUNDAY in
  date <- datetime.new year month 1 ;;
  let cal := _get_calendar loc fwday in
  tv <- __config_calendar cal Treeview.new ;;
  let '(items, tv) := insert_items 6 tv in
  _build_calendar
    (mk date None cb O (firstweekday cal) tv items false EmptyString).

(** [Calendar._show_selection(text, bbox)] *)
Definition _show_selection (text : string) (c : t) : t :=
  mk (_date c) (_selection c) (callback c) (callback_calls c) (_cal c)
     (_calendar c) (_items c) true text.

(** [int(column[1])] for the column ['#n']: the number that the
    character after the ['#'] stands for. *)
Definition column_digit (column : Z) : Result Z :=
  match str column with
  | String ch _ => int (String ch EmptyString)
  | EmptyString => Raise IndexError
  end.

(** [Calendar._pressed(evt)] *)
Definition _pressed (evt : event) (c : t) : Result t :=
  match hit_column evt, hit_row evt with
  | None, _ => Ok c
  | Some _, None => Ok c
  | Some column, Some item =>
      if negb (existsb (Nat.eqb item) (_items c)) then Ok c
      else
        let item_values := Treeview.values item (_calendar c) in
        if len item_values =? 0 then Ok c
        else
          digit <- column_digit column ;;
          text <- index item_values (digit - 1) ;;
          if negb (Treeview.truthy_value text) then Ok c
          else if negb (hit_bbox evt) then Ok c
          else
            text <- Treeview.fmt02d_value text ;;
            let c :=
              mk (_date c) (Some (text, item, column)) (callback c)
                 (callback_calls c) (_cal c) (_calendar c) (_items c)
                 (canvas_placed c) (canvas_text c) in
            let c := _show_selection text c in
            Ok (if callback c
                then mk (_date c) (_selection c) (callback c)
                        (S (callback_calls c)) (_cal c) (_calendar c)
                        (_items c) (canvas_placed c) (canvas_text c)
                else c)
  end.

(** [Calendar.add_callback(callback)] *)
Definition add_callback (c : t) : t :=
  mk (_date c) (_selection c) true (callback_calls c) (_cal c)
     (_calendar c) (_items c) (canvas_placed c) (canvas_text c).

(** [Calendar._prev_month()] *)
Definition _prev_month (c : t) : Result t :=
  let c := place_forget c in
  d <- datetime.add_days (_date c) (-1) ;;
  let c := with_date d c in
  d <- datetime.new (datetime.year (_date c)) (datetime.month (_date c)) 1 ;;
  let c := with_date d c in
  _build_calendar c.

(** [Calendar._next_month()] *)
Definition _next_month (c : t) : Result t :=
  let c := place_forget c in
  let year := datetime.year (_date c) in
  let month := datetime.month (_date c) in
  r <- calendar.monthrange year month ;;
  d <- datetime.add_days (_date c) (snd r + 1) ;;
  let c := with_date d c in
  d <- datetime.new (datetime.year (_date c)) (datetime.month (_date c)) 1 ;;
  let c := with_date d c in
  _build_calendar c.

(** [Calendar.selection] *)
Definition selection (c : t) : Result (option datetime.t) :=
  match _selection c with
  | None => Ok None
  | Some (text, _, _) =>
      let year := datetime.year (_date c) in
      let month := datetime.month (_date c) in
      day <- int text ;;
      d <- datetime.new year month day ;;
      Ok (Some d)
  end.

(** [self['year'], self['month']] *)
Definition shown_month (c : t) : Z * Z :=
  (datetime.year (_date c), datetime.month (_date c)).

(** The values of the six week items, top to bottom. *)
Definition raw_rows (c : t) : list (list string) :=
  map (fun it => Treeview.raw_values it (_calendar c)) (_items c).

(** The cells of the six week rows as the tree shows them, top to
    bottom. *)
Definition week_rows (c : t) : list (list string) :=
  map (fun it => Treeview.cells it (_calendar c)) (_items c).

End Calendar.

(** * Notions used to state the properties *)

(** The month after and the month before [(y, m)]. *)
Definition succ_month (ym : Z * Z) : Z * Z :=
  let '(y, m) := ym in if m =? 12 then (y + 1, 1) else (y, m + 1).

Definition pred_month (ym : Z * Z) : Z * Z :=
  let '(y, m) := ym in if m =? 1 then (y - 1, 12) else (y, m - 1).

(** The pieces of the check that is run below over the months of one
    400-year cycle (146097 days): [n] is the ordinal [_next_month]
    reaches from the first of month [(y, m)] and [p] the one
    [_prev_month] reaches; 145731 is the ordinal of 31 December 399,
    which is 24 cycles before [_MAXORDINAL]. *)
Definition ym_eqb (a b : Z * Z) : bool := (fst a =? fst b) && (snd a =? snd b).

Definition ym_of (t : Z * Z * Z) : Z * Z := (fst (fst t), snd (fst t)).

Definition next_ord (y m : Z) : Z :=
  datetime._ymd2ord y m 1 + datetime._days_in_month y m + 1.

Definition prev_ord (y m : Z) : Z := datetime._ymd2ord y m 1 - 1.

Definition check_body (a b : Z * Z) (p n y m : Z) : bool :=
  ym_eqb a (succ_month (y, m))
  && ym_eqb b (pred_month (y, m))
  && (0 <=? p)
  && Bool.eqb (p =? 0) ((y =? 1) && (m =? 1))
  && (n <=? 146099)
  && (if y <=? 399
      then Bool.eqb (n <=? 145731) (negb ((y =? 399) && (m =? 12)))
      else true)
  && ((399 <? y) || (p <=? 145731)).

(** The length of a month in the proleptic Gregorian calendar, written
    from the calendar's rule rather than from the code's tables. *)
Definition leap_year (y : Z) : bool :=
  ((y mod 4 =? 0) && negb (y mod 100 =? 0)) || (y mod 400 =? 0).

Definition month_length (y m : Z) : Z :=
  match m with
  | 1 | 3 | 5 | 7 | 8 | 10 | 12 => 31
  | 4 | 6 | 9 | 11 => 30
  | 2 => if leap_year y then 29 else 28
  | _ => 0
  end.

(** The non-empty cells of a grid of cell texts in row-major order, and
    the day numbers they show. *)
Definition nonempty (s : string) : bool :=
  match s with EmptyString => false | String _ _ => true end.

Definition day_cells (g : list (list string)) : list string :=
  filter nonempty (List.concat g).

Definition day_values (g : list (list string)) : list (Py.Result Z) :=
  map Py.int (day_cells g).

(** The day shown at a grid coordinate of a month calendar: [None]
    outside the populated weeks or columns, [Some 0] on an empty cell. *)
Definition cell_day (cal : list (list Z)) (row col : nat) : option Z :=
  match nth_error cal row with
  | Some week => nth_error week col
  | None => None
  end.

(** The calendar that [__init__] hands to [_build_calendar]: the tree
    has the columns [cols], the row of these names as item 0 and six
    items without values below it. *)
Definition init_state (cb : bool) (date : datetime.t) (cols : list string)
  : Calendar.t :=
  Calendar.mk date None cb O calendar.SUNDAY
    (Treeview.mk cols
       [(0%nat, cols); (1%nat, []); (2%nat, []); (3%nat, []); (4%nat, []);
        (5%nat, []); (6%nat, [])])
    [1; 2; 3; 4; 5; 6]%nat false EmptyString.

(** A button press as the toolkit can report it for this widget: the
    column, when there is one, is one of the seven that the values of a
    week row fill, and the row, when there is one, is an item of the
    tree. *)
Definition toolkit_event (c : Calendar.t) (evt : Calendar.event) : Prop :=
  match Calendar.hit_column evt with
  | Some n => 1 <= n <= 7
  | None => True
  end
  /\ match Calendar.hit_row evt with
     | Some it => In it (Treeview.ids (Calendar._calendar c))
     | None => True
     end.

(** The states a calendar widget can be in: built by the constructor and
    then driven by button presses, the two arrow buttons and
    [add_callback]. *)
Inductive reachable : Calendar.t -> Prop :=
| reach_init cb loc y m c :
    Calendar.__init__ cb loc y m = Py.Ok c -> reachable c
| reach_pressed evt c c' :
    reachable c -> toolkit_event c evt ->
    Calendar._pressed evt c = Py.Ok c' -> reachable c'
| reach_next c c' :
    reachable c -> Calendar._next_month c = Py.Ok c' -> reachable c'
| reach_prev c c' :
    reachable c -> Calendar._prev_month c = Py.Ok c' -> reachable c'
| reach_add_callback c :
    reachable c -> reachable (Calendar.add_callback c).

(** What every reachable calendar satisfies: it shows the first day of a
    valid month, and its six week items are distinct items of the tree
    holding the formatted weeks of that month. *)
Record calendar_inv (c : Calendar.t) : Prop := {
  inv_day : datetime.day (Calendar._date c) = 1;
  inv_year : 1 <= datetime.year (Calendar._date c) <= 9999;
  inv_month : 1 <= datetime.month (Calendar._date c) <= 12;
  inv_items_len : List.length (Calendar._items c) = 6%nat;
  inv_items_nodup : NoDup (Calendar._items c);
  inv_items_in : incl (Calendar._items c) (Treeview.ids (Calendar._calendar c));
  inv_rows :
    exists cal,
      calendar.monthdayscalendar (Calendar._cal c)
        (datetime.year (Calendar._date c)) (datetime.month (Calendar._date c))
      = Py.Ok cal
      /\ Calendar.raw_rows c
         = map (fun k => Calendar.fmt_week (nth k cal [])) (seq 0 6)
}.

(** A reader as its constructor builds it: the entry grid has no
    headers and at least one column (it has 8). *)
Definition grid_inv (g : Grid.t) : Prop :=
  Grid.headers g = [] /\ 0 < Grid.num_of_columns g.

Definition reader_inv (r : SpreadSheetReader.t) : Prop :=
  grid_inv (SpreadSheetReader.entry_grid r).

(** A press that cannot select a day of the month calendar [cal]: the
    toolkit found no column or no row, the row is not one of the week
    rows, the week row lies at or beyond the populated weeks, or the cell
    is empty. *)
Inductive void_click (c : Calendar.t) (cal : list (list Z))
  : Calendar.event -> Prop :=
| void_no_column row bbox :
    void_click c cal (Calendar.mk_event row None bbox)
| void_no_row column bbox :
    void_click c cal (Calendar.mk_event None column bbox)
| void_not_a_week item column bbox :
    ~ In item (Calendar._items c) ->
    void_click c cal (Calendar.mk_event (Some item) column bbox)
| void_beyond_weeks k item column bbox :
    nth_error (Calendar._items c) k = Some item ->
    (List.length cal <= k)%nat ->
    void_click c cal (Calendar.mk_event (Some item) (Some column) bbox)
| void_empty_cell k item column bbox :
    nth_error (Calendar._items c) k = Some item ->
    1 <= column <= 7 ->
    cell_day cal k (Z.to_nat (column - 1)) = Some 0 ->
    void_click c cal (Calendar.mk_event (Some item) (Some column) bbox).

(** The days of a month that starts [b] columns in and has [n] days, and
    its split into weeks. *)
Definition month_days (b n : Z) : list Z :=
  repeat 0 (Z.to_nat b) ++ Py.range 1 (n + 1)
  ++ repeat 0 (Z.to_nat ((- b - n) mod 7)).

Definition weeks_of (days : list Z) : list (list Z) :=
  map (fun i => Py.slice days i (i + 7)) (Py.range_step (Py.len days) 7).

Definition grid_of (cal : list (list Z)) : list (list string) :=
  map (fun k => Calendar.fmt_week (nth k cal [])) (seq 0 6).

(** A supplied, non-empty list whose length is not [n]. *)
Definition mismatched {A} (n : Z) (xs : option (list A)) : Prop :=
  exists x l, xs = Some (x :: l) /\ Py.len (x :: l) <> n.

(** The cells [add_row] makes for the data of one sheet row in a grid
    of [nc] columns. *)
Definition shown_row (nc : Z) (data : list string) : list string :=
  match data with
  | e :: es => e :: es
  | [] => map (fun _ => EmptyString) (Py.range 0 nc)
  end.

(** Every row of the grid has [n] cells. *)
Definition rectangular (n : Z) (g : Grid.t) : Prop :=
  Forall (fun row => Py.len row = n) (Grid.rows g).

(** The grids an [EntryGrid] goes through from [g0] on, by [add_row],
    [remove_row] and [clear]. *)
Inductive entry_grid_from (g0 : Grid.t) : Grid.t -> Prop :=
| entry_grid_start : entry_grid_from g0 g0
| entry_grid_add data g g' :
    entry_grid_from g0 g -> EntryGrid.add_row data g = Py.Ok g' ->
    entry_grid_from g0 g'
| entry_grid_remove i g g' :
    entry_grid_from g0 g -> Grid.remove_row i g = Py.Ok g' ->
    entry_grid_from g0 g'
| entry_grid_clear g g' :
    entry_grid_from g0 g -> Grid.clear g = Py.Ok g' ->
    entry_grid_from g0 g'.

(** The same for a [LabelGrid]. *)
Inductive label_grid_from (g0 : Grid.t) : Grid.t -> Prop :=
| label_grid_start : label_grid_from g0 g0
| label_grid_add data g g' :
    label_grid_from g0 g -> LabelGrid.add_row data g = Py.Ok g' ->
    label_grid_from g0 g'
| label_grid_remove i g g' :
    label_grid_from g0 g -> Grid.remove_row i g = Py.Ok g' ->
    label_grid_from g0 g'
| label_grid_clear g g' :
    label_grid_from g0 g -> Grid.clear g = Py.Ok g' ->
    label_grid_from g0 g'.

(** A grid with the headers [hs]: as many columns as headers, and every
    row with a cell for each header. *)
Definition headed (hs : list string) (g : Grid.t) : Prop :=
  Grid.headers g = hs /\ Grid.num_of_columns g = Py.len hs
  /\ rectangular (Py.len hs) g.

(** The rows of the sheet from row [rp] on, at most [rtd + 1] of them,
    each cut to the columns from [cp] up to [cp + ctd] and shown in a
    grid of 8 columns. *)
Definition window (sheet : list (list string)) (rtd ctd rp cp : Z)
  : list (list string) :=
  map (fun row => shown_row 8 (Py.slice row cp (cp + ctd)))
      (firstn (Z.to_nat (rtd + 1)) (skipn (Z.to_nat rp) sheet)).

(** The readers reached from [r0] by the four moves. *)
Inductive reader_from (r0 : SpreadSheetReader.t)
  : SpreadSheetReader.t -> Prop :=
| reader_start : reader_from r0 r0
| reader_right page r r' :
    reader_from r0 r -> SpreadSheetReader.move_right page r = Py.Ok r' ->
    reader_from r0 r'
| reader_left page r r' :
    reader_from r0 r -> SpreadSheetReader.move_left page r = Py.Ok r' ->
    reader_from r0 r'
| reader_down page r r' :
    reader_from r0 r -> SpreadSheetReader.move_down page r = Py.Ok r' ->
    reader_from r0 r'
| reader_up page r r' :
    reader_from r0 r -> SpreadSheetReader.move_up page r = Py.Ok r' ->
    reader_from r0 r'.

(** A reader of [sheet] that shows the window at its position. *)
Definition shows_window (sheet : list (list string)) (rtd ctd : Z)
    (r : SpreadSheetReader.t) : Prop :=
  SpreadSheetReader.sheet r = sheet
  /\ SpreadSheetReader.rows_to_display r = rtd
  /\ SpreadSheetReader.cols_to_display r = ctd
  /\ 0 <= fst (SpreadSheetReader.current_position r)
  /\ 0 <= snd (SpreadSheetReader.current_position r)
  /\ SpreadSheetReader.entry_grid r
     = Grid.mk [] (window sheet rtd ctd
                     (fst (SpreadSheetReader.current_position r))
                     (snd (SpreadSheetReader.current_position r))) 8.

(** The calendar after a press that selected the cell showing [text]. *)
Definition selected (text : string) (item : Treeview.item) (column : Z)
    (c : Calendar.t) : Calendar.t :=
  Calendar.mk (Calendar._date c) (Some (text, item, column))
    (Calendar.callback c)
    (if Calendar.callback c then S (Calendar.callback_calls c)
     else Calendar.callback_calls c)
    (Calendar._cal c) (Calendar._calendar c) (Calendar._items c) true text.

(** The column of the first day of the month shown. *)
Definition first_column (c : Calendar.t) : Z :=
  (datetime.weekday (Calendar._date c) - Calendar._cal c) mod 7.

(** The stored selection, when there is one, holds the text of a day
    number. *)
Definition day_selection (c : Calendar.t) : Prop :=
  match Calendar._selection c with
  | None => True
  | Some (text, _, _) => exists d, 1 <= d <= 31 /\ text = Py.fmt02d d
  end.

(** A word: a text that is not empty and holds no white space. *)
Definition is_word (s : string) : bool :=
  nonempty s
  && forallb (fun ch => negb (Py.str_isspace ch)) (list_ascii_of_string s).

(** The first three characters of the name of each of the seven
    weekdays from [firstweekday] on. *)
Definition weekheader (names : list string) (firstweekday : Z)
  : list string :=
  map (fun i => Py.str_take (nth (Z.to_nat i) names EmptyString) 3)
      (Calendar.iterweekdays firstweekday).

(** The parts of a calendar that no method changes after construction:
    weeks start on Sunday, the six week rows are the items 1 to 6, and
    the columns of the tree and its item 0 hold the words [cols] of the
    week header. *)
Definition header_inv (cols : list string) (c : Calendar.t) : Prop :=
  Calendar._cal c = calendar.SUNDAY
  /\ Calendar._items c = [1; 2; 3; 4; 5; 6]%nat
  /\ Treeview.columns (Calendar._calendar c) = cols
  /\ Treeview.raw_values 0%nat (Calendar._calendar c) = cols.

(** The states a calendar goes through from [c0] on. *)
Inductive reached_from (c0 : Calendar.t) : Calendar.t -> Prop :=
| reached_start : reached_from c0 c0
| reached_pressed evt c c' :
    reached_from c0 c -> toolkit_event c evt ->
    Calendar._pressed evt c = Py.Ok c' -> reached_from c0 c'
| reached_next c c' :
    reached_from c0 c -> Calendar._next_month c = Py.Ok c' ->
    reached_from c0 c'
| reached_prev c c' :
    reached_from c0 c -> Calendar._prev_month c = Py.Ok c' ->
    reached_from c0 c'
| reached_add_callback c :
    reached_from c0 c -> reached_from c0 (Calendar.add_callback c).

(** ** The entries of a key-value form *)

(** All the lists of the form have one element per row. *)
Definition aligned (f : KeyValueForm.t) : Prop :=
  let l := KeyValueForm.lists f in
  List.length (KeyValueEntry.defaults l) = List.length (KeyValueEntry.keys l)
  /\ List.length (KeyValueEntry.unit_labels l)
     = List.length (KeyValueEntry.keys l)
  /\ List.length (KeyValueEntry.enables l)
     = List.length (KeyValueEntry.keys l)
  /\ List.length (KeyValueForm.values f)
     = List.length (KeyValueEntry.keys l).

(** [f i x] for every element [x] of a list, [i] counting from [k]. *)
Fixpoint mapi_from {A B} (k : nat) (f : nat -> A -> B) (l : list A)
  : list B :=
  match l with
  | [] => []
  | x :: rest => f k x :: mapi_from (S k) f rest
  end.

Definition default_text (d : option string) : string :=
  match d with Some s => s | None => EmptyString end.

(** Is an entry with this [enable] in its normal state. *)
Definition enabled (enable : option bool) : bool :=
  match enable with Some false => false | _ => true end.

(** An entry after the loop of [add_row] went over its row: a non-empty
    default replaces the text, and the state is the one of [enable]. *)
Definition redrawn (l : KeyValueEntry.t) (i : nat) (e : Entry.t) : Entry.t :=
  let d := nth i (KeyValueEntry.defaults l) None in
  Entry.mk (if KeyValueForm.truthy_default d then default_text d
            else Entry.text e)
           (enabled (nth i (KeyValueEntry.enables l) None)).

(** An entry after [reset]. *)
Definition reset_entry (l : KeyValueEntry.t) (i : nat) (e : Entry.t)
  : Entry.t :=
  if Entry.normal e
  then Entry.mk (default_text (nth i (KeyValueEntry.defaults l) None)) true
  else e.

(** An entry after [load(data)]. *)
Definition loaded (data : Dict.t string) (l : KeyValueEntry.t) (i : nat)
    (e : Entry.t) : Entry.t :=
  match Dict.get (nth i (KeyValueEntry.keys l) EmptyString) data with
  | Some v => Entry.mk v (Entry.normal e)
  | None => e
  end.

(** Every entry of the form is as [add_row] leaves a new entry. *)
Definition fresh (f : KeyValueForm.t) : Prop :=
  KeyValueForm.values f
  = mapi_from 0 (redrawn (KeyValueForm.lists f))
              (repeat Entry.new (List.length (KeyValueForm.values f))).

(** * Properties *)

Import Py.

(** Linear arithmetic with division and remainder by constants. *)
Ltac euclid := Z.to_euclidean_division_equations; lia.

(** ** Machine integers *)

Lemma fits_int_iff n :
  fits_int n = true <-> -2147483648 <= n <= 2147483647.
Proof.
  unfold fits_int, INT_MIN, INT_MAX. change (2 ^ 31) with 2147483648. lia.
Qed.

Lemma fits_ssize_t_iff n :
  fits_ssize_t n = true
  <-> -9223372036854775808 <= n <= 9223372036854775807.
Proof.
  unfold fits_ssize_t, PY_SSIZE_T_MIN, PY_SSIZE_T_MAX.
  change (2 ^ 63) with 9223372036854775808. lia.
Qed.

Lemma fits_int_small n : -2147483648 <= n <= 2147483647 -> fits_int n = true.
Proof. apply fits_int_iff. Qed.

Lemma fits_ssize_t_small n :
  -9223372036854775808 <= n <= 9223372036854775807 -> fits_ssize_t n = true.
Proof. apply fits_ssize_t_iff. Qed.

(** ** Dates: the 400-year cycle *)

Lemma is_leap_period y k : datetime._is_leap (y + 400 * k) = datetime._is_leap y.
Proof.
  unfold datetime._is_leap.
  replace ((y + 400 * k) mod 4) with (y mod 4) by euclid.
  replace ((y + 400 * k) mod 100) with (y mod 100) by euclid.
  replace ((y + 400 * k) mod 400) with (y mod 400) by euclid.
  reflexivity.
Qed.

Lemma days_before_year_period y k :
  datetime._days_before_year (y + 400 * k) = datetime._days_before_year y + 146097 * k.
Proof. unfold datetime._days_before_year. cbv zeta. euclid. Qed.

Lemma ord2ymd_period n k :
  datetime._ord2ymd (n + 146097 * k) =
  let '(y, m, d) := datetime._ord2ymd n in (y + 400 * k, m, d).
Proof.
  unfold datetime._ord2ymd.
  replace (n + 146097 * k - 1) with ((n - 1) + k * datetime._DI400Y)
    by (unfold datetime._DI400Y; lia).
  rewrite Z.div_add by (unfold datetime._DI400Y; lia).
  rewrite Z_mod_plus_full.
  cbv zeta.
  set (r := (n - 1) mod datetime._DI400Y).
  set (q := (n - 1) / datetime._DI400Y).
  destruct (_ || _).
  - f_equal. f_equal. lia.
  - destruct (_ <? _); f_equal; f_equal; lia.
Qed.

Lemma ym_eqb_eq a b : ym_eqb a b = true -> a = b.
Proof.
  destruct a as [a1 a2], b as [b1 b2]. unfold ym_eqb. cbn [fst snd].
  intros E. apply andb_prop in E. destruct E. f_equal; lia.
Qed.

Lemma check_body_sound a b p n y m :
  check_body a b p n y m = true ->
  a = succ_month (y, m) /\ b = pred_month (y, m)
  /\ 0 <= p /\ (p = 0 <-> y = 1 /\ m = 1)
  /\ n <= 146099
  /\ (y <= 399 -> (n <= 145731 <-> ~ (y = 399 /\ m = 12)))
  /\ (y <= 399 -> p <= 145731).
Proof.
  unfold check_body. intros H.
  apply andb_prop in H. destruct H as [H H7].
  apply andb_prop in H. destruct H as [H H6].
  apply andb_prop in H. destruct H as [H H5].
  apply andb_prop in H. destruct H as [H H4].
  apply andb_prop in H. destruct H as [H H3].
  apply andb_prop in H. destruct H as [H1 H2].
  apply ym_eqb_eq in H1. apply ym_eqb_eq in H2. apply Bool.eqb_prop in H4.
  split; [exact H1|]. split; [exact H2|]. split; [lia|].
  split; [|split; [lia|split]].
  - destruct (p =? 0) eqn:B; symmetry in H4.
    + apply andb_prop in H4. lia.
    + apply andb_false_iff in H4. lia.
  - intros Hy'. replace (y <=? 399) with true in H6 by lia.
    apply Bool.eqb_prop in H6.
    destruct (n <=? 145731) eqn:B; symmetry in H6.
    + apply negb_true_iff, andb_false_iff in H6. lia.
    + apply negb_false_iff, andb_prop in H6. lia.
  - intros Hy'. apply orb_prop in H7. lia.
Qed.

Lemma cycle_check_all_true :
  forallb
    (fun y =>
       forallb
         (fun m =>
            check_body (ym_of (datetime._ord2ymd (next_ord y m)))
                       (ym_of (datetime._ord2ymd (prev_ord y m)))
                       (prev_ord y m) (next_ord y m) y m)
         (range 1 13))
    (range 1 401) = true.
Proof. vm_compute. reflexivity. Qed.

Lemma In_range a b x : a <= x < b -> In x (range a b).
Proof.
  intros H. unfold range. apply in_map_iff.
  exists (Z.to_nat (x - a)). split; [lia|].
  apply in_seq. lia.
Qed.

Lemma cycle_facts y m :
  1 <= y <= 400 -> 1 <= m <= 12 ->
  ym_of (datetime._ord2ymd (next_ord y m)) = succ_month (y, m)
  /\ ym_of (datetime._ord2ymd (prev_ord y m)) = pred_month (y, m)
  /\ 0 <= prev_ord y m /\ (prev_ord y m = 0 <-> y = 1 /\ m = 1)
  /\ next_ord y m <= 146099
  /\ (y <= 399 -> (next_ord y m <= 145731 <-> ~ (y = 399 /\ m = 12)))
  /\ (y <= 399 -> prev_ord y m <= 145731).
Proof.
  intros Hy Hm.
  assert (Iy : In y (range 1 401)) by (apply In_range; lia).
  assert (Im : In m (range 1 13)) by (apply In_range; lia).
  apply check_body_sound.
  exact (proj1 (forallb_forall _ _)
               (proj1 (forallb_forall _ _) cycle_check_all_true y Iy) m Im).
Qed.

Lemma days_in_month_period y k m :
  datetime._days_in_month (y + 400 * k) m = datetime._days_in_month y m.
Proof. unfold datetime._days_in_month. now rewrite is_leap_period. Qed.

Lemma ymd2ord_period y k m d :
  datetime._ymd2ord (y + 400 * k) m d = datetime._ymd2ord y m d + 146097 * k.
Proof.
  unfold datetime._ymd2ord, datetime._days_before_month.
  rewrite days_before_year_period, is_leap_period. lia.
Qed.

Lemma days_in_month_bounds y m :
  1 <= m <= 12 -> 28 <= datetime._days_in_month y m <= 31.
Proof.
  intros Hm. unfold datetime._days_in_month.
  assert (C : m = 1 \/ m = 2 \/ m = 3 \/ m = 4 \/ m = 5 \/ m = 6 \/ m = 7
              \/ m = 8 \/ m = 9 \/ m = 10 \/ m = 11 \/ m = 12) by lia.
  destruct (datetime._is_leap y);
    repeat (destruct C as [->|C]; [cbv; intuition congruence|]); subst; cbv; intuition congruence.
Qed.

Lemma mdays_days_in_month y m :
  1 <= m <= 12 ->
  datetime.tbl calendar.mdays m
  + (if (m =? calendar.February) && calendar.isleap y then 1 else 0)
  = datetime._days_in_month y m.
Proof.
  intros Hm. unfold datetime._days_in_month, calendar.February.
  change (calendar.isleap y) with (datetime._is_leap y).
  assert (C : m = 1 \/ m = 2 \/ m = 3 \/ m = 4 \/ m = 5 \/ m = 6 \/ m = 7
              \/ m = 8 \/ m = 9 \/ m = 10 \/ m = 11 \/ m = 12) by lia.
  destruct (datetime._is_leap y);
    repeat (destruct C as [->|C]; [reflexivity|]); subst; reflexivity.
Qed.

Lemma new_ok y m d :
  1 <= y <= 9999 -> 1 <= m <= 12 -> 1 <= d <= datetime._days_in_month y m ->
  datetime.new y m d = Ok (datetime.mk y m d).
Proof.
  intros Hy Hm Hd. pose proof (days_in_month_bounds y m Hm) as Hb.
  unfold datetime.new, datetime.MINYEAR, datetime.MAXYEAR.
  rewrite !fits_int_small by lia. cbn [andb negb].
  replace ((1 <=? y) && (y <=? 9999)) with true by lia.
  replace ((1 <=? m) && (m <=? 12)) with true by lia.
  replace ((1 <=? d) && (d <=? datetime._days_in_month y m)) with true by lia.
  reflexivity.
Qed.

Lemma new_first y m :
  1 <= y <= 9999 -> 1 <= m <= 12 ->
  datetime.new y m 1 = Ok (datetime.mk y m 1).
Proof.
  intros Hy Hm. apply new_ok; trivial.
  pose proof (days_in_month_bounds y m Hm). lia.
Qed.

Lemma monthrange_ok y m :
  1 <= y <= 9999 -> 1 <= m <= 12 ->
  calendar.monthrange y m
  = Ok (datetime.weekday (datetime.mk y m 1), datetime._days_in_month y m).
Proof.
  intros Hy Hm. unfold calendar.monthrange, calendar.weekday.
  replace ((1 <=? m) && (m <=? 12)) with true by lia.
  unfold datetime.MINYEAR, datetime.MAXYEAR.
  replace ((1 <=? y) && (y <=? 9999)) with true by lia.
  cbn [negb]. rewrite new_first by trivial. cbn [bind].
  now rewrite mdays_days_in_month.
Qed.

Lemma year_cycle y :
  1 <= y <= 9999 ->
  exists y0 k, y = y0 + 400 * k /\ 1 <= y0 <= 400 /\ 0 <= k <= 24
               /\ (k = 24 -> y0 <= 399).
Proof.
  intros Hy. exists (y - 400 * ((y - 1) / 400)), ((y - 1) / 400).
  Z.to_euclidean_division_equations. lia.
Qed.

Lemma succ_month_period y k m :
  succ_month (y + 400 * k, m)
  = (fst (succ_month (y, m)) + 400 * k, snd (succ_month (y, m))).
Proof. unfold succ_month. destruct (m =? 12); cbn; f_equal; lia. Qed.

Lemma pred_month_period y k m :
  pred_month (y + 400 * k, m)
  = (fst (pred_month (y, m)) + 400 * k, snd (pred_month (y, m))).
Proof. unfold pred_month. destruct (m =? 1); cbn; f_equal; lia. Qed.

Lemma fromordinal_period n k a b :
  ym_of (datetime._ord2ymd n) = (a, b) ->
  exists d, datetime.fromordinal (n + 146097 * k) = datetime.mk (a + 400 * k) b d.
Proof.
  intros H. unfold datetime.fromordinal. rewrite ord2ymd_period.
  destruct (datetime._ord2ymd n) as [[a' b'] d]. cbn in H.
  injection H as -> ->. now exists d.
Qed.

Lemma prev_next_ord y m :
  1 <= m <= 12 -> prev_ord y m + 30 <= next_ord y m.
Proof.
  intros Hm. pose proof (days_in_month_bounds y m Hm).
  unfold prev_ord, next_ord. lia.
Qed.

(** One day short of a month after its first day is the month after. *)
Lemma add_month_days y m :
  1 <= y <= 9999 -> 1 <= m <= 12 -> (y, m) <> (9999, 12) ->
  exists d,
    datetime.add_days (datetime.mk y m 1) (datetime._days_in_month y m + 1)
    = Ok (datetime.mk (fst (succ_month (y, m))) (snd (succ_month (y, m))) d).
Proof.
  intros Hy Hm Hne.
  destruct (year_cycle y Hy) as (y0 & k & -> & Hy0 & Hk & Hk').
  destruct (cycle_facts y0 m Hy0 Hm) as (Hs & _ & Hp & _ & Hn & Hlast & _).
  pose proof (prev_next_ord y0 m Hm) as Hpn.
  unfold datetime.add_days, datetime.toordinal.
  cbn [datetime.year datetime.month datetime.day].
  rewrite ymd2ord_period, days_in_month_period, succ_month_period.
  replace (datetime._ymd2ord y0 m 1 + 146097 * k + (datetime._days_in_month y0 m + 1))
    with (next_ord y0 m + 146097 * k) by (unfold next_ord; lia).
  generalize dependent (next_ord y0 m). generalize dependent (prev_ord y0 m).
  intros p Hp n Hs Hn Hlast Hpn.
  assert (Hrange : (0 <? n + 146097 * k)
                   && (n + 146097 * k <=? datetime._MAXORDINAL) = true).
  { unfold datetime._MAXORDINAL. apply andb_true_intro. split; [lia|].
    apply Z.leb_le.
    destruct (Z.eq_dec k 24) as [->|Hk24]; [|lia].
    specialize (Hk' eq_refl). specialize (Hlast Hk').
    assert (n <= 145731); [|lia].
    apply Hlast. intros [-> ->]. apply Hne. reflexivity. }
  rewrite Hrange.
  destruct (succ_month (y0, m)) as [a b] eqn:Es. cbn [fst snd].
  destruct (fromordinal_period n k a b Hs) as [d Hd']. exists d. now rewrite Hd'.
Qed.

(** The day before the first of a month lies in the month before. *)
Lemma sub_one_day y m :
  1 <= y <= 9999 -> 1 <= m <= 12 -> (y, m) <> (1, 1) ->
  exists d,
    datetime.add_days (datetime.mk y m 1) (-1)
    = Ok (datetime.mk (fst (pred_month (y, m))) (snd (pred_month (y, m))) d).
Proof.
  intros Hy Hm Hne.
  destruct (year_cycle y Hy) as (y0 & k & -> & Hy0 & Hk & Hk').
  destruct (cycle_facts y0 m Hy0 Hm) as (_ & Hs & Hp & Hp0 & Hn & _ & Hlast).
  pose proof (prev_next_ord y0 m Hm) as Hpn.
  unfold datetime.add_days, datetime.toordinal.
  cbn [datetime.year datetime.month datetime.day].
  rewrite ymd2ord_period, pred_month_period.
  replace (datetime._ymd2ord y0 m 1 + 146097 * k + -1)
    with (prev_ord y0 m + 146097 * k) by (unfold prev_ord; lia).
  generalize dependent (next_ord y0 m). generalize dependent (prev_ord y0 m).
  intros p Hs Hp Hp0 Hlast n Hn Hpn.
  assert (Hrange : (0 <? p + 146097 * k)
                   && (p + 146097 * k <=? datetime._MAXORDINAL) = true).
  { unfold datetime._MAXORDINAL. apply andb_true_intro. split.
    - apply Z.ltb_lt.
      destruct (Z.eq_dec k 0) as [->|Hk0]; [|lia].
      assert (p <> 0); [|lia].
      intros Hz. apply Hp0 in Hz. destruct Hz as [-> ->]. apply Hne. reflexivity.
    - apply Z.leb_le. lia. }
  rewrite Hrange.
  destruct (pred_month (y0, m)) as [a b] eqn:Es. cbn [fst snd].
  destruct (fromordinal_period p k a b Hs) as [d Hd']. exists d. now rewrite Hd'.
Qed.

Lemma add_month_days_last :
  datetime.add_days (datetime.mk 9999 12 1) (datetime._days_in_month 9999 12 + 1)
  = Raise OverflowError.
Proof. vm_compute. reflexivity. Qed.

Lemma sub_one_day_first :
  datetime.add_days (datetime.mk 1 1 1) (-1) = Raise OverflowError.
Proof. vm_compute. reflexivity. Qed.

(** ** Lists and the tree view *)

Lemma index_nth {A} (l : list A) (i : Z) (d : A) :
  0 <= i < len l -> index l i = Ok (nth (Z.to_nat i) l d).
Proof.
  intros H. unfold index.
  replace (i <? 0) with false by lia.
  replace ((i <? 0) || (len l <=? i)) with false by lia.
  destruct (nth_error l (Z.to_nat i)) eqn:E.
  - now rewrite (nth_error_nth _ _ d E).
  - apply nth_error_None in E. unfold len in H. lia.
Qed.

Lemma index_nth_wrapped {A} (l : list A) (i : Z) (d : A) :
  - len l <= i < 0 -> index l i = Ok (nth (Z.to_nat (i + len l)) l d).
Proof.
  intros H. unfold index.
  replace (i <? 0) with true by lia.
  replace ((i + len l <? 0) || (len l <=? i + len l)) with false by lia.
  destruct (nth_error l (Z.to_nat (i + len l))) eqn:E.
  - now rewrite (nth_error_nth _ _ d E).
  - apply nth_error_None in E. unfold len in *. lia.
Qed.

Lemma week_lookup (cal : list (list Z)) (indx : Z) :
  0 <= indx ->
  (if indx <? len cal then index cal indx else Ok [])
  = Ok (nth (Z.to_nat indx) cal []).
Proof.
  intros H. destruct (indx <? len cal) eqn:E.
  - apply index_nth. lia.
  - rewrite nth_overflow; [reflexivity|]. unfold len in E. lia.
Qed.

Lemma set_values_keys it vs tv :
  Treeview.ids (Treeview.set_values it vs tv) = Treeview.ids tv.
Proof.
  destruct tv as [cols rs]. unfold Treeview.ids, Treeview.set_values.
  cbn [Treeview.rows Treeview.columns].
  induction rs as [|[k old] rs IH]; cbn; [reflexivity|].
  destruct (Nat.eqb k it); cbn; [reflexivity|]. now rewrite IH.
Qed.

Lemma raw_values_set_same it vs tv :
  In it (Treeview.ids tv) ->
  Treeview.raw_values it (Treeview.set_values it vs tv) = vs.
Proof.
  destruct tv as [cols rs].
  unfold Treeview.ids, Treeview.raw_values, Treeview.set_values.
  cbn [Treeview.rows Treeview.columns].
  induction rs as [|[k old] rs IH]; cbn; [tauto|].
  intros [->|H].
  - rewrite Nat.eqb_refl. cbn. now rewrite Nat.eqb_refl.
  - destruct (Nat.eqb k it) eqn:E; cbn; rewrite E; [reflexivity|]. auto.
Qed.

Lemma raw_values_set_other it it' vs tv :
  it' <> it ->
  Treeview.raw_values it' (Treeview.set_values it vs tv)
  = Treeview.raw_values it' tv.
Proof.
  intros Hne. destruct tv as [cols rs].
  unfold Treeview.raw_values, Treeview.set_values.
  cbn [Treeview.rows Treeview.columns].
  induction rs as [|[k old] rs IH]; cbn; [reflexivity|].
  destruct (Nat.eqb k it) eqn:E; cbn.
  - apply Nat.eqb_eq in E. subst k.
    destruct (Nat.eqb it it') eqn:E'; [|reflexivity].
    apply Nat.eqb_eq in E'. congruence.
  - destruct (Nat.eqb k it'); [reflexivity|]. exact IH.
Qed.

(** The loop of [_build_calendar] leaves the columns of the tree as
    they are. *)
Lemma fill_items_columns cal items :
  forall indx tv tv',
    Calendar.fill_items cal indx items tv = Ok tv' ->
    Treeview.columns tv' = Treeview.columns tv.
Proof.
  induction items as [|item rest IH]; intros indx tv tv';
    cbn [Calendar.fill_items].
  - now intros [= <-].
  - destruct (if indx <? len cal then index cal indx else Ok [])
      as [week|]; cbn [bind]; [|discriminate].
    intros E. apply IH in E. exact E.
Qed.

(** The loop of [_build_calendar] never fails, keeps the items of the
    tree and stores week [indx + k] in the [k]-th item. *)
Lemma fill_items_spec cal items :
  forall indx tv,
    0 <= indx -> NoDup items -> incl items (Treeview.ids tv) ->
    exists tv',
      Calendar.fill_items cal indx items tv = Ok tv'
      /\ Treeview.ids tv' = Treeview.ids tv
      /\ map (fun it => Treeview.raw_values it tv') items
         = map (fun k => Calendar.fmt_week (nth (Z.to_nat indx + k) cal []))
               (seq 0 (List.length items))
      /\ (forall it, ~ In it items ->
                     Treeview.raw_values it tv' = Treeview.raw_values it tv).
Proof.
  induction items as [|item rest IH]; intros indx tv Hi Hnd Hin.
  - exists tv. cbn. auto.
  - cbn [Calendar.fill_items]. rewrite week_lookup by trivial. cbn [bind].
    inversion Hnd as [|? ? Hnotin Hnd']; subst.
    destruct (IH (indx + 1)
                 (Treeview.set_values item
                    (Calendar.fmt_week (nth (Z.to_nat indx) cal [])) tv))
      as (tv' & E & Hk & Hrows & Hother).
    + lia.
    + exact Hnd'.
    + rewrite set_values_keys. intros x Hx. apply Hin. now right.
    + exists tv'. split; [exact E|]. split; [now rewrite Hk, set_values_keys|].
      split.
      * cbn [map List.length seq]. f_equal.
        -- rewrite Hother by exact Hnotin.
           rewrite raw_values_set_same by (apply Hin; now left).
           now rewrite Nat.add_0_r.
        -- rewrite Hrows. rewrite <- seq_shift, map_map.
           apply map_ext. intros k. do 2 f_equal. lia.
      * intros it Hit. rewrite Hother by (intros ?; apply Hit; now right).
        apply raw_values_set_other. intros ->. apply Hit. now left.
Qed.

(** ** The month calendar and [_build_calendar] *)

Lemma itermonthdays_ok fw y m :
  1 <= y <= 9999 -> 1 <= m <= 12 ->
  calendar.itermonthdays fw y m
  = Ok (let day1 := datetime.weekday (datetime.mk y m 1) in
        let ndays := datetime._days_in_month y m in
        repeat 0 (Z.to_nat ((day1 - fw) mod 7))
        ++ range 1 (ndays + 1)
        ++ repeat 0 (Z.to_nat ((fw - day1 - ndays) mod 7))).
Proof.
  intros Hy Hm. unfold calendar.itermonthdays.
  now rewrite monthrange_ok.
Qed.

Lemma monthdayscalendar_ok fw y m :
  1 <= y <= 9999 -> 1 <= m <= 12 ->
  exists cal, calendar.monthdayscalendar fw y m = Ok cal.
Proof.
  intros Hy Hm. unfold calendar.monthdayscalendar.
  rewrite itermonthdays_ok by trivial. cbn [bind]. eauto.
Qed.

(** [_build_calendar] succeeds on a valid month and only rewrites the
    week rows. *)
Lemma build_calendar_spec c :
  1 <= datetime.year (Calendar._date c) <= 9999 ->
  1 <= datetime.month (Calendar._date c) <= 12 ->
  NoDup (Calendar._items c) ->
  incl (Calendar._items c) (Treeview.ids (Calendar._calendar c)) ->
  exists cal tv,
    calendar.monthdayscalendar (Calendar._cal c)
      (datetime.year (Calendar._date c)) (datetime.month (Calendar._date c))
    = Ok cal
    /\ Calendar._build_calendar c = Ok (Calendar.with_calendar tv c)
    /\ Treeview.ids tv = Treeview.ids (Calendar._calendar c)
    /\ Calendar.raw_rows (Calendar.with_calendar tv c)
       = map (fun k => Calendar.fmt_week (nth k cal []))
             (seq 0 (List.length (Calendar._items c)))
    /\ Treeview.columns tv = Treeview.columns (Calendar._calendar c).
Proof.
  intros Hy Hm Hnd Hin.
  destruct (monthdayscalendar_ok (Calendar._cal c) _ _ Hy Hm) as [cal Hcal].
  destruct (fill_items_spec cal (Calendar._items c) 0 (Calendar._calendar c))
    as (tv & E & Hk & Hrows & _); [lia|exact Hnd|exact Hin|].
  exists cal, tv. split; [exact Hcal|].
  unfold Calendar._build_calendar. rewrite Hcal. cbn [bind]. rewrite E. cbn [bind].
  split; [reflexivity|]. split; [exact Hk|]. split.
  - unfold Calendar.raw_rows. cbn. exact Hrows.
  - exact (fill_items_columns _ _ _ _ _ E).
Qed.

(** [_build_calendar] changes the tree only, and there neither the
    columns nor the items. *)
Lemma build_calendar_frame c c' :
  Calendar._build_calendar c = Ok c' ->
  exists tv,
    c' = Calendar.with_calendar tv c
    /\ Treeview.columns tv = Treeview.columns (Calendar._calendar c).
Proof.
  unfold Calendar._build_calendar.
  destruct (calendar.monthdayscalendar _ _ _); cbn [bind]; [|discriminate].
  destruct (Calendar.fill_items _ _ _ _) as [tv|] eqn:E; cbn [bind];
    [|discriminate].
  intros [= <-]. exists tv. split; [reflexivity|].
  exact (fill_items_columns _ _ _ _ _ E).
Qed.

Lemma build_calendar_inv c :
  datetime.day (Calendar._date c) = 1 ->
  1 <= datetime.year (Calendar._date c) <= 9999 ->
  1 <= datetime.month (Calendar._date c) <= 12 ->
  List.length (Calendar._items c) = 6%nat ->
  NoDup (Calendar._items c) ->
  incl (Calendar._items c) (Treeview.ids (Calendar._calendar c)) ->
  exists c',
    Calendar._build_calendar c = Ok c'
    /\ calendar_inv c'
    /\ Calendar._date c' = Calendar._date c
    /\ Calendar._selection c' = Calendar._selection c
    /\ Calendar._items c' = Calendar._items c
    /\ Calendar._cal c' = Calendar._cal c
    /\ Calendar.canvas_placed c' = Calendar.canvas_placed c.
Proof.
  intros Hd Hy Hm Hlen Hnd Hin.
  destruct (build_calendar_spec c Hy Hm Hnd Hin)
    as (cal & tv & Hcal & E & Hk & Hrows & Hc).
  exists (Calendar.with_calendar tv c). split; [exact E|].
  split; [|cbn; auto].
  constructor; try (cbn; assumption).
  - cbn. now rewrite Hk.
  - exists cal. split; [exact Hcal|]. now rewrite Hrows, Hlen.
Qed.

Lemma new_inv y m d t :
  datetime.new y m d = Ok t ->
  t = datetime.mk y m d /\ 1 <= y <= 9999 /\ 1 <= m <= 12
  /\ 1 <= d <= datetime._days_in_month y m.
Proof.
  unfold datetime.new, datetime.MINYEAR, datetime.MAXYEAR.
  destruct (fits_int y && fits_int m && fits_int d); cbn [negb];
    [|discriminate].
  destruct ((1 <=? y) && (y <=? 9999)) eqn:Ey; cbn [negb]; [|discriminate].
  destruct ((1 <=? m) && (m <=? 12)) eqn:Em; cbn [negb]; [|discriminate].
  destruct ((1 <=? d) && (d <=? datetime._days_in_month y m)) eqn:Ed;
    cbn [negb]; [|discriminate].
  intros [= <-]. repeat split; lia.
Qed.

(** ** Texts *)

Lemma append_nil_r (s : string) : String.append s EmptyString = s.
Proof. induction s as [|ch s IH]; cbn; [reflexivity|now rewrite IH]. Qed.

Lemma append_assoc (s1 s2 s3 : string) :
  String.append (String.append s1 s2) s3
  = String.append s1 (String.append s2 s3).
Proof. induction s1 as [|ch s1 IH]; cbn; [reflexivity|now rewrite IH]. Qed.

Lemma is_word_nonempty w : is_word w = true -> w <> EmptyString.
Proof. now destruct w. Qed.

(** Reading on through characters that are not white space. *)
Lemma split_from_word (u : string) :
  forall word s,
    forallb (fun ch => negb (str_isspace ch)) (list_ascii_of_string u) = true ->
    split_from word (String.append u s)
    = split_from (String.append word u) s.
Proof.
  induction u as [|ch u IH]; intros word s Hu; cbn [String.append].
  - now rewrite append_nil_r.
  - cbn [list_ascii_of_string forallb] in Hu.
    apply andb_true_iff in Hu. destruct Hu as [Hch Hu].
    cbn [split_from]. apply negb_true_iff in Hch. rewrite Hch.
    rewrite IH by exact Hu. now rewrite append_assoc.
Qed.

(** Blanks before a word are skipped. *)
Lemma split_from_blanks n s :
  split_from EmptyString (String.append (blanks n) s)
  = split_from EmptyString s.
Proof.
  unfold blanks. induction (Z.to_nat n) as [|k IH]; [reflexivity|].
  cbn. exact IH.
Qed.

(** A blank ends the word that has begun. *)
Lemma split_from_end word n s :
  word <> EmptyString ->
  split_from word (String.append (blanks n) (String " "%char s))
  = word :: split_from EmptyString s.
Proof.
  intros Hw. unfold blanks. destruct (Z.to_nat n) as [|k].
  - cbn. now destruct word.
  - cbn [repeat string_of_list_ascii String.append split_from].
    change (str_isspace " ") with true. cbv iota.
    destruct word as [|c w]; [contradiction|]. f_equal.
    change (String " "%char s) with (String.append (blanks 1) s).
    replace (repeat " "%char k) with (repeat " "%char (Z.to_nat (Z.of_nat k)))
      by now rewrite Nat2Z.id.
    fold (blanks (Z.of_nat k)). now rewrite !split_from_blanks.
Qed.

Lemma split_from_last word n :
  word <> EmptyString ->
  split_from word (blanks n) = [word].
Proof.
  intros Hw. unfold blanks. destruct (Z.to_nat n) as [|k].
  - cbn. now destruct word.
  - cbn [repeat string_of_list_ascii split_from].
    change (str_isspace " ") with true. cbv iota.
    destruct word as [|c w]; [contradiction|]. f_equal.
    replace (repeat " "%char k) with (repeat " "%char (Z.to_nat (Z.of_nat k)))
      by now rewrite Nat2Z.id.
    fold (blanks (Z.of_nat k)).
    rewrite <- (append_nil_r (blanks (Z.of_nat k))).
    now rewrite split_from_blanks.
Qed.

(** A centered text is the text between blanks. *)
Lemma str_center_blanks s width :
  exists l r, str_center s width
              = String.append (blanks l) (String.append s (blanks r)).
Proof.
  unfold str_center. cbv zeta. destruct (_ <=? 0).
  - exists 0, 0. cbn. now rewrite append_nil_r.
  - eauto.
Qed.

(** The words of centered words joined by blanks are these words. *)
Lemma split_join_centered width (ws : list string) :
  Forall (fun w => is_word w = true) ws ->
  str_split (str_join " " (map (fun w => str_center w width) ws)) = ws.
Proof.
  unfold str_split. induction 1 as [|w ws Hw Hws IH]; [reflexivity|].
  cbn [map str_join].
  destruct (str_center_blanks w width) as (l & r & ->).
  pose proof (is_word_nonempty w Hw) as Hne.
  apply andb_true_iff in Hw. destruct Hw as [_ Hw].
  destruct ws as [|w' ws].
  - cbn [map]. rewrite split_from_blanks, split_from_word by exact Hw.
    cbn [String.append]. now apply split_from_last.
  - cbn [map] in *. rewrite !append_assoc.
    rewrite split_from_blanks, split_from_word by exact Hw.
    cbn [String.append]. rewrite split_from_end by exact Hne.
    now rewrite IH.
Qed.

(** ** The week header *)

Lemma weekheader_length names fw : List.length (weekheader names fw) = 7%nat.
Proof.
  unfold weekheader, Calendar.iterweekdays, range.
  rewrite !length_map, length_seq. lia.
Qed.

(** When the first three characters of each of the seven names are a
    word, the words of the week header are these. *)
Lemma weekheader_words names fw :
  List.length names = 7%nat ->
  Forall (fun name => is_word (str_take name 3) = true) names ->
  str_split (Calendar.weekheader_text names fw 3) = weekheader names fw.
Proof.
  intros Hlen Hnames. unfold Calendar.weekheader_text, weekheader.
  unfold Calendar.weekday_text.
  rewrite <- (map_map (fun i => str_take (nth (Z.to_nat i) names EmptyString) 3)
                      (fun w => str_center w 3)).
  apply split_join_centered.
  apply Forall_forall. intros w Hw. apply in_map_iff in Hw.
  destruct Hw as (i & <- & Hi).
  unfold Calendar.iterweekdays in Hi. apply in_map_iff in Hi.
  destruct Hi as (k & <- & _).
  pose proof (Z.mod_pos_bound k 7 ltac:(lia)) as Hk.
  rewrite Forall_forall in Hnames. apply Hnames. apply nth_In. lia.
Qed.

(** Without a locale the header holds the English names. *)
Lemma weekheader_c_locale :
  str_split (Calendar.weekheader_text Calendar.weekday_names calendar.SUNDAY 3)
  = ["Sun"; "Mon"; "Tue"; "Wed"; "Thu"; "Fri"; "Sat"]%string.
Proof. reflexivity. Qed.

(** ** Construction *)

Lemma day_abbr_cases loc fw :
  (loc = Some locale.Unsupported
   /\ Calendar.day_abbr (Calendar._get_calendar loc fw) = Raise LocaleError)
  \/ (loc <> Some locale.Unsupported
      /\ exists names,
          Calendar.day_abbr (Calendar._get_calendar loc fw) = Ok names
          /\ List.length names = 7%nat).
Proof.
  destruct loc as [[|mon tue wed thu fri sat sun]|]; cbn.
  - left. auto.
  - right. split; [discriminate|]. eauto.
  - right. split; [discriminate|]. eauto.
Qed.

(** The constructor, step by step. *)
Lemma init_unfold cb loc y m :
  Calendar.__init__ cb loc y m
  = (date <- datetime.new y m 1 ;;
     names <- Calendar.day_abbr (Calendar._get_calendar loc calendar.SUNDAY) ;;
     let cols := str_split (Calendar.weekheader_text names calendar.SUNDAY 3) in
     if negb (truthy cols) then Raise ValueError
     else Calendar._build_calendar (init_state cb date cols)).
Proof.
  unfold Calendar.__init__, Calendar.__config_calendar,
    Calendar.formatweekheader.
  destruct (datetime.new y m 1) as [date|]; cbn [bind]; [|reflexivity].
  replace (Calendar.firstweekday (Calendar._get_calendar loc calendar.SUNDAY))
    with calendar.SUNDAY by now destruct loc.
  destruct (Calendar.day_abbr _) as [names|]; cbn [bind]; [|reflexivity].
  cbv zeta.
  destruct (str_split _) as [|col cols]; reflexivity.
Qed.

Lemma init_state_shape cb date cols :
  let c0 := init_state cb date cols in
  List.length (Calendar._items c0) = 6%nat
  /\ NoDup (Calendar._items c0)
  /\ incl (Calendar._items c0) (Treeview.ids (Calendar._calendar c0)).
Proof.
  cbn. split; [reflexivity|]. split.
  - exact (seq_NoDup 6 1).
  - intros x Hx. cbn in *. tauto.
Qed.

Lemma init_spec cb loc y m c :
  Calendar.__init__ cb loc y m = Ok c ->
  calendar_inv c
  /\ Calendar._date c = datetime.mk y m 1
  /\ Calendar._selection c = None
  /\ Calendar._cal c = calendar.SUNDAY
  /\ Calendar._items c = [1; 2; 3; 4; 5; 6]%nat.
Proof.
  rewrite init_unfold.
  destruct (datetime.new y m 1) as [date|e] eqn:En; cbn [bind]; [|discriminate].
  apply new_inv in En. destruct En as (-> & Hy & Hm & _).
  destruct (Calendar.day_abbr _) as [names|]; cbn [bind]; [|discriminate].
  cbv zeta. destruct (negb _); [discriminate|].
  intros E.
  match type of E with
  | Calendar._build_calendar (init_state ?cb ?date ?cols) = _ =>
      destruct (init_state_shape cb date cols) as (Hlen & Hnd & Hin)
  end.
  match type of E with
  | Calendar._build_calendar ?c0 = _ =>
      destruct (build_calendar_inv c0 eq_refl Hy Hm Hlen Hnd Hin)
        as (c' & E' & Hinv & Hdate & Hsel & Hit & Hcal & _)
  end.
  rewrite E' in E. injection E as <-. auto.
Qed.

(** ** Month navigation *)

Lemma succ_month_valid y m :
  1 <= y <= 9999 -> 1 <= m <= 12 -> (y, m) <> (9999, 12) ->
  1 <= fst (succ_month (y, m)) <= 9999 /\ 1 <= snd (succ_month (y, m)) <= 12.
Proof.
  intros Hy Hm Hne. unfold succ_month.
  destruct (m =? 12) eqn:E; cbn [fst snd]; [|lia].
  assert (y <> 9999) by (intros ->; apply Hne; f_equal; lia). lia.
Qed.

Lemma pred_month_valid y m :
  1 <= y <= 9999 -> 1 <= m <= 12 -> (y, m) <> (1, 1) ->
  1 <= fst (pred_month (y, m)) <= 9999 /\ 1 <= snd (pred_month (y, m)) <= 12.
Proof.
  intros Hy Hm Hne. unfold pred_month.
  destruct (m =? 1) eqn:E; cbn [fst snd]; [|lia].
  assert (y <> 1) by (intros ->; apply Hne; f_equal; lia). lia.
Qed.

Lemma inv_date c :
  calendar_inv c ->
  Calendar._date c
  = datetime.mk (fst (Calendar.shown_month c)) (snd (Calendar.shown_month c)) 1.
Proof.
  intros [Hd _ _ _ _ _ _]. unfold Calendar.shown_month. cbn [fst snd].
  destruct (Calendar._date c) as [y m d]. cbn in *. now subst.
Qed.

(** What the right arrow does to a calendar that does not show the last
    month. *)
Lemma next_month_spec c :
  calendar_inv c -> Calendar.shown_month c <> (9999, 12) ->
  exists c',
    Calendar._next_month c = Ok c'
    /\ calendar_inv c'
    /\ Calendar.shown_month c' = succ_month (Calendar.shown_month c)
    /\ Calendar._selection c' = Calendar._selection c
    /\ Calendar.canvas_placed c' = false.
Proof.
  intros Hinv Hne. pose proof (inv_date c Hinv) as Hdate.
  destruct Hinv as [Hd Hy Hm Hlen Hnd Hin _].
  unfold Calendar.shown_month in *. cbn [fst snd] in Hdate.
  set (y := datetime.year (Calendar._date c)) in *.
  set (m := datetime.month (Calendar._date c)) in *.
  destruct (add_month_days y m Hy Hm Hne) as [d Hadd].
  destruct (succ_month_valid y m Hy Hm Hne) as [Hsy Hsm].
  unfold Calendar._next_month.
  cbn [Calendar.place_forget Calendar._date Calendar.with_date].
  fold y. fold m. rewrite monthrange_ok by trivial. cbn [bind snd].
  rewrite Hdate, Hadd. cbn [bind datetime.year datetime.month].
  rewrite new_first by trivial. cbn [bind].
  match goal with
  | |- exists c', Calendar._build_calendar ?c0 = _ /\ _ =>
      destruct (build_calendar_inv c0 eq_refl Hsy Hsm Hlen Hnd Hin)
        as (c' & E' & Hinv' & Hdate' & Hsel' & _ & _ & Hcanvas)
  end.
  exists c'. split; [exact E'|]. split; [exact Hinv'|].
  rewrite Hdate'. cbn. rewrite Hsel', Hcanvas. cbn.
  split; [|auto]. now destruct (m =? 12).
Qed.

Lemma prev_month_spec c :
  calendar_inv c -> Calendar.shown_month c <> (1, 1) ->
  exists c',
    Calendar._prev_month c = Ok c'
    /\ calendar_inv c'
    /\ Calendar.shown_month c' = pred_month (Calendar.shown_month c)
    /\ Calendar._selection c' = Calendar._selection c
    /\ Calendar.canvas_placed c' = false.
Proof.
  intros Hinv Hne. pose proof (inv_date c Hinv) as Hdate.
  destruct Hinv as [Hd Hy Hm Hlen Hnd Hin _].
  unfold Calendar.shown_month in *. cbn [fst snd] in Hdate.
  set (y := datetime.year (Calendar._date c)) in *.
  set (m := datetime.month (Calendar._date c)) in *.
  destruct (sub_one_day y m Hy Hm Hne) as [d Hsub].
  destruct (pred_month_valid y m Hy Hm Hne) as [Hsy Hsm].
  unfold Calendar._prev_month.
  cbn [Calendar.place_forget Calendar._date Calendar.with_date].
  rewrite Hdate, Hsub. cbn [bind datetime.year datetime.month].
  rewrite new_first by trivial. cbn [bind].
  match goal with
  | |- exists c', Calendar._build_calendar ?c0 = _ /\ _ =>
      destruct (build_calendar_inv c0 eq_refl Hsy Hsm Hlen Hnd Hin)
        as (c' & E' & Hinv' & Hdate' & Hsel' & _ & _ & Hcanvas)
  end.
  exists c'. split; [exact E'|]. split; [exact Hinv'|].
  rewrite Hdate'. cbn. rewrite Hsel', Hcanvas. cbn.
  split; [|auto]. now destruct (m =? 1).
Qed.

Lemma next_month_last c :
  calendar_inv c -> Calendar.shown_month c = (9999, 12) ->
  Calendar._next_month c = Raise OverflowError.
Proof.
  intros Hinv E. pose proof (inv_date c Hinv) as Hdate.
  rewrite E in Hdate. cbn [fst snd] in Hdate.
  unfold Calendar._next_month.
  cbn [Calendar.place_forget Calendar._date Calendar.with_date].
  rewrite Hdate. cbn [datetime.year datetime.month].
  rewrite monthrange_ok by lia. cbn [bind snd].
  now rewrite add_month_days_last.
Qed.

Lemma prev_month_first c :
  calendar_inv c -> Calendar.shown_month c = (1, 1) ->
  Calendar._prev_month c = Raise OverflowError.
Proof.
  intros Hinv E. pose proof (inv_date c Hinv) as Hdate.
  rewrite E in Hdate. cbn [fst snd] in Hdate.
  unfold Calendar._prev_month.
  cbn [Calendar.place_forget Calendar._date Calendar.with_date].
  rewrite Hdate. now rewrite sub_one_day_first.
Qed.

Lemma pred_succ_month ym : 1 <= snd ym -> pred_month (succ_month ym) = ym.
Proof.
  destruct ym as [y m]. cbn [snd]. intros Hm. unfold succ_month, pred_month.
  destruct (m =? 12) eqn:E.
  - cbn. f_equal; lia.
  - destruct (m + 1 =? 1) eqn:E'; f_equal; lia.
Qed.

Lemma succ_month_not_first y m : 1 <= y -> 1 <= m -> succ_month (y, m) <> (1, 1).
Proof.
  intros Hy Hm. unfold succ_month. destruct (m =? 12); intros [=]; lia.
Qed.

(** ** Button presses *)

(** For a column with one digit, the character after the ['#'] is the
    whole number. *)
Lemma column_digit_small column :
  1 <= column <= 9 -> Calendar.column_digit column = Ok column.
Proof.
  intros H.
  assert (E : column = 1 \/ column = 2 \/ column = 3 \/ column = 4
              \/ column = 5 \/ column = 6 \/ column = 7 \/ column = 8
              \/ column = 9) by lia.
  repeat (destruct E as [->|E]); try subst column; reflexivity.
Qed.

(** A press changes neither the month shown nor the tree. *)
Lemma pressed_frame evt c c' :
  Calendar._pressed evt c = Ok c' ->
  Calendar._date c' = Calendar._date c
  /\ Calendar._calendar c' = Calendar._calendar c
  /\ Calendar._items c' = Calendar._items c
  /\ Calendar._cal c' = Calendar._cal c.
Proof.
  unfold Calendar._pressed.
  destruct (Calendar.hit_column evt) as [column|]; [|intros [= <-]; auto].
  destruct (Calendar.hit_row evt) as [item|]; [|intros [= <-]; auto].
  destruct (negb (existsb (Nat.eqb item) (Calendar._items c)));
    [intros [= <-]; auto|].
  destruct (len (Treeview.values item (Calendar._calendar c)) =? 0);
    [intros [= <-]; auto|].
  destruct (Calendar.column_digit column) as [digit|e]; cbn [bind];
    [|discriminate].
  destruct (index _ _) as [text|e]; cbn [bind]; [|discriminate].
  destruct (negb (Treeview.truthy_value text)); [intros [= <-]; auto|].
  destruct (negb (Calendar.hit_bbox evt)); [intros [= <-]; auto|].
  destruct (Treeview.fmt02d_value text) as [s|e]; cbn [bind]; [|discriminate].
  cbn. destruct (Calendar.callback c); intros [= <-]; cbn; auto.
Qed.

Lemma inv_frame c c' :
  calendar_inv c ->
  Calendar._date c' = Calendar._date c ->
  Calendar._calendar c' = Calendar._calendar c ->
  Calendar._items c' = Calendar._items c ->
  Calendar._cal c' = Calendar._cal c ->
  calendar_inv c'.
Proof.
  intros [Hd Hy Hm Hlen Hnd Hin Hrows] Ed Et Ei Ec.
  constructor; unfold Calendar.raw_rows; rewrite ?Ed, ?Et, ?Ei, ?Ec; auto.
Qed.

(** Every reachable calendar satisfies the invariant. *)
Lemma reachable_inv c : reachable c -> calendar_inv c.
Proof.
  induction 1 as [cb loc y m c E|evt c c' _ IH _ E|c c' _ IH E|c c' _ IH E
                 |c _ IH].
  - now apply init_spec in E.
  - apply pressed_frame in E. destruct E as (Ed & Et & Ei & Ec).
    now apply (inv_frame c).
  - destruct (Z.eq_dec (fst (Calendar.shown_month c)) 9999) as [Hy|Hy];
      [destruct (Z.eq_dec (snd (Calendar.shown_month c)) 12) as [Hm|Hm]|].
    + rewrite next_month_last in E; [discriminate|exact IH|].
      destruct (Calendar.shown_month c); cbn in *; congruence.
    + destruct (next_month_spec c IH) as (c1 & E1 & Hinv & _).
      * intros H. rewrite H in Hm. now apply Hm.
      * congruence.
    + destruct (next_month_spec c IH) as (c1 & E1 & Hinv & _).
      * intros H. rewrite H in Hy. now apply Hy.
      * congruence.
  - destruct (Z.eq_dec (fst (Calendar.shown_month c)) 1) as [Hy|Hy];
      [destruct (Z.eq_dec (snd (Calendar.shown_month c)) 1) as [Hm|Hm]|].
    + rewrite prev_month_first in E; [discriminate|exact IH|].
      destruct (Calendar.shown_month c); cbn in *; congruence.
    + destruct (prev_month_spec c IH) as (c1 & E1 & Hinv & _).
      * intros H. rewrite H in Hm. now apply Hm.
      * congruence.
    + destruct (prev_month_spec c IH) as (c1 & E1 & Hinv & _).
      * intros H. rewrite H in Hy. now apply Hy.
      * congruence.
  - now apply (inv_frame c).
Qed.

Lemma inv_row_values c cal k item :
  calendar_inv c ->
  calendar.monthdayscalendar (Calendar._cal c)
    (datetime.year (Calendar._date c)) (datetime.month (Calendar._date c))
  = Ok cal ->
  nth_error (Calendar._items c) k = Some item ->
  Treeview.raw_values item (Calendar._calendar c)
  = Calendar.fmt_week (nth k cal []).
Proof.
  intros [_ _ _ Hlen _ _ (cal' & Hcal & Hrows)] E Hk.
  rewrite E in Hcal. injection Hcal as <-.
  assert (Hlt : (k < 6)%nat).
  { rewrite <- Hlen. apply nth_error_Some. congruence. }
  assert (H : nth_error (Calendar.raw_rows c) k
              = Some (Treeview.raw_values item (Calendar._calendar c))).
  { unfold Calendar.raw_rows. now rewrite nth_error_map, Hk. }
  rewrite Hrows, nth_error_map, nth_error_seq in H.
  apply Nat.ltb_lt in Hlt. rewrite Hlt in H. cbn in H. congruence.
Qed.

Lemma existsb_in item items :
  In item items -> existsb (Nat.eqb item) items = true.
Proof.
  intros H. apply existsb_exists. exists item. split; [exact H|].
  apply Nat.eqb_refl.
Qed.

Lemma existsb_notin item items :
  ~ In item items -> existsb (Nat.eqb item) items = false.
Proof.
  intros H. destruct (existsb (Nat.eqb item) items) eqn:E; [|reflexivity].
  apply existsb_exists in E. destruct E as (x & Hx & Ex).
  apply Nat.eqb_eq in Ex. subst x. contradiction.
Qed.

Lemma pressed_void_inv c cal evt :
  calendar_inv c ->
  calendar.monthdayscalendar (Calendar._cal c)
    (datetime.year (Calendar._date c)) (datetime.month (Calendar._date c))
  = Ok cal ->
  void_click c cal evt ->
  Calendar._pressed evt c = Ok c.
Proof.
  intros Hinv Hcal Hvoid. unfold Calendar._pressed.
  destruct Hvoid as [row bbox|column bbox|item column bbox Hnot
                    |k item column bbox Hk Hbeyond
                    |k item column bbox Hk Hcol Hcell];
    cbn [Calendar.hit_column Calendar.hit_row Calendar.hit_bbox].
  - reflexivity.
  - now destruct column.
  - destruct column; [|reflexivity]. now rewrite existsb_notin.
  - rewrite existsb_in by (eapply nth_error_In; eassumption). cbn [negb].
    unfold Treeview.values.
    rewrite (inv_row_values c cal k item Hinv Hcal Hk).
    now rewrite nth_overflow.
  - rewrite existsb_in by (eapply nth_error_In; eassumption). cbn [negb].
    unfold Treeview.values.
    rewrite (inv_row_values c cal k item Hinv Hcal Hk).
    unfold cell_day in Hcell.
    destruct (nth_error cal k) as [week|] eqn:Ew; [|discriminate].
    rewrite (nth_error_nth _ _ [] Ew).
    assert (Hlen : (Z.to_nat (column - 1) < List.length week)%nat).
    { apply nth_error_Some. congruence. }
    set (vals := map Treeview._convert_stringval (Calendar.fmt_week week)).
    assert (Hvals : len vals = len week).
    { unfold vals, Calendar.fmt_week, len. now rewrite !length_map. }
    replace (len vals =? 0) with false by (unfold len in *; lia).
    rewrite column_digit_small by lia. cbn [bind].
    rewrite (index_nth vals (column - 1) (Treeview.VStr EmptyString))
      by (unfold len in *; lia).
    cbn [bind].
    replace (nth (Z.to_nat (column - 1)) vals (Treeview.VStr EmptyString))
      with (Treeview.VStr EmptyString); [reflexivity|].
    symmetry. apply nth_error_nth. unfold vals, Calendar.fmt_week.
    rewrite !nth_error_map, Hcell. reflexivity.
Qed.

(** ** The shape of a month grid *)

Lemma monthdayscalendar_shape fw y m :
  1 <= y <= 9999 -> 1 <= m <= 12 ->
  calendar.monthdayscalendar fw y m
  = Ok (weeks_of
          (month_days ((datetime.weekday (datetime.mk y m 1) - fw) mod 7)
                      (datetime._days_in_month y m))).
Proof.
  intros Hy Hm. unfold calendar.monthdayscalendar.
  rewrite itermonthdays_ok by trivial. cbn [bind]. cbv zeta.
  unfold weeks_of, month_days.
  set (day1 := datetime.weekday (datetime.mk y m 1)).
  set (n := datetime._days_in_month y m).
  assert (E : (fw - day1 - n) mod 7 = (- ((day1 - fw) mod 7) - n) mod 7)
    by euclid.
  now rewrite E.
Qed.

Ltac each_shape b n :=
  let Hb := fresh in let Hn := fresh in
  assert (Hb : b = 0 \/ b = 1 \/ b = 2 \/ b = 3 \/ b = 4 \/ b = 5 \/ b = 6)
    by lia;
  assert (Hn : n = 28 \/ n = 29 \/ n = 30 \/ n = 31) by lia;
  repeat (destruct Hb as [->|Hb]); try subst b;
  repeat (destruct Hn as [->|Hn]); try subst n.

Lemma shape_facts b n :
  0 <= b < 7 -> 28 <= n <= 31 ->
  let cal := weeks_of (month_days b n) in
  let g := grid_of cal in
  (exists w, (4 <= w <= 6)%nat /\ List.length cal = w
             /\ map (@List.length string) g = repeat 7%nat w ++ repeat 0%nat (6 - w))
  /\ Z.of_nat (List.length (day_cells g)) = n
  /\ day_values g = map Ok (range 1 (n + 1))
  /\ (b <> 0 -> cell_day cal 0 0 = Some 0).
Proof.
  intros Hb Hn. each_shape b n;
    (split; [eexists; split; [|split; [vm_compute; reflexivity|vm_compute; reflexivity]]; lia|]);
    (split; [vm_compute; reflexivity|]);
    (split; [vm_compute; reflexivity|]);
    intros Hne; try (exfalso; apply Hne; reflexivity); vm_compute; reflexivity.
Qed.



Lemma days_in_month_gregorian y m :
  1 <= m <= 12 -> datetime._days_in_month y m = month_length y m.
Proof.
  intros Hm. unfold datetime._days_in_month, month_length, leap_year,
    datetime._is_leap.
  assert (C : m = 1 \/ m = 2 \/ m = 3 \/ m = 4 \/ m = 5 \/ m = 6 \/ m = 7
              \/ m = 8 \/ m = 9 \/ m = 10 \/ m = 11 \/ m = 12) by lia.
  repeat (destruct C as [->|C]); try subst m; try reflexivity.
  cbn [Z.eqb Pos.eqb andb].
  destruct (y mod 4 =? 0) eqn:E4, (y mod 100 =? 0) eqn:E100,
    (y mod 400 =? 0) eqn:E400; cbn; try reflexivity; exfalso; euclid.
Qed.

(** The values of the week rows of any calendar that satisfies the
    invariant: the weeks of the month have seven values each, the rows
    below them none. *)
Lemma inv_raw_grid c :
  calendar_inv c ->
  let y := datetime.year (Calendar._date c) in
  let m := datetime.month (Calendar._date c) in
  let g := Calendar.raw_rows c in
  List.length g = 6%nat
  /\ (exists w, (4 <= w <= 6)%nat
                /\ map (@List.length string) g
                   = repeat 7%nat w ++ repeat 0%nat (6 - w))
  /\ Z.of_nat (List.length (day_cells g)) = month_length y m
  /\ day_values g = map Ok (range 1 (month_length y m + 1)).
Proof.
  intros [_ Hy Hm _ _ _ (cal & Hcal & Hrows)] y m g.
  fold y in Hy, Hcal. fold m in Hm, Hcal.
  rewrite monthdayscalendar_shape in Hcal by trivial.
  injection Hcal as <-.
  pose proof (days_in_month_bounds y m Hm) as Hn.
  set (b := (datetime.weekday (datetime.mk y m 1) - Calendar._cal c) mod 7) in *.
  assert (Hb : 0 <= b < 7) by (apply Z.mod_pos_bound; lia).
  destruct (shape_facts b _ Hb Hn) as ((w & Hw & _ & Hlens) & Hcount & Hvals & _).
  fold (grid_of (weeks_of (month_days b (datetime._days_in_month y m)))) in Hrows.
  subst g. rewrite Hrows.
  rewrite <- (days_in_month_gregorian y m Hm).
  split; [reflexivity|]. split; [exists w; auto|]. auto.
Qed.

(** ** The cells of a tree row *)

(** A row of at most [n] values is shown in [n] columns as its values
    followed by empty cells. *)
Lemma cells_padded (r : list string) :
  forall n, (List.length r <= n)%nat ->
            map (fun k => nth k r EmptyString) (seq 0 n)
            = r ++ repeat EmptyString (n - List.length r).
Proof.
  induction r as [|x r IH]; intros n Hn.
  - cbn [app List.length]. rewrite Nat.sub_0_r. clear Hn.
    generalize 0%nat as s.
    induction n as [|n IHn]; intros s; cbn [seq map repeat]; [reflexivity|].
    rewrite IHn. now destruct s.
  - destruct n as [|n]; [cbn in Hn; lia|].
    cbn [seq map nth List.length app Nat.sub]. f_equal.
    rewrite <- seq_shift, map_map. cbn [nth]. apply IH. cbn in Hn. lia.
Qed.

Lemma week_rows_cells c :
  Calendar.week_rows c
  = map (fun r => map (fun k => nth k r EmptyString)
                      (seq 0 (List.length
                                (Treeview.columns (Calendar._calendar c)))))
        (Calendar.raw_rows c).
Proof.
  unfold Calendar.week_rows, Calendar.raw_rows, Treeview.cells.
  now rewrite map_map.
Qed.





(** ** The entry grid and the reader *)

Lemma clear_loop_spec n :
  forall g, List.length (Grid.rows g) = n ->
            Grid.clear_loop n g
            = Ok (Grid.mk (Grid.headers g) [] (Grid.num_of_columns g)).
Proof.
  induction n as [|n IH]; intros [hs rs nc] Hlen; cbn in Hlen.
  - destruct rs; [reflexivity|discriminate].
  - destruct rs as [|r rs]; [discriminate|].
    cbn [Grid.clear_loop]. unfold Grid.remove_row, Grid.pop.
    cbn [Grid.rows Grid.headers Grid.num_of_columns].
    change (fits_ssize_t 0) with true. cbn [negb].
    replace (len (r :: rs) =? 0) with false by (unfold len; cbn; lia).
    replace (0 <? 0) with false by reflexivity.
    replace ((0 <? 0) || (len (r :: rs) <=? 0)) with false
      by (unfold len; cbn; lia).
    cbn [bind Z.to_nat firstn skipn app].
    rewrite IH by (cbn in *; lia). reflexivity.
Qed.

Lemma clear_spec g :
  Grid.clear g = Ok (Grid.mk (Grid.headers g) [] (Grid.num_of_columns g)).
Proof. unfold Grid.clear. now apply clear_loop_spec. Qed.

Lemma index_last {A} (x : A) (l : list A) :
  exists a, index (x :: l) (-1) = Ok a.
Proof.
  rewrite (index_nth_wrapped (x :: l) (-1) x); [eauto|].
  unfold len. cbn [List.length]. lia.
Qed.

Lemma shown_row_cells nc data :
  0 < nc -> exists x l, shown_row nc data = x :: l.
Proof.
  intros Hnc. destruct data as [|e es]; cbn; [|eauto].
  unfold range. destruct (Z.to_nat (nc - 0)) eqn:E; [lia|]. cbn. eauto.
Qed.

(** On such a grid [add_row] appends one row and cannot fail. *)
Lemma add_row_shown data g :
  grid_inv g ->
  EntryGrid.add_row (Some data) g
  = Ok (Grid.mk [] (Grid.rows g ++ [shown_row (Grid.num_of_columns g) data])
                (Grid.num_of_columns g)).
Proof.
  intros [H Hnc]. unfold EntryGrid.add_row. rewrite H. cbn [truthy andb].
  destruct (shown_row_cells _ data Hnc) as (x & l & E).
  replace (match data with
           | e :: es => e :: es
           | [] => map (fun _ => EmptyString) (range 0 (Grid.num_of_columns g))
           end) with (shown_row (Grid.num_of_columns g) data)
    by now destruct data.
  rewrite E. destruct (index_last x l) as [a ->]. reflexivity.
Qed.

Lemma read_rows_ok rtd ctd rn cn rows :
  forall i g,
    grid_inv g ->
    exists rs,
      SpreadSheetReader.read_rows rtd ctd rn cn i rows g
      = Ok (Grid.mk [] rs (Grid.num_of_columns g)).
Proof.
  induction rows as [|row rest IH]; intros i g Hg; cbn [SpreadSheetReader.read_rows].
  - destruct g as [hs rs nc]. destruct Hg as [Hh _]. cbn in Hh. subst hs. eauto.
  - destruct (rn <=? i).
    + rewrite add_row_shown by exact Hg. cbn [bind].
      destruct (rtd + rn <=? i); [eauto|].
      match goal with
      | |- exists rs, SpreadSheetReader.read_rows _ _ _ _ _ _ ?g' = _ =>
          apply (IH (i + 1) g')
      end.
      destruct Hg as [_ Hnc]. split; [reflexivity|exact Hnc].
    + cbn [bind]. destruct (rtd + rn <=? i).
      * destruct g as [hs rs nc]. destruct Hg as [Hh _]. cbn in Hh. subst hs.
        eauto.
      * now apply IH.
Qed.

(** Reading the sheet cannot fail, opens the workbook once and touches
    neither the position nor the page size. *)
Lemma read_xl_ok rn cn r :
  reader_inv r ->
  exists g,
    SpreadSheetReader.read_xl rn cn r
    = Ok (SpreadSheetReader.mk (SpreadSheetReader.sheet r)
            (SpreadSheetReader.rows_to_display r)
            (SpreadSheetReader.cols_to_display r)
            (SpreadSheetReader.current_position r) g
            (S (SpreadSheetReader.opened r)))
    /\ grid_inv g.
Proof.
  intros Hr. unfold SpreadSheetReader.read_xl.
  destruct (read_rows_ok (SpreadSheetReader.rows_to_display r)
              (SpreadSheetReader.cols_to_display r) rn cn
              (SpreadSheetReader.sheet r) 0
              (SpreadSheetReader.entry_grid r) Hr) as [rs E].
  rewrite E. cbn [bind]. eexists. split; [reflexivity|].
  destruct Hr as [_ Hnc]. split; [reflexivity|exact Hnc].
Qed.

(** A move that is carried out: on the cleared grid the position is set
    and the sheet read again. *)
Lemma reload_ok p g r :
  grid_inv g ->
  let r1 := SpreadSheetReader.with_position p
              (SpreadSheetReader.with_grid g r) in
  exists r',
    SpreadSheetReader.read_xl (fst (SpreadSheetReader.current_position r1))
      (snd (SpreadSheetReader.current_position r1)) r1 = Ok r'
    /\ SpreadSheetReader.current_position r' = p
    /\ SpreadSheetReader.opened r' = S (SpreadSheetReader.opened r)
    /\ SpreadSheetReader.rows_to_display r' = SpreadSheetReader.rows_to_display r
    /\ SpreadSheetReader.cols_to_display r' = SpreadSheetReader.cols_to_display r
    /\ SpreadSheetReader.sheet r' = SpreadSheetReader.sheet r
    /\ reader_inv r'.
Proof.
  intros Hg r1.
  destruct (read_xl_ok (fst (SpreadSheetReader.current_position r1))
              (snd (SpreadSheetReader.current_position r1)) r1)
    as (g' & E & Hg'); [exact Hg|].
  rewrite E. eexists. split; [reflexivity|]. cbn. auto 10.
Qed.

(** The constructor cannot fail and establishes the invariant. *)
Lemma reader_init_ok sheet rtd ctd :
  exists r,
    SpreadSheetReader.__init__ sheet rtd ctd = Ok r
    /\ reader_inv r
    /\ SpreadSheetReader.current_position r = (0, 0).
Proof.
  unfold SpreadSheetReader.__init__. cbn [EntryGrid.__init__ Grid.__init__ bind].
  match goal with
  | |- exists r, SpreadSheetReader.read_xl 0 0 ?r0 = _ /\ _ =>
      destruct (read_xl_ok 0 0 r0) as (g & E & Hg)
  end.
  - split; [reflexivity|]. cbn. lia.
  - rewrite E. eexists. split; [reflexivity|]. split; [exact Hg|reflexivity].
Qed.

Section Moves.
Variable r : SpreadSheetReader.t.
Hypothesis Hr : reader_inv r.

Let row_pos := fst (SpreadSheetReader.current_position r).
Let col_pos := snd (SpreadSheetReader.current_position r).
Let rows_to_display := SpreadSheetReader.rows_to_display r.
Let cols_to_display := SpreadSheetReader.cols_to_display r.

Ltac start_move f :=
  unfold f;
  destruct (SpreadSheetReader.current_position r) as [rp cp] eqn:Epos;
  subst row_pos col_pos rows_to_display cols_to_display;
  cbn [fst snd] in *.

Ltac carried_out :=
  rewrite clear_spec; cbn [bind]; cbv zeta;
  match goal with
  | |- context [SpreadSheetReader.read_xl _ _
                  (SpreadSheetReader.with_position ?p
                     (SpreadSheetReader.with_grid ?g r))] =>
      destruct (reload_ok p g r Hr)
        as (r' & E & Hpos & Hop & Hrows & Hcols & Hsheet & Hinv)
  end.

Lemma move_down_spec (page : bool) :
  exists r',
    SpreadSheetReader.move_down page r = Ok r'
    /\ SpreadSheetReader.current_position r'
       = (row_pos + (if page then rows_to_display else 1), col_pos)
    /\ reader_inv r'.
Proof.
  start_move SpreadSheetReader.move_down.
  destruct page; carried_out; exists r'; (split; [exact E|]); auto.
Qed.

Lemma move_right_spec (page : bool) :
  exists r',
    SpreadSheetReader.move_right page r = Ok r'
    /\ SpreadSheetReader.current_position r'
       = (row_pos, col_pos + (if page then cols_to_display else 1))
    /\ reader_inv r'.
Proof.
  start_move SpreadSheetReader.move_right.
  destruct page; carried_out; exists r'; (split; [exact E|]); auto.
Qed.

(** [move_up]: either refused, and then nothing at all happens, or
    carried out, and then the workbook is opened once more. *)
Lemma move_up_spec (page : bool) :
  (if page then row_pos <? rows_to_display else row_pos =? 0) = true
  /\ SpreadSheetReader.move_up page r = Ok r
  \/
  (if page then row_pos <? rows_to_display else row_pos =? 0) = false
  /\ exists r',
       SpreadSheetReader.move_up page r = Ok r'
       /\ SpreadSheetReader.current_position r'
          = (row_pos - (if page then rows_to_display else 1), col_pos)
       /\ SpreadSheetReader.opened r' = S (SpreadSheetReader.opened r)
       /\ reader_inv r'.
Proof.
  start_move SpreadSheetReader.move_up.
  destruct page; cbn [negb andb].
  - destruct (rp <? SpreadSheetReader.rows_to_display r);
      [left; auto|right; split; [reflexivity|]].
    carried_out. exists r'. auto.
  - destruct (rp =? 0); [left; auto|right; split; [reflexivity|]].
    carried_out. exists r'. auto.
Qed.

Lemma move_left_spec (page : bool) :
  (if page then col_pos <? cols_to_display else col_pos =? 0) = true
  /\ SpreadSheetReader.move_left page r = Ok r
  \/
  (if page then col_pos <? cols_to_display else col_pos =? 0) = false
  /\ exists r',
       SpreadSheetReader.move_left page r = Ok r'
       /\ SpreadSheetReader.current_position r'
          = (row_pos, col_pos - (if page then cols_to_display else 1))
       /\ SpreadSheetReader.opened r' = S (SpreadSheetReader.opened r)
       /\ reader_inv r'.
Proof.
  start_move SpreadSheetReader.move_left.
  destruct page; cbn [negb andb].
  - destruct (cp <? SpreadSheetReader.cols_to_display r);
      [left; auto|right; split; [reflexivity|]].
    carried_out. exists r'. auto.
  - destruct (cp =? 0); [left; auto|right; split; [reflexivity|]].
    carried_out. exists r'. auto.
Qed.

End Moves.

(** ** Construction-time validation *)

Lemma mismatched_check {A} (n : Z) (xs : option (list A)) :
  truthy_opt xs && negb (n =? len (match xs with Some l => l | None => [] end))
  = true <-> mismatched n xs.
Proof.
  unfold mismatched. split.
  - destruct xs as [[|x l]|]; cbn [truthy_opt truthy andb]; try discriminate.
    intros H. exists x, l. split; [reflexivity|].
    apply negb_true_iff, Z.eqb_neq in H. congruence.
  - intros (x & l & -> & H). cbn [truthy_opt truthy andb].
    apply negb_true_iff, Z.eqb_neq. congruence.
Qed.

Lemma pick_ok {A} (n : Z) (xs : option (list A)) (i : Z) :
  ~ mismatched n xs -> 0 <= i < n -> exists a, KeyValueEntry.pick xs i = Ok a.
Proof.
  intros Hm Hi. unfold KeyValueEntry.pick.
  destruct xs as [[|x l]|]; eauto.
  destruct (Z.eq_dec (len (x :: l)) n) as [E|E].
  - rewrite (index_nth (x :: l) i x) by lia. cbn [bind]. eauto.
  - exfalso. apply Hm. exists x, l. auto.
Qed.

Lemma add_rows_ok ks defaults unit_labels enables idxs :
  ~ mismatched (len ks) defaults -> ~ mismatched (len ks) unit_labels ->
  ~ mismatched (len ks) enables ->
  Forall (fun i => 0 <= i < len ks) idxs ->
  forall kv, exists kv',
      KeyValueEntry.add_rows ks defaults unit_labels enables idxs kv = Ok kv'.
Proof.
  intros Hd Hu He. induction 1 as [|i idxs Hi _ IH]; intros kv.
  - cbn. eauto.
  - cbn [KeyValueEntry.add_rows].
    rewrite (index_nth ks i EmptyString) by exact Hi. cbn [bind].
    destruct (pick_ok _ defaults i Hd Hi) as [d ->].
    destruct (pick_ok _ unit_labels i Hu Hi) as [u ->].
    destruct (pick_ok _ enables i He Hi) as [e ->]. cbn [bind].
    apply IH.
Qed.

Lemma range_bounds a b : Forall (fun i => a <= i < b) (range a b).
Proof.
  apply Forall_forall. intros x Hx. unfold range in Hx.
  apply in_map_iff in Hx. destruct Hx as (k & <- & Hk).
  apply in_seq in Hk. lia.
Qed.

Lemma grid_init_raises n (hs : option (list string)) :
  Grid.__init__ n hs = Raise ValueError <-> mismatched n hs.
Proof.
  unfold Grid.__init__, mismatched. split.
  - destruct hs as [[|h l]|]; try discriminate.
    destruct (len (h :: l) =? n) eqn:E; cbn [negb]; [discriminate|].
    intros _. exists h, l. split; [reflexivity|]. lia.
  - intros (h & l & -> & H).
    replace (len (h :: l) =? n) with false by lia. reflexivity.
Qed.

Lemma grid_init_ok n (hs : option (list string)) :
  ~ mismatched n hs -> exists g, Grid.__init__ n hs = Ok g.
Proof.
  intros H. unfold Grid.__init__.
  destruct hs as [[|h l]|]; eauto.
  destruct (len (h :: l) =? n) eqn:E; cbn [negb]; eauto.
  exfalso. apply H. exists h, l. split; [reflexivity|]. lia.
Qed.

Lemma kv_init_raises ks defaults unit_labels enables title :
  KeyValueEntry.__init__ ks defaults unit_labels enables title
  = Raise ValueError
  <-> mismatched (len ks) defaults \/ mismatched (len ks) unit_labels
      \/ mismatched (len ks) enables.
Proof.
  unfold KeyValueEntry.__init__.
  pose proof (mismatched_check (len ks) defaults) as Hd.
  pose proof (mismatched_check (len ks) unit_labels) as Hu.
  pose proof (mismatched_check (len ks) enables) as He.
  destruct (truthy_opt defaults && _); [tauto|].
  destruct (truthy_opt unit_labels && _); [tauto|].
  destruct (truthy_opt enables && _); [tauto|].
  assert (Nd : ~ mismatched (len ks) defaults) by (intros H; apply Hd in H; discriminate).
  assert (Nu : ~ mismatched (len ks) unit_labels) by (intros H; apply Hu in H; discriminate).
  assert (Ne : ~ mismatched (len ks) enables) by (intros H; apply He in H; discriminate).
  destruct (add_rows_ok ks defaults unit_labels enables (range 0 (len ks))
              Nd Nu Ne (range_bounds 0 (len ks))
              (KeyValueEntry.mk [] [] [] [] title)) as [kv ->].
  split; [discriminate|tauto].
Qed.

Lemma kv_init_ok ks defaults unit_labels enables title :
  ~ mismatched (len ks) defaults -> ~ mismatched (len ks) unit_labels ->
  ~ mismatched (len ks) enables ->
  exists kv,
    KeyValueEntry.__init__ ks defaults unit_labels enables title = Ok kv.
Proof.
  intros Nd Nu Ne. unfold KeyValueEntry.__init__.
  pose proof (mismatched_check (len ks) defaults) as Hd.
  pose proof (mismatched_check (len ks) unit_labels) as Hu.
  pose proof (mismatched_check (len ks) enables) as He.
  destruct (truthy_opt defaults && _); [tauto|].
  destruct (truthy_opt unit_labels && _); [tauto|].
  destruct (truthy_opt enables && _); [tauto|].
  apply add_rows_ok; trivial. apply range_bounds.
Qed.

(** ** The window of the reader *)

(** The loop of [read_xl], started at index [i] within the window: it
    skips up to row [rn] and then shows rows [rn] to [rn + rtd], both
    included. *)
Lemma read_rows_window rtd ctd rn cn rows :
  forall i g,
    grid_inv g -> 0 <= i <= rn + rtd -> 0 <= rtd ->
    SpreadSheetReader.read_rows rtd ctd rn cn i rows g
    = Ok (Grid.mk []
            (Grid.rows g
             ++ map (fun row => shown_row (Grid.num_of_columns g)
                                  (slice row cn (cn + ctd)))
                    (firstn (Z.to_nat (rn + rtd + 1 - Z.max i rn))
                            (skipn (Z.to_nat (rn - i)) rows)))
            (Grid.num_of_columns g)).
Proof.
  induction rows as [|row rest IH]; intros i g Hg Hi Hrtd;
    cbn [SpreadSheetReader.read_rows].
  - rewrite skipn_nil, firstn_nil. cbn [map]. rewrite app_nil_r.
    destruct g as [hs rs nc]. destruct Hg as [Hh _]. cbn in *. now subst hs.
  - destruct (rn <=? i) eqn:Ern.
    + rewrite add_row_shown by exact Hg. cbn [bind].
      replace (Z.to_nat (rn - i)) with 0%nat by lia. cbn [skipn].
      replace (Z.max i rn) with i by lia.
      destruct (rtd + rn <=? i) eqn:Ebreak.
      * replace (Z.to_nat (rn + rtd + 1 - i)) with 1%nat by lia.
        cbn [firstn map]. reflexivity.
      * rewrite IH
          by first [lia | exact (conj eq_refl (proj2 Hg))].
        cbn [Grid.rows Grid.num_of_columns].
        replace (Z.to_nat (rn - (i + 1))) with 0%nat by lia. cbn [skipn].
        replace (Z.max (i + 1) rn) with (i + 1) by lia.
        replace (Z.to_nat (rn + rtd + 1 - i))
          with (S (Z.to_nat (rn + rtd + 1 - (i + 1)))) by lia.
        cbn [firstn map]. now rewrite <- app_assoc.
    + cbn [bind]. replace (rtd + rn <=? i) with false by lia.
      rewrite IH by (trivial; lia).
      replace (Z.to_nat (rn - i)) with (S (Z.to_nat (rn - (i + 1)))) by lia.
      cbn [skipn].
      replace (Z.max (i + 1) rn) with rn by lia.
      replace (Z.max i rn) with rn by lia. reflexivity.
Qed.

(** What [read_xl] adds to the grid: the rows from [rn] on, at most
    [rows_to_display + 1] of them. *)
Lemma read_xl_window rn cn r :
  reader_inv r -> 0 <= rn -> 0 <= SpreadSheetReader.rows_to_display r ->
  exists r',
    SpreadSheetReader.read_xl rn cn r = Ok r'
    /\ Grid.rows (SpreadSheetReader.entry_grid r')
       = Grid.rows (SpreadSheetReader.entry_grid r)
         ++ map (fun row =>
                   shown_row
                     (Grid.num_of_columns (SpreadSheetReader.entry_grid r))
                     (slice row cn (cn + SpreadSheetReader.cols_to_display r)))
                (firstn (Z.to_nat (SpreadSheetReader.rows_to_display r + 1))
                        (skipn (Z.to_nat rn) (SpreadSheetReader.sheet r))).
Proof.
  intros Hr Hrn Hrtd. unfold SpreadSheetReader.read_xl.
  rewrite read_rows_window by (trivial; lia). cbn [bind].
  eexists. split; [reflexivity|]. cbn [SpreadSheetReader.entry_grid Grid.rows].
  replace (Z.max 0 rn) with rn by lia. rewrite Z.sub_0_r.
  do 4 f_equal. lia.
Qed.

(** ** Tactics for concrete runs *)

(** Evaluate the run on the left of [exists x, run = Ok x /\ _] and go
    on with its result. *)
Ltac run_ok :=
  lazymatch goal with
  | |- exists x, ?r = Ok x /\ _ =>
      let v := eval vm_compute in r in
      lazymatch v with
      | Ok ?c => exists c; split; [vm_compute; reflexivity|]
      end
  end.

Ltac by_computation := vm_compute; reflexivity.

(** * The claims *)

(** C3 (as amended). From every reachable calendar that does not show
    December 9999, [_next_month] followed by [_prev_month] succeeds and
    shows the original (year, month) again; on December 9999
    [_next_month] raises [OverflowError]. *)
Theorem next_then_prev_month (c : Calendar.t) :
  reachable c ->
  (Calendar.shown_month c <> (9999, 12) ->
   exists c1 c2,
     Calendar._next_month c = Ok c1
     /\ Calendar._prev_month c1 = Ok c2
     /\ Calendar.shown_month c2 = Calendar.shown_month c
     /\ Calendar._date c2 = Calendar._date c)
  /\ (Calendar.shown_month c = (9999, 12) ->
      Calendar._next_month c = Raise OverflowError).
Proof.
  intros Hreach. pose proof (reachable_inv c Hreach) as Hinv.
  split; [|now apply next_month_last].
  intros Hne.
  destruct (next_month_spec c Hinv Hne) as (c1 & E1 & Hinv1 & Hs1 & _).
  destruct (prev_month_spec c1 Hinv1) as (c2 & E2 & Hinv2 & Hs2 & _).
  - rewrite Hs1. destruct (Calendar.shown_month c) as [y m] eqn:E.
    apply succ_month_not_first.
    + pose proof (inv_year c Hinv) as Hy. unfold Calendar.shown_month in E.
      injection E as <- <-. lia.
    + pose proof (inv_month c Hinv) as Hm. unfold Calendar.shown_month in E.
      injection E as <- <-. lia.
  - exists c1, c2. split; [exact E1|]. split; [exact E2|].
    assert (Hs : Calendar.shown_month c2 = Calendar.shown_month c).
    { rewrite Hs2, Hs1. apply pred_succ_month.
      pose proof (inv_month c Hinv). unfold Calendar.shown_month. cbn. lia. }
    split; [exact Hs|].
    rewrite (inv_date c2 Hinv2), (inv_date c Hinv), Hs. reflexivity.
Qed.

Lemma next_then_prev_month_witness :
  exists c, Calendar.__init__ false None 2023 12 = Ok c
            /\ exists c1 c2,
                Calendar._next_month c = Ok c1
                /\ Calendar._prev_month c1 = Ok c2
                /\ Calendar.shown_month c2 = Calendar.shown_month c
                /\ Calendar._date c2 = Calendar._date c.
Proof.
  run_ok.
  match goal with
  | |- exists c1 c2, Calendar._next_month ?c = _ /\ _ =>
      apply (next_then_prev_month c);
        [apply (reach_init false None 2023 12); vm_compute; reflexivity
        |vm_compute; discriminate]
  end.
Defined.

(** C3, the claim as stated fails: the calendar built for December 9999
    is a starting state from which [_next_month] raises, so no
    [_prev_month] can bring it back. *)
Lemma next_month_fails_in_december_9999 :
  exists c,
    Calendar.__init__ false None 9999 12 = Ok c
    /\ Calendar.shown_month c = (9999, 12)
    /\ Calendar._next_month c = Raise OverflowError
    /\ ~ (exists c1 c2,
             Calendar._next_month c = Ok c1
             /\ Calendar._prev_month c1 = Ok c2
             /\ Calendar.shown_month c2 = Calendar.shown_month c).
Proof.
  run_ok. split; [by_computation|].
  assert (E : Calendar._next_month
                ltac:(let v := eval vm_compute in (Calendar.__init__ false None 9999 12) in
                      lazymatch v with Ok ?c => exact c end)
              = Raise OverflowError) by by_computation.
  split; [exact E|].
  intros (c1 & c2 & E1 & _). rewrite E in E1. discriminate.
Qed.

(** C4 (as amended). On a reachable calendar showing [(y, m)]:
    [_next_month] from December of a year before 9999 shows January of
    the next year, [_prev_month] from January of a year after 1 shows
    December of the year before, and from every other month they add and
    subtract one month within the year; from December 9999 [_next_month],
    and from January of year 1 [_prev_month], raise [OverflowError]. In
    particular (2023, 12) goes to (2024, 1) and (2024, 1) back to
    (2023, 12). *)
Theorem month_navigation (c : Calendar.t) (y m : Z) :
  reachable c -> Calendar.shown_month c = (y, m) ->
  (m = 12 -> y < 9999 ->
   exists c', Calendar._next_month c = Ok c'
              /\ Calendar.shown_month c' = (y + 1, 1))
  /\ (m = 1 -> 1 < y ->
      exists c', Calendar._prev_month c = Ok c'
                 /\ Calendar.shown_month c' = (y - 1, 12))
  /\ (m <> 12 ->
      exists c', Calendar._next_month c = Ok c'
                 /\ Calendar.shown_month c' = (y, m + 1))
  /\ (m <> 1 ->
      exists c', Calendar._prev_month c = Ok c'
                 /\ Calendar.shown_month c' = (y, m - 1))
  /\ (m = 12 -> y = 9999 -> Calendar._next_month c = Raise OverflowError)
  /\ (m = 1 -> y = 1 -> Calendar._prev_month c = Raise OverflowError)
  /\ (c1 <- Calendar.__init__ false None 2023 12 ;;
      c2 <- Calendar._next_month c1 ;; Ok (Calendar.shown_month c2))
     = Ok (2024, 1)
  /\ (c1 <- Calendar.__init__ false None 2024 1 ;;
      c2 <- Calendar._prev_month c1 ;; Ok (Calendar.shown_month c2))
     = Ok (2023, 12).
Proof.
  intros Hreach Hshown. pose proof (reachable_inv c Hreach) as Hinv.
  assert (Hnext : (y, m) <> (9999, 12) ->
                  exists c', Calendar._next_month c = Ok c'
                             /\ Calendar.shown_month c' = succ_month (y, m)).
  { intros Hne. rewrite <- Hshown in Hne.
    destruct (next_month_spec c Hinv Hne) as (c' & E & _ & Hs & _).
    exists c'. now rewrite Hs, Hshown. }
  assert (Hprev : (y, m) <> (1, 1) ->
                  exists c', Calendar._prev_month c = Ok c'
                             /\ Calendar.shown_month c' = pred_month (y, m)).
  { intros Hne. rewrite <- Hshown in Hne.
    destruct (prev_month_spec c Hinv Hne) as (c' & E & _ & Hs & _).
    exists c'. now rewrite Hs, Hshown. }
  unfold succ_month in Hnext. unfold pred_month in Hprev.
  split; [|split; [|split; [|split; [|split; [|split; [|split]]]]]].
  - intros -> Hy. apply Hnext. intros [=]. lia.
  - intros -> Hy. apply Hprev. intros [=]. lia.
  - intros Hm. replace (m =? 12) with false in Hnext by lia.
    apply Hnext. intros [=]. lia.
  - intros Hm. replace (m =? 1) with false in Hprev by lia.
    apply Hprev. intros [=]. lia.
  - intros -> ->. now apply next_month_last.
  - intros -> ->. now apply prev_month_first.
  - by_computation.
  - by_computation.
Qed.

Lemma month_navigation_witness :
  exists c,
    Calendar.__init__ false None 2023 12 = Ok c
    /\ exists c', Calendar._next_month c = Ok c'
                  /\ Calendar.shown_month c' = (2023 + 1, 1).
Proof.
  run_ok.
  match goal with
  | |- exists c', Calendar._next_month ?c = _ /\ _ =>
      refine (proj1 (month_navigation c 2023 12 _ _) eq_refl _);
        [apply (reach_init false None 2023 12); vm_compute; reflexivity
        |vm_compute; reflexivity
        |lia]
  end.
Defined.

(** C4, the claim as stated fails: the calendar built for January of
    year 1 shows (1, 1), and [_prev_month] raises instead of showing
    (0, 12). *)
Lemma prev_month_fails_in_january_1 :
  exists c,
    Calendar.__init__ false None 1 1 = Ok c
    /\ Calendar.shown_month c = (1, 1)
    /\ Calendar._prev_month c = Raise OverflowError.
Proof. run_ok. split; by_computation. Qed.

(** C1, evaluated on the code. A fresh calendar has no selection, and a
    click on the 15th of January 2024 selects that day; but after
    [_next_month] or [_prev_month] the selection canvas is hidden while
    the stored selection is still there, and [selection] reports the 15th
    of the month now shown, a day nobody picked. *)
Theorem selection_survives_navigation :
  exists c0 c1,
    Calendar.__init__ false None 2024 1 = Ok c0
    /\ Calendar.selection c0 = Ok None
    /\ Calendar._pressed (Calendar.mk_event (Some 3%nat) (Some 2) true) c0
       = Ok c1
    /\ Calendar.selection c1 = Ok (Some (datetime.mk 2024 1 15))
    /\ (exists c2,
           Calendar._next_month c1 = Ok c2
           /\ Calendar.shown_month c2 = (2024, 2)
           /\ Calendar.canvas_placed c2 = false
           /\ Calendar._selection c2 = Calendar._selection c1
           /\ Calendar.selection c2 = Ok (Some (datetime.mk 2024 2 15)))
    /\ (exists c3,
           Calendar._prev_month c1 = Ok c3
           /\ Calendar.shown_month c3 = (2023, 12)
           /\ Calendar.canvas_placed c3 = false
           /\ Calendar._selection c3 = Calendar._selection c1
           /\ Calendar.selection c3 = Ok (Some (datetime.mk 2023 12 15))).
Proof.
  lazymatch eval vm_compute in (Calendar.__init__ false None 2024 1) with
  | Ok ?c0 =>
      lazymatch eval vm_compute in
            (Calendar._pressed (Calendar.mk_event (Some 3%nat) (Some 2) true) c0)
      with
      | Ok ?c1 => exists c0, c1
      end
  end.
  split; [by_computation|]. split; [by_computation|].
  split; [by_computation|]. split; [by_computation|].
  split; run_ok; repeat split; by_computation.
Qed.

(** C10. There is a reachable calendar on which [selection] raises: build
    January 2024, click on the 31st (row item 5, column 4), press the
    right arrow; the calendar then shows February 2024 with the day text
    31 still stored, and [selection] raises [ValueError]. *)
Theorem selection_raises_after_navigation :
  exists c0 c1 c2,
    Calendar.__init__ false None 2024 1 = Ok c0
    /\ Calendar._pressed (Calendar.mk_event (Some 5%nat) (Some 4) true) c0
       = Ok c1
    /\ Calendar.selection c1 = Ok (Some (datetime.mk 2024 1 31))
    /\ Calendar._next_month c1 = Ok c2
    /\ Calendar.shown_month c2 = (2024, 2)
    /\ reachable c2
    /\ Calendar.selection c2 = Raise ValueError.
Proof.
  lazymatch eval vm_compute in (Calendar.__init__ false None 2024 1) with
  | Ok ?c0 =>
      lazymatch eval vm_compute in
            (Calendar._pressed (Calendar.mk_event (Some 5%nat) (Some 4) true) c0)
      with
      | Ok ?c1 =>
          lazymatch eval vm_compute in (Calendar._next_month c1) with
          | Ok ?c2 =>
              exists c0, c1, c2;
              assert (H0 : Calendar.__init__ false None 2024 1 = Ok c0)
                by by_computation;
              assert (H1 : Calendar._pressed
                             (Calendar.mk_event (Some 5%nat) (Some 4) true) c0
                           = Ok c1) by by_computation;
              assert (H2 : Calendar._next_month c1 = Ok c2) by by_computation
          end
      end
  end.
  split; [exact H0|]. split; [exact H1|]. split; [by_computation|].
  split; [exact H2|]. split; [by_computation|].
  split; [|by_computation].
  eapply reach_next; [|exact H2].
  eapply reach_pressed; [|split|exact H1].
  - eapply reach_init. exact H0.
  - cbn. lia.
  - cbn. tauto.
Qed.



(** C8. On a reachable calendar showing the month calendar [cal], a
    press that the toolkit maps to no column, to no row, to a row that is
    not a week row, to a week row at or beyond the populated weeks, or to
    an empty cell does not raise and changes nothing: not the stored
    selection, not the canvas, and the callback is not called. In
    particular, when the first of the month does not fall into the first
    column, a press on the first cell of the first week row does
    nothing. *)
Theorem pressed_void_click (c : Calendar.t) (cal : list (list Z))
    (evt : Calendar.event) :
  reachable c ->
  calendar.monthdayscalendar (Calendar._cal c)
    (datetime.year (Calendar._date c)) (datetime.month (Calendar._date c))
  = Ok cal ->
  (void_click c cal evt -> Calendar._pressed evt c = Ok c)
  /\ ((datetime.weekday (Calendar._date c) - Calendar._cal c) mod 7 <> 0 ->
      forall item bbox,
        nth_error (Calendar._items c) 0 = Some item ->
        Calendar._pressed (Calendar.mk_event (Some item) (Some 1) bbox) c
        = Ok c).
Proof.
  intros Hreach Hcal. pose proof (reachable_inv c Hreach) as Hinv.
  split; [now apply pressed_void_inv|].
  intros Hlater item bbox Hitem.
  apply (pressed_void_inv c cal); trivial.
  apply (void_empty_cell c cal 0 item 1 bbox Hitem); [lia|].
  pose proof (inv_year c Hinv) as Hy. pose proof (inv_month c Hinv) as Hm.
  rewrite monthdayscalendar_shape in Hcal by trivial. injection Hcal as <-.
  rewrite (inv_date c Hinv) in Hlater. cbn [fst snd Calendar.shown_month] in Hlater.
  pose proof (days_in_month_bounds (datetime.year (Calendar._date c)) _ Hm)
    as Hn.
  match goal with
  | |- cell_day (weeks_of (month_days ?b ?n)) _ _ = _ =>
      assert (Hb : 0 <= b < 7) by (apply Z.mod_pos_bound; lia);
      destruct (shape_facts b n Hb Hn) as (_ & _ & _ & Hcell)
  end.
  apply Hcell. exact Hlater.
Qed.

Lemma pressed_void_click_witness :
  exists c,
    Calendar.__init__ false None 2024 2 = Ok c
    /\ Calendar._pressed (Calendar.mk_event (Some 1%nat) (Some 1) true) c
       = Ok c.
Proof.
  run_ok.
  match goal with
  | |- Calendar._pressed ?evt ?c = _ =>
      lazymatch eval vm_compute in
            (calendar.monthdayscalendar (Calendar._cal c)
               (datetime.year (Calendar._date c))
               (datetime.month (Calendar._date c)))
      with
      | Ok ?cal =>
          refine (proj1 (pressed_void_click c cal evt _ _) _);
            [apply (reach_init false None 2024 2); vm_compute; reflexivity
            |vm_compute; reflexivity
            |apply (void_empty_cell c cal 0 1%nat 1 true);
               [reflexivity|lia|vm_compute; reflexivity]]
      end
  end.
Defined.

(** C5. On a reader, a single move up from row offset 0 and a single
    move left from column offset 0 leave everything as it is; a page move
    up (left) is refused, leaving everything as it is, exactly when the
    row (column) offset is below the page size, that is when the new
    offset would be negative, and is otherwise carried out by the full
    page size. In particular a page move up from row offset 5 with 20
    rows to display is refused. *)
Theorem move_up_left_at_the_boundary (r : SpreadSheetReader.t) :
  reader_inv r ->
  let row_pos := fst (SpreadSheetReader.current_position r) in
  let col_pos := snd (SpreadSheetReader.current_position r) in
  let rows_to_display := SpreadSheetReader.rows_to_display r in
  let cols_to_display := SpreadSheetReader.cols_to_display r in
  (row_pos = 0 -> SpreadSheetReader.move_up false r = Ok r)
  /\ (col_pos = 0 -> SpreadSheetReader.move_left false r = Ok r)
  /\ (SpreadSheetReader.move_up true r = Ok r <-> row_pos < rows_to_display)
  /\ (SpreadSheetReader.move_left true r = Ok r <-> col_pos < cols_to_display)
  /\ (row_pos < rows_to_display <-> row_pos - rows_to_display < 0)
  /\ (col_pos < cols_to_display <-> col_pos - cols_to_display < 0)
  /\ (~ row_pos < rows_to_display ->
      exists r', SpreadSheetReader.move_up true r = Ok r'
                 /\ SpreadSheetReader.current_position r'
                    = (row_pos - rows_to_display, col_pos))
  /\ (~ col_pos < cols_to_display ->
      exists r', SpreadSheetReader.move_left true r = Ok r'
                 /\ SpreadSheetReader.current_position r'
                    = (row_pos, col_pos - cols_to_display))
  /\ (row_pos = 5 -> rows_to_display = 20 ->
      SpreadSheetReader.move_up true r = Ok r).
Proof.
  intros Hr row_pos col_pos rows_to_display cols_to_display.
  pose proof (move_up_spec r Hr false) as Hu1.
  pose proof (move_up_spec r Hr true) as Hup.
  pose proof (move_left_spec r Hr false) as Hl1.
  pose proof (move_left_spec r Hr true) as Hlp.
  cbv beta iota in Hu1, Hup, Hl1, Hlp.
  fold row_pos in Hu1, Hup, Hl1, Hlp. fold col_pos in Hu1, Hup, Hl1, Hlp.
  fold rows_to_display in Hup. fold cols_to_display in Hlp.
  assert (Hmoved : forall r', SpreadSheetReader.opened r'
                              = S (SpreadSheetReader.opened r) -> Ok r' <> Ok r).
  { intros r' H [= ->]. lia. }
  split; [|split; [|split; [|split; [|split; [|split; [|split; [|split]]]]]]].
  - intros H0. destruct Hu1 as [[_ E]|[Hc _]]; [exact E|lia].
  - intros H0. destruct Hl1 as [[_ E]|[Hc _]]; [exact E|lia].
  - destruct Hup as [[Hc E]|[Hc (r' & E & _ & Hop & _)]].
    + split; [lia|auto].
    + split; [|lia]. intros E'. rewrite E in E'.
      now apply Hmoved in E'.
  - destruct Hlp as [[Hc E]|[Hc (r' & E & _ & Hop & _)]].
    + split; [lia|auto].
    + split; [|lia]. intros E'. rewrite E in E'.
      now apply Hmoved in E'.
  - lia.
  - lia.
  - intros Hge. destruct Hup as [[Hc _]|[_ (r' & E & Hpos & _)]]; [lia|].
    exists r'. split; [exact E|]. rewrite Hpos. reflexivity.
  - intros Hge. destruct Hlp as [[Hc _]|[_ (r' & E & Hpos & _)]]; [lia|].
    exists r'. split; [exact E|]. rewrite Hpos. reflexivity.
  - intros H5 H20. destruct Hup as [[_ E]|[Hc _]]; [exact E|lia].
Qed.

Lemma move_up_left_at_the_boundary_witness :
  let r :=
    SpreadSheetReader.mk [["a"; "b"]; ["c"; "d"]]%string 20 8 (5, 0)
      (Grid.mk [] [["a"; "b"]; ["c"; "d"]]%string 8) 1%nat in
  SpreadSheetReader.move_up true r = Ok r.
Proof.
  intros r.
  refine (proj2 (proj2 (proj2 (proj2 (proj2 (proj2 (proj2 (proj2
            (move_up_left_at_the_boundary r _)))))))) _ _);
    [split; reflexivity|reflexivity|reflexivity].
Defined.

(** C6. On a reader, whatever the sheet holds, a move down or right is
    always carried out: a single move adds 1 to the row or column offset
    and a page move adds the number of rows or columns to display. *)
Theorem move_down_right_unclamped (r : SpreadSheetReader.t) (page : bool) :
  reader_inv r ->
  let row_pos := fst (SpreadSheetReader.current_position r) in
  let col_pos := snd (SpreadSheetReader.current_position r) in
  (exists r',
      SpreadSheetReader.move_down page r = Ok r'
      /\ SpreadSheetReader.current_position r'
         = (row_pos + (if page then SpreadSheetReader.rows_to_display r else 1),
            col_pos))
  /\ (exists r',
         SpreadSheetReader.move_right page r = Ok r'
         /\ SpreadSheetReader.current_position r'
            = (row_pos,
               col_pos
               + (if page then SpreadSheetReader.cols_to_display r else 1))).
Proof.
  intros Hr row_pos col_pos.
  destruct (move_down_spec r Hr page) as (r1 & E1 & H1 & _).
  destruct (move_right_spec r Hr page) as (r2 & E2 & H2 & _).
  split; [exists r1|exists r2]; auto.
Qed.

(** A two-row sheet, scrolled far beyond its last row and column. *)
Lemma move_down_right_unclamped_witness :
  let r :=
    SpreadSheetReader.mk [["a"; "b"]; ["c"; "d"]]%string 20 8 (100, 50)
      (Grid.mk [] [] 8) 1%nat in
  exists r',
    SpreadSheetReader.move_down true r = Ok r'
    /\ SpreadSheetReader.current_position r' = (100 + 20, 50).
Proof.
  intros r. refine (proj1 (move_down_right_unclamped r true _)).
  split; reflexivity.
Defined.

(** C9 (as amended). [Grid.__init__] raises [ValueError] exactly when a
    non-empty [headers] list is supplied whose length is not
    [num_of_columns], and [KeyValueEntry.__init__] exactly when one of
    [defaults], [unit_labels], [enables] is supplied, non-empty, and of a
    length other than that of [keys]; in every other case, an empty list
    included, construction succeeds. *)
Theorem construction_validation :
  (forall (n : Z) (headers : option (list string)),
      (Grid.__init__ n headers = Raise ValueError <-> mismatched n headers)
      /\ (~ mismatched n headers -> exists g, Grid.__init__ n headers = Ok g))
  /\ (forall ks defaults unit_labels enables title,
         (KeyValueEntry.__init__ ks defaults unit_labels enables title
          = Raise ValueError
          <-> mismatched (len ks) defaults \/ mismatched (len ks) unit_labels
              \/ mismatched (len ks) enables)
         /\ (~ mismatched (len ks) defaults ->
             ~ mismatched (len ks) unit_labels ->
             ~ mismatched (len ks) enables ->
             exists kv,
               KeyValueEntry.__init__ ks defaults unit_labels enables title
               = Ok kv)).
Proof.
  split.
  - intros n headers. split; [apply grid_init_raises|apply grid_init_ok].
  - intros. split; [apply kv_init_raises|apply kv_init_ok].
Qed.

(** C9, the claim as stated fails: an empty [headers] list does not have
    the length of three columns, and an empty [defaults] list does not
    have the length of one key, yet neither construction raises. *)
Lemma empty_lists_are_not_validated :
  Grid.__init__ 3 (Some []) = Ok (Grid.mk [] [] 3)
  /\ len (@nil string) <> 3
  /\ KeyValueEntry.__init__ ["a"%string] (Some []) None None None
     = Ok (KeyValueEntry.mk ["a"%string] [None] [EmptyString] [None] None)
  /\ len (@nil string) <> len ["a"%string].
Proof.
  split; [reflexivity|]. split; [discriminate|].
  split; [reflexivity|discriminate].
Qed.

(** C2, evaluated on the code. On a sheet of four rows and two columns a
    reader built to display 2 rows and 1 column shows 3 rows: the loop of
    [read_xl] adds row [rows_to_display + row_number] before it breaks.
    The columns are cut to [cols_to_display] as claimed, and past the
    last column of the sheet every row shown is a row of 8 blank
    cells. *)
Theorem read_xl_shows_one_row_too_many :
  let sheet := [["a"; "b"]; ["c"; "d"]; ["e"; "f"]; ["g"; "h"]]%string in
  exists r,
    SpreadSheetReader.__init__ sheet 2 1 = Ok r
    /\ Grid.rows (SpreadSheetReader.entry_grid r)
       = [["a"]; ["c"]; ["e"]]%string
    /\ (2 < len (Grid.rows (SpreadSheetReader.entry_grid r)))
    /\ (exists r1, SpreadSheetReader.move_down true r = Ok r1
                   /\ SpreadSheetReader.current_position r1 = (2, 0)
                   /\ Grid.rows (SpreadSheetReader.entry_grid r1)
                      = [["e"]; ["g"]]%string)
    /\ (exists r2 r3,
           SpreadSheetReader.move_right true r = Ok r2
           /\ SpreadSheetReader.move_right true r2 = Ok r3
           /\ SpreadSheetReader.current_position r3 = (0, 2)
           /\ Grid.rows (SpreadSheetReader.entry_grid r3)
              = repeat (repeat EmptyString 8) 3).
Proof.
  intros sheet. subst sheet. run_ok.
  split; [by_computation|]. split; [by_computation|].
  split.
  - run_ok. split; by_computation.
  - lazymatch goal with
    | |- exists r2 r3, SpreadSheetReader.move_right true ?r = _ /\ _ =>
        lazymatch eval vm_compute in (SpreadSheetReader.move_right true r) with
        | Ok ?r2 => exists r2
        end
    end.
    lazymatch goal with
    | |- exists r3, _ /\ SpreadSheetReader.move_right true ?r2 = _ /\ _ =>
        lazymatch eval vm_compute in (SpreadSheetReader.move_right true r2) with
        | Ok ?r3 => exists r3
        end
    end.
    repeat split; by_computation.
Qed.

(** * Further properties *)

(** ** Rows of a grid *)

Lemma pop_spec {A} (l : list A) (i : Z) :
  (fits_ssize_t i = false -> Grid.pop l i = Raise OverflowError)
  /\ (fits_ssize_t i = true -> - len l <= i < len l ->
      Grid.pop l i
      = Ok (firstn (Z.to_nat (i mod len l)) l
            ++ skipn (S (Z.to_nat (i mod len l))) l))
  /\ (fits_ssize_t i = true -> i < - len l \/ len l <= i ->
      Grid.pop l i = Raise IndexError).
Proof.
  unfold Grid.pop. split; [intros ->; reflexivity|].
  split; intros -> H; cbn [negb].
  - destruct (i <? 0) eqn:E.
    + replace ((i + len l <? 0) || (len l <=? i + len l)) with false by lia.
      replace (i mod len l) with (i + len l); [reflexivity|].
      apply Z.mod_unique with (q := -1); lia.
    + replace ((i <? 0) || (len l <=? i)) with false by lia.
      rewrite Z.mod_small by lia. reflexivity.
  - destruct (i <? 0) eqn:E.
    + replace ((i + len l <? 0) || (len l <=? i + len l)) with true by lia.
      reflexivity.
    + replace ((i <? 0) || (len l <=? i)) with true by lia. reflexivity.
Qed.

Lemma len_app {A} (l1 l2 : list A) : len (l1 ++ l2) = len l1 + len l2.
Proof. unfold len. rewrite length_app. lia. Qed.

Lemma len_nonneg {A} (l : list A) : 0 <= len l.
Proof. unfold len. lia. Qed.

Lemma len_removed {A} (l : list A) (j : nat) :
  (j < List.length l)%nat ->
  len (firstn j l ++ skipn (S j) l) = len l - 1.
Proof.
  intros H. unfold len. rewrite length_app, length_firstn, length_skipn. lia.
Qed.

Lemma pop_last {A} (l : list A) :
  l <> [] -> Grid.pop l (-1) = Ok (removelast l).
Proof.
  intros Hl. destruct (exists_last Hl) as (l' & a & ->).
  rewrite removelast_last. unfold Grid.pop. rewrite len_app.
  change (fits_ssize_t (-1)) with true. cbn [negb].
  pose proof (len_nonneg l'). change (len [a]) with 1.
  replace (-1 <? 0) with true by lia.
  replace ((-1 + (len l' + 1) <? 0) || (len l' + 1 <=? -1 + (len l' + 1)))
    with false by lia.
  replace (Z.to_nat (-1 + (len l' + 1))) with (List.length l')
    by (unfold len; lia).
  rewrite firstn_app, firstn_all, Nat.sub_diag. cbn [firstn].
  rewrite skipn_all2 by (rewrite length_app; cbn; lia).
  now rewrite !app_nil_r.
Qed.

(** X1. [Grid.remove_row] on a grid of [n] rows: with no rows it does
    nothing, whatever the index. With rows, an index that does not fit a
    [Py_ssize_t] (below [-2^63] or above [2^63 - 1]) raises
    [OverflowError]; an index that fits and lies between [-n] and
    [n - 1] removes that one row, counted from the end when negative, so
    that the default [-1] removes the last row; an index that fits and
    lies outside [-n .. n - 1] raises [IndexError]. *)
Theorem remove_row_bounds (g : Grid.t) (i : Z) :
  let n := len (Grid.rows g) in
  (n = 0 -> Grid.remove_row i g = Ok g)
  /\ (0 < n -> i < PY_SSIZE_T_MIN \/ PY_SSIZE_T_MAX < i ->
      Grid.remove_row i g = Raise OverflowError)
  /\ (0 < n -> PY_SSIZE_T_MIN <= i <= PY_SSIZE_T_MAX -> - n <= i < n ->
      exists g',
        Grid.remove_row i g = Ok g'
        /\ Grid.rows g'
           = firstn (Z.to_nat (i mod n)) (Grid.rows g)
             ++ skipn (S (Z.to_nat (i mod n))) (Grid.rows g)
        /\ len (Grid.rows g') = n - 1
        /\ Grid.headers g' = Grid.headers g
        /\ Grid.num_of_columns g' = Grid.num_of_columns g)
  /\ (0 < n -> PY_SSIZE_T_MIN <= i <= PY_SSIZE_T_MAX ->
      i < - n \/ n <= i -> Grid.remove_row i g = Raise IndexError)
  /\ (0 < n ->
      exists g',
        Grid.remove_row (-1) g = Ok g'
        /\ Grid.rows g' = removelast (Grid.rows g)).
Proof.
  intros n. unfold Grid.remove_row. fold n.
  destruct (pop_spec (Grid.rows g) i) as (Hover & Hin & Hout).
  fold n in Hin, Hout.
  split; [intros ->; reflexivity|].
  split; [|split; [|split]].
  - intros Hn Hi. replace (n =? 0) with false by lia.
    rewrite Hover; [reflexivity|].
    unfold fits_ssize_t. lia.
  - intros Hn Hfit Hi. replace (n =? 0) with false by lia.
    rewrite Hin by (trivial; unfold fits_ssize_t; lia).
    cbn [bind]. eexists. split; [reflexivity|]. cbn. fold n.
    split; [reflexivity|]. split; [|auto].
    apply len_removed.
    pose proof (Z.mod_pos_bound i n Hn). unfold n, len in *. lia.
  - intros Hn Hfit Hi. replace (n =? 0) with false by lia.
    rewrite Hout by (trivial; unfold fits_ssize_t; lia). reflexivity.
  - intros Hn. replace (n =? 0) with false by lia.
    rewrite pop_last.
    + cbn [bind]. eexists. split; reflexivity.
    + intros E. unfold n in Hn. rewrite E in Hn. cbn in Hn. lia.
Qed.

(** X2. [Grid.clear] cannot fail, whatever the grid holds: it removes
    every row and keeps the headers and the number of columns, so that
    clearing twice is clearing once. *)
Theorem clear_empties_the_grid (g : Grid.t) :
  exists g',
    Grid.clear g = Ok g'
    /\ Grid.rows g' = []
    /\ Grid.headers g' = Grid.headers g
    /\ Grid.num_of_columns g' = Grid.num_of_columns g
    /\ Grid.clear g' = Ok g'.
Proof.
  rewrite clear_spec. eexists. split; [reflexivity|]. cbn. auto.
Qed.

(** ** Reading an entry grid *)

Lemma map_result_ok {A B} (f : A -> Result B) (g : A -> B) (xs : list A) :
  Forall (fun x => f x = Ok (g x)) xs -> map_result f xs = Ok (map g xs).
Proof.
  induction 1 as [|x xs Hx _ IH]; cbn; [reflexivity|].
  now rewrite Hx, IH.
Qed.

Lemma index_only_index_error {A} (l : list A) i e :
  index l i = Raise e -> e = IndexError.
Proof.
  unfold index. destruct (_ || _); [congruence|].
  destruct (nth_error _ _); congruence.
Qed.

Lemma map_result_only {A B} (f : A -> Result B) e :
  (forall y e', f y = Raise e' -> e' = e) ->
  forall xs e', map_result f xs = Raise e' -> e' = e.
Proof.
  intros Honly. induction xs as [|x xs IH]; cbn; [discriminate|].
  intros e'. destruct (f x) as [b|e1] eqn:E; cbn.
  - destruct (map_result f xs) as [ys|e2] eqn:E2; cbn; [discriminate|].
    intros [= <-]. now apply IH.
  - intros [= <-]. now apply (Honly x).
Qed.

Lemma range_0_len {A} (row : list A) (d : A) :
  map (fun i => nth (Z.to_nat i) row d) (range 0 (len row)) = row.
Proof.
  unfold range, len. rewrite Z.sub_0_r, Nat2Z.id, map_map.
  apply nth_ext with (d := d) (d' := d).
  - now rewrite length_map, length_seq.
  - intros k Hk. rewrite length_map, length_seq in Hk.
    rewrite (nth_indep _ d (nth (Z.to_nat (0 + Z.of_nat 0)) row d))
      by (rewrite length_map, length_seq; exact Hk).
    rewrite (map_nth (fun k => nth (Z.to_nat (0 + Z.of_nat k)) row d)
                     (seq 0 (List.length row)) 0%nat k).
    rewrite seq_nth by exact Hk. cbn [Nat.add]. f_equal. lia.
Qed.

(** A row of [n] cells is read back cell by cell. *)
Lemma read_row_cells (row : list string) :
  map_result (index row) (range 0 (len row)) = Ok row.
Proof.
  rewrite (map_result_ok _ (fun i => nth (Z.to_nat i) row EmptyString)).
  - now rewrite range_0_len.
  - apply Forall_forall. intros i Hi.
    pose proof (range_bounds 0 (len row)) as Hb.
    rewrite Forall_forall in Hb. now apply index_nth, Hb.
Qed.

Lemma read_table_rectangular g :
  rectangular (Grid.num_of_columns g) g ->
  EntryGrid._read_as_table g = Ok (Grid.rows g).
Proof.
  intros Hrect. unfold EntryGrid._read_as_table.
  rewrite (map_result_ok _ (fun row => row)).
  - now rewrite map_id.
  - eapply Forall_impl; [|exact Hrect]. cbn. intros row <-.
    apply read_row_cells.
Qed.

Lemma map_result_in_raise {A B} (f : A -> Result B) (xs : list A) (x : A) e :
  (forall y e', f y = Raise e' -> e' = e) ->
  In x xs -> f x = Raise e -> map_result f xs = Raise e.
Proof.
  intros Honly Hin Hx. induction xs as [|y xs IH]; [destruct Hin|].
  cbn. destruct (f y) as [b|e'] eqn:E; cbn.
  - destruct Hin as [->|Hin]; [congruence|]. now rewrite IH.
  - now rewrite (Honly _ _ E).
Qed.

Lemma row_dict_spec (hs : list string) (row : list string) :
  forall i d,
    0 <= i -> i + len hs <= len row ->
    EntryGrid.row_dict hs i row d
    = Ok (Dict.update d (combine hs (skipn (Z.to_nat i) row))).
Proof.
  induction hs as [|h hs IH]; intros i d Hi Hlen; [reflexivity|].
  cbn [EntryGrid.row_dict].
  assert (Hlt : (Z.to_nat i < List.length row)%nat).
  { unfold len in Hlen. cbn [List.length] in Hlen. lia. }
  rewrite (index_nth row i EmptyString)
    by (unfold len in *; cbn [List.length] in Hlen; lia).
  cbn [bind]. rewrite IH.
  - destruct (skipn (Z.to_nat i) row) as [|c cs] eqn:E.
    + apply (f_equal (@List.length string)) in E.
      rewrite length_skipn in E. cbn in E. lia.
    + assert (Hc : nth (Z.to_nat i) row EmptyString = c).
      { rewrite <- (firstn_skipn (Z.to_nat i) row) at 1. rewrite E.
        rewrite app_nth2 by (rewrite length_firstn; lia).
        rewrite length_firstn.
        replace (Z.to_nat i - Nat.min (Z.to_nat i) (List.length row))%nat
          with 0%nat by lia.
        reflexivity. }
      assert (Hcs : skipn (Z.to_nat (i + 1)) row = cs).
      { replace (Z.to_nat (i + 1)) with (1 + Z.to_nat i)%nat by lia.
        rewrite <- skipn_skipn, E. reflexivity. }
      rewrite Hc, Hcs. reflexivity.
  - lia.
  - unfold len in *. cbn [List.length] in Hlen. lia.
Qed.

Lemma row_dict_short (hs : list string) (row : list string) :
  forall i d,
    0 <= i <= len row -> len row < i + len hs ->
    EntryGrid.row_dict hs i row d = Raise IndexError.
Proof.
  induction hs as [|h hs IH]; intros i d Hi Hlen.
  - unfold len in Hlen at 2. cbn in Hlen. lia.
  - cbn [EntryGrid.row_dict].
    destruct (Z.eq_dec i (len row)) as [->|Hne].
    + unfold index. pose proof (len_nonneg row).
      destruct (len row <? 0) eqn:E; [lia|]. cbv iota. rewrite E.
      replace (len row <=? len row) with true by lia. reflexivity.
    + rewrite (index_nth row i EmptyString) by lia. cbn [bind].
      apply IH; [lia|]. unfold len in *. cbn [List.length] in Hlen. lia.
Qed.

Lemma dict_set_fresh {V} (k : string) (v : V) (d : Dict.t V) :
  ~ In k (map fst d) -> Dict.set k v d = d ++ [(k, v)].
Proof.
  induction d as [|[k' v'] d IH]; cbn; [reflexivity|].
  intros H. destruct (String.eqb k' k) eqn:E.
  - apply String.eqb_eq in E. tauto.
  - rewrite IH by tauto. reflexivity.
Qed.

Lemma update_distinct (items : list (string * string)) :
  forall d,
    NoDup (map fst items) ->
    (forall k, In k (map fst items) -> ~ In k (map fst d)) ->
    Dict.update d items = d ++ items.
Proof.
  induction items as [|[k v] items IH]; intros d Hnd Hfresh; cbn.
  - now rewrite app_nil_r.
  - inversion Hnd as [|? ? Hk Hnd']; subst. cbn [fst snd].
    rewrite dict_set_fresh by (apply Hfresh; now left).
    unfold Dict.update in IH. rewrite IH; [now rewrite <- app_assoc|exact Hnd'|].
    intros k' Hk'. rewrite map_app, in_app_iff. cbn.
    intros [H|[<-|[]]]; [|contradiction].
    revert H. apply Hfresh. now right.
Qed.

Lemma NoDup_combine_keys {A} (hs : list string) (row : list A) :
  NoDup hs -> NoDup (map fst (combine hs row)).
Proof.
  intros Hnd. revert row.
  induction Hnd as [|h hs Hh _ IH]; intros [|c row]; cbn; try constructor.
  - intros Hin. apply Hh. apply in_map_iff in Hin.
    destruct Hin as ([h' c'] & <- & Hin). now apply in_combine_l in Hin.
  - apply IH.
Qed.

(** With distinct headers the dictionary of a row pairs each header
    with the cell below it. *)
Lemma read_dicts_distinct g :
  NoDup (Grid.headers g) ->
  Forall (fun row => len (Grid.headers g) <= len row) (Grid.rows g) ->
  EntryGrid._read_as_dict g
  = Ok (map (combine (Grid.headers g)) (Grid.rows g)).
Proof.
  intros Hnd Hrows. unfold EntryGrid._read_as_dict.
  apply map_result_ok. eapply Forall_impl; [|exact Hrows]. cbn.
  intros row Hlen. rewrite row_dict_spec by lia. cbn [Z.to_nat skipn].
  rewrite update_distinct; [reflexivity|now apply NoDup_combine_keys|].
  intros k _ [].
Qed.

Lemma read_dicts_ok g :
  Forall (fun row => len (Grid.headers g) <= len row) (Grid.rows g) ->
  EntryGrid._read_as_dict g
  = Ok (map (fun row => Dict.update [] (combine (Grid.headers g) row))
            (Grid.rows g)).
Proof.
  intros Hrows. unfold EntryGrid._read_as_dict.
  apply map_result_ok. eapply Forall_impl; [|exact Hrows]. cbn.
  intros row Hlen. now rewrite row_dict_spec by lia.
Qed.

Lemma row_dict_only_index_error hs row :
  forall i d e,
    EntryGrid.row_dict hs i row d = Raise e -> e = IndexError.
Proof.
  induction hs as [|h hs IH]; intros i d e; cbn [EntryGrid.row_dict];
    [discriminate|].
  destruct (index row i) as [v|e1] eqn:E; cbn [bind].
  - intros H. exact (IH _ _ _ H).
  - intros [= <-]. now apply index_only_index_error in E.
Qed.

Lemma read_dicts_short_row g row :
  In row (Grid.rows g) -> len row < len (Grid.headers g) ->
  EntryGrid._read_as_dict g = Raise IndexError.
Proof.
  intros Hin Hshort. unfold EntryGrid._read_as_dict.
  apply (map_result_in_raise _ _ row); [|exact Hin|].
  - intros r e'. apply row_dict_only_index_error.
  - apply row_dict_short; pose proof (len_nonneg row); lia.
Qed.

Lemma map_result_ext {A B} (f g : A -> Result B) (xs : list A) :
  Forall (fun x => f x = g x) xs -> map_result f xs = map_result g xs.
Proof.
  induction 1 as [|x xs Hx _ IH]; cbn; [reflexivity|]. now rewrite Hx, IH.
Qed.

Lemma len_firstn_le {A} (row : list A) (n : Z) :
  n <= len row -> len (firstn (Z.to_nat n) row) = Z.max 0 n.
Proof. intros H. unfold len in *. rewrite length_firstn. lia. Qed.

Lemma index_firstn {A} (row : list A) (n i : Z) :
  0 <= i < n -> n <= len row ->
  index (firstn (Z.to_nat n) row) i = index row i.
Proof.
  intros Hi Hn. unfold index.
  rewrite len_firstn_le by exact Hn.
  replace (i <? 0) with false by lia.
  replace ((i <? 0) || (Z.max 0 n <=? i)) with false by lia.
  replace ((i <? 0) || (len row <=? i)) with false by lia.
  rewrite nth_error_firstn.
  replace (Z.to_nat i <? Z.to_nat n)%nat with true; [reflexivity|].
  symmetry. apply Nat.ltb_lt. lia.
Qed.

(** The first [n] cells of a row that has them. *)
Lemma read_row_prefix (row : list string) (n : Z) :
  n <= len row ->
  map_result (index row) (range 0 n) = Ok (firstn (Z.to_nat n) row).
Proof.
  intros Hn.
  rewrite <- (read_row_cells (firstn (Z.to_nat n) row)).
  rewrite len_firstn_le by exact Hn.
  replace (range 0 (Z.max 0 n)) with (range 0 n)
    by (unfold range; do 2 f_equal; lia).
  apply map_result_ext. pose proof (range_bounds 0 n) as Hb.
  eapply Forall_impl; [|exact Hb]. cbn. intros i Hi.
  symmetry. now apply index_firstn.
Qed.

Lemma read_row_short (row : list string) (n : Z) :
  len row < n -> map_result (index row) (range 0 n) = Raise IndexError.
Proof.
  intros Hshort.
  apply (map_result_in_raise _ _ (len row)).
  - intros y e'. apply index_only_index_error.
  - apply In_range. pose proof (len_nonneg row). lia.
  - unfold index. pose proof (len_nonneg row).
    destruct (len row <? 0) eqn:E; [lia|]. cbv iota. rewrite E.
    replace (len row <=? len row) with true by lia. reflexivity.
Qed.

Lemma read_table_prefixes g :
  Forall (fun row => Grid.num_of_columns g <= len row) (Grid.rows g) ->
  EntryGrid._read_as_table g
  = Ok (map (firstn (Z.to_nat (Grid.num_of_columns g))) (Grid.rows g)).
Proof.
  intros H. unfold EntryGrid._read_as_table. apply map_result_ok.
  eapply Forall_impl; [|exact H]. cbn. intros row. apply read_row_prefix.
Qed.

Lemma read_table_raises g :
  Exists (fun row => len row < Grid.num_of_columns g) (Grid.rows g) ->
  EntryGrid._read_as_table g = Raise IndexError.
Proof.
  intros H. apply Exists_exists in H. destruct H as (row & Hin & Hshort).
  unfold EntryGrid._read_as_table.
  apply (map_result_in_raise _ _ row); [|exact Hin|now apply read_row_short].
  intros r. apply map_result_only. intros y e'. apply index_only_index_error.
Qed.

Lemma read_dicts_raises g :
  Exists (fun row => len row < len (Grid.headers g)) (Grid.rows g) ->
  EntryGrid._read_as_dict g = Raise IndexError.
Proof.
  intros H. apply Exists_exists in H. destruct H as (row & Hin & Hshort).
  now apply (read_dicts_short_row g row).
Qed.

(** X3. [EntryGrid.read(as_dicts=False)] reads the first
    [num_of_columns] cells of every row: it returns them when every row
    has that many cells, and raises [IndexError] as soon as one row is
    shorter. A grid without headers takes such a row: [add_row] checks
    the length of the data against the headers only, so that a non-empty
    row of fewer than [num_of_columns] values is added and the grid can
    then no longer be read as a table. *)
Theorem read_as_table_outcome (g : Grid.t) :
  let n := Grid.num_of_columns g in
  (Forall (fun row => n <= len row) (Grid.rows g) ->
   EntryGrid.read false g
   = Ok (EntryGrid.AsTable (map (firstn (Z.to_nat n)) (Grid.rows g))))
  /\ (Exists (fun row => len row < n) (Grid.rows g) ->
      EntryGrid.read false g = Raise IndexError)
  /\ (forall data,
         Grid.headers g = [] -> data <> [] -> len data < n ->
         exists g',
           EntryGrid.add_row (Some data) g = Ok g'
           /\ Grid.rows g' = Grid.rows g ++ [data]
           /\ EntryGrid.read false g' = Raise IndexError).
Proof.
  intros n. unfold EntryGrid.read. split; [|split].
  - intros H. now rewrite read_table_prefixes.
  - intros H. now rewrite read_table_raises.
  - intros data Hh Hdata Hshort.
    assert (Hg : grid_inv g).
    { split; [exact Hh|]. pose proof (len_nonneg data). fold n. lia. }
    rewrite add_row_shown by exact Hg. eexists. split; [reflexivity|].
    destruct data as [|e es]; [contradiction|]. cbn [shown_row Grid.rows].
    split; [reflexivity|]. rewrite read_table_raises; [reflexivity|].
    cbn [Grid.rows Grid.num_of_columns]. apply Exists_exists.
    exists (e :: es). split; [|exact Hshort].
    apply in_or_app. right. now left.
Qed.

(** X4. [EntryGrid.read()] (as dictionaries) pairs, row by row, every
    header with the cell below it: on rows that have a cell for every
    header it returns one dictionary per row, which for distinct
    headers lists the headers in order, each with its cell; a row with
    fewer cells than there are headers makes it raise [IndexError]. On a
    grid without headers it returns one empty dictionary per row,
    whatever the rows hold. *)
Theorem read_as_dict_outcome (g : Grid.t) :
  let hs := Grid.headers g in
  (Forall (fun row => len hs <= len row) (Grid.rows g) ->
   EntryGrid.read true g
   = Ok (EntryGrid.AsDicts
           (map (fun row => Dict.update [] (combine hs row)) (Grid.rows g)))
   /\ (NoDup hs ->
       EntryGrid.read true g
       = Ok (EntryGrid.AsDicts (map (combine hs) (Grid.rows g)))))
  /\ (Exists (fun row => len row < len hs) (Grid.rows g) ->
      EntryGrid.read true g = Raise IndexError)
  /\ (hs = [] ->
      EntryGrid.read true g
      = Ok (EntryGrid.AsDicts
              (repeat [] (List.length (Grid.rows g))))).
Proof.
  intros hs. unfold EntryGrid.read. split; [|split].
  - intros H. split.
    + now rewrite read_dicts_ok.
    + intros Hnd. now rewrite read_dicts_distinct.
  - intros H. now rewrite read_dicts_raises.
  - intros Hhs. rewrite read_dicts_ok.
    + cbn [bind]. do 2 f_equal. fold hs. rewrite Hhs.
      induction (Grid.rows g) as [|row rows IH]; cbn; [reflexivity|].
      now f_equal.
    + fold hs. rewrite Hhs. apply Forall_forall. intros row _.
      apply len_nonneg.
Qed.

(** ** The rows of a grid with headers *)

Lemma Forall_removed {A} (P : A -> Prop) (l : list A) :
  Forall P l -> forall j, Forall P (firstn j l ++ skipn (S j) l).
Proof.
  induction 1 as [|x l Hx Hl IH]; intros [|j]; cbn; auto.
Qed.

Lemma remove_row_keeps i g g' :
  Grid.remove_row i g = Ok g' ->
  Grid.headers g' = Grid.headers g
  /\ Grid.num_of_columns g' = Grid.num_of_columns g
  /\ forall P, Forall P (Grid.rows g) -> Forall P (Grid.rows g').
Proof.
  unfold Grid.remove_row, Grid.pop.
  destruct (len (Grid.rows g) =? 0); [intros [= <-]; auto|].
  destruct (negb _); cbn [bind]; [discriminate|].
  destruct (_ || _); cbn [bind]; [discriminate|].
  intros [= <-]. cbn. split; [reflexivity|]. split; [reflexivity|].
  intros P H. now apply Forall_removed.
Qed.

Lemma len_blank_row (n : Z) :
  len (map (fun _ : Z => EmptyString) (range 0 n)) = Z.max 0 n.
Proof. unfold len, range. rewrite !length_map, length_seq. lia. Qed.

Lemma headed_init n hs g0 :
  hs <> [] -> Grid.__init__ n (Some hs) = Ok g0 -> headed hs g0.
Proof.
  intros Hhs. unfold Grid.__init__. destruct hs as [|h hs]; [contradiction|].
  destruct (len (h :: hs) =? n) eqn:E; cbn [negb]; [|discriminate].
  intros [= <-]. split; [reflexivity|]. split; [|constructor].
  cbn [Grid.num_of_columns]. lia.
Qed.

Lemma headed_remove hs i g g' :
  headed hs g -> Grid.remove_row i g = Ok g' -> headed hs g'.
Proof.
  intros (Hh & Hn & Hrect) E. apply remove_row_keeps in E.
  destruct E as (Eh & En & Erows). unfold headed, rectangular.
  rewrite Eh, En. auto.
Qed.

Lemma headed_clear hs g g' :
  headed hs g -> Grid.clear g = Ok g' -> headed hs g'.
Proof.
  intros (Hh & Hn & Hrect). rewrite clear_spec. intros [= <-].
  repeat split; cbn; auto. constructor.
Qed.

Lemma headed_entry_add hs data g g' :
  hs <> [] -> headed hs g -> EntryGrid.add_row data g = Ok g' -> headed hs g'.
Proof.
  intros Hhs (Hh & Hn & Hrect). unfold EntryGrid.add_row.
  rewrite Hh, Hn. destruct hs as [|h hs]; [contradiction|].
  cbn [truthy andb].
  destruct data as [[|e es]|]; cbn [truthy_opt truthy andb].
  - destruct (index _ _); cbn [bind]; [|discriminate]. intros [= <-].
    split; [reflexivity|]. split; [reflexivity|].
    apply Forall_app. split; [exact Hrect|].
    constructor; [|constructor]. rewrite len_blank_row.
    pose proof (len_nonneg (h :: hs)). lia.
  - destruct (len (h :: hs) =? len (e :: es)) eqn:E; cbn [negb];
      [|discriminate].
    destruct (index _ _); cbn [bind]; [|discriminate]. intros [= <-].
    split; [reflexivity|]. split; [reflexivity|].
    apply Forall_app. split; [exact Hrect|].
    constructor; [lia|constructor].
  - destruct (index _ _); cbn [bind]; [|discriminate]. intros [= <-].
    split; [reflexivity|]. split; [reflexivity|].
    apply Forall_app. split; [exact Hrect|].
    constructor; [|constructor]. rewrite len_blank_row.
    pose proof (len_nonneg (h :: hs)). lia.
Qed.

Lemma entry_grid_headed n hs g0 g :
  hs <> [] -> EntryGrid.__init__ n (Some hs) = Ok g0 ->
  entry_grid_from g0 g -> headed hs g.
Proof.
  intros Hhs E. induction 1 as [|data g g' _ IH Ea|i g g' _ IH Er|g g' _ IH Ec].
  - now apply (headed_init n).
  - now apply (headed_entry_add hs data g).
  - now apply (headed_remove hs i g).
  - now apply (headed_clear hs g).
Qed.

(** X5. An [EntryGrid] built with (non-empty) headers keeps, through
    every [add_row], [remove_row] and [clear], its headers and a cell
    under each header in every row; so it can always be read: as a table
    it gives back the rows as they are, and as dictionaries one
    dictionary per row, which for distinct headers pairs the headers in
    order with the cells of the row. *)
Theorem entry_grid_with_headers (n : Z) (hs : list string) (g0 g : Grid.t) :
  hs <> [] -> EntryGrid.__init__ n (Some hs) = Ok g0 ->
  entry_grid_from g0 g ->
  Grid.headers g = hs
  /\ Grid.num_of_columns g = n
  /\ Forall (fun row => len row = n) (Grid.rows g)
  /\ EntryGrid.read false g = Ok (EntryGrid.AsTable (Grid.rows g))
  /\ (exists ds,
         EntryGrid.read true g = Ok (EntryGrid.AsDicts ds)
         /\ List.length ds = List.length (Grid.rows g))
  /\ (NoDup hs ->
      EntryGrid.read true g
      = Ok (EntryGrid.AsDicts (map (combine hs) (Grid.rows g)))).
Proof.
  intros Hhs E Hfrom.
  assert (En : len hs = n).
  { revert E. unfold EntryGrid.__init__, Grid.__init__.
    destruct hs as [|h l]; [contradiction|].
    destruct (len (h :: l) =? n) eqn:E; cbn [negb]; [lia|discriminate]. }
  destruct (entry_grid_headed n hs g0 g Hhs E Hfrom) as (Hh & Hn & Hrect).
  rewrite En in *. split; [exact Hh|]. split; [exact Hn|].
  split; [exact Hrect|].
  assert (Hle : Forall (fun row => len (Grid.headers g) <= len row)
                       (Grid.rows g)).
  { eapply Forall_impl; [|exact Hrect]. cbn. intros row ->. rewrite Hh. lia. }
  unfold EntryGrid.read. split; [|split].
  - rewrite read_table_rectangular; [reflexivity|].
    unfold rectangular. now rewrite Hn.
  - rewrite read_dicts_ok by exact Hle. cbn [bind]. eexists.
    split; [reflexivity|]. now rewrite length_map.
  - intros Hnd. rewrite read_dicts_distinct; rewrite ?Hh; trivial.
    now rewrite <- Hh.
Qed.

Lemma entry_grid_with_headers_witness :
  let hs := ["name"; "unit"]%string in
  let g0 := Grid.mk hs [] 2 in
  let g := Grid.mk hs [["mass"; "kg"]%string] 2 in
  hs <> [] /\ EntryGrid.__init__ 2 (Some hs) = Ok g0 /\ entry_grid_from g0 g
  /\ EntryGrid.read true g
     = Ok (EntryGrid.AsDicts
             [[("name", "mass"); ("unit", "kg")]%string]).
Proof.
  intros hs g0 g.
  assert (Hhs : hs <> []) by discriminate.
  assert (E : EntryGrid.__init__ 2 (Some hs) = Ok g0) by reflexivity.
  assert (Hfrom : entry_grid_from g0 g).
  { apply (entry_grid_add g0 (Some ["mass"; "kg"]%string) g0);
      [apply entry_grid_start|reflexivity]. }
  split; [exact Hhs|]. split; [exact E|]. split; [exact Hfrom|].
  refine (proj2 (proj2 (proj2 (proj2 (proj2
            (entry_grid_with_headers 2 hs g0 g Hhs E Hfrom))))) _).
  repeat constructor; cbn; intuition discriminate.
Defined.

Lemma blank_row_index (n : Z) :
  (exists a, index (map (fun _ : Z => EmptyString) (range 0 n)) (-1) = Ok a)
  <-> 0 < n.
Proof.
  set (row := map (fun _ : Z => EmptyString) (range 0 n)).
  assert (Hlen : len row = Z.max 0 n) by apply len_blank_row.
  split.
  - intros [a Ha]. unfold index in Ha. rewrite Hlen in Ha.
    destruct (Z_lt_le_dec 0 n) as [H|H]; [exact H|exfalso].
    replace (Z.max 0 n) with 0 in Ha by lia. cbn in Ha. discriminate.
  - intros Hn. rewrite (index_nth_wrapped row (-1) EmptyString); [eauto|].
    rewrite Hlen. lia.
Qed.

(** X6. What [EntryGrid.add_row] does on any grid. It raises
    [ValueError] exactly when the grid has headers and the data is a
    non-empty list of another length than the headers. It raises
    [IndexError] exactly when there is no data (none given, or an empty
    list) and the grid has no column to make blank cells for: the row
    made is then empty, and the last entry of the row, which gets the
    [<Tab>] binding, does not exist. In every other case it appends one
    row: the data, or [num_of_columns] blank cells. *)
Theorem entry_grid_add_row_outcome (data : option (list string))
    (g : Grid.t) :
  let hs := Grid.headers g in
  let n := Grid.num_of_columns g in
  let given := match data with Some d => d | None => [] end in
  (EntryGrid.add_row data g = Raise ValueError
   <-> hs <> [] /\ given <> [] /\ len hs <> len given)
  /\ (EntryGrid.add_row data g = Raise IndexError <-> given = [] /\ n <= 0)
  /\ (forall g',
         EntryGrid.add_row data g = Ok g'
         <-> ~ (hs <> [] /\ given <> [] /\ len hs <> len given)
             /\ ~ (given = [] /\ n <= 0)
             /\ g' = Grid.mk hs (Grid.rows g ++ [shown_row n given]) n).
Proof.
  intros hs n given. unfold EntryGrid.add_row. fold hs n.
  assert (Hd : truthy_opt data = truthy given) by now destruct data.
  rewrite Hd. fold given.
  replace (match data with
           | Some (e :: es) => e :: es
           | _ => map (fun _ => EmptyString) (range 0 n)
           end) with (shown_row n given)
    by (destruct data as [[|e es]|]; reflexivity).
  destruct hs as [|h hs']; cbn [truthy andb].
  - destruct given as [|e es]; cbn [shown_row].
    + pose proof (blank_row_index n) as Hb.
      destruct (index _ (-1)) as [a|e] eqn:E; cbn [bind].
      * assert (0 < n) by (apply Hb; eauto).
        split; [split; [discriminate|tauto]|].
        split; [split; [discriminate|intros [_ ?]; lia]|].
        intros g'. split.
        -- intros [= <-]. split; [tauto|]. split; [|reflexivity].
           intros [_ ?]. lia.
        -- intros (_ & _ & ->). reflexivity.
      * assert (He : e = IndexError) by now apply index_only_index_error in E.
        subst e.
        assert (n <= 0).
        { destruct (Z_lt_le_dec 0 n) as [H|H]; [|exact H].
          apply Hb in H. destruct H. discriminate. }
        split; [split; [discriminate|tauto]|].
        split; [split; auto|].
        intros g'. split; [discriminate|]. intros (_ & H' & _). tauto.
    + destruct (index_last e es) as [a ->]. cbn [bind].
      split; [split; [discriminate|tauto]|].
      split; [split; [discriminate|intros [? _]; discriminate]|].
      intros g'. split.
      * intros [= <-]. split; [tauto|]. split; [|reflexivity].
        intros [? _]. discriminate.
      * intros (_ & _ & ->). reflexivity.
  - destruct given as [|e es]; cbn [truthy andb shown_row].
    + pose proof (blank_row_index n) as Hb.
      destruct (index _ (-1)) as [a|e] eqn:E; cbn [bind].
      * assert (0 < n) by (apply Hb; eauto).
        split; [split; [discriminate|tauto]|].
        split; [split; [discriminate|intros [_ ?]; lia]|].
        intros g'. split.
        -- intros [= <-]. split; [tauto|]. split; [|reflexivity].
           intros [_ ?]. lia.
        -- intros (_ & _ & ->). reflexivity.
      * assert (He : e = IndexError) by now apply index_only_index_error in E.
        subst e.
        assert (n <= 0).
        { destruct (Z_lt_le_dec 0 n) as [H|H]; [|exact H].
          apply Hb in H. destruct H. discriminate. }
        split; [split; [discriminate|tauto]|].
        split; [split; auto|].
        intros g'. split; [discriminate|]. intros (_ & H' & _). tauto.
    + destruct (len (h :: hs') =? len (e :: es)) eqn:El; cbn [negb].
      * destruct (index_last e es) as [a ->]. cbn [bind].
        split; [split; [discriminate|intros (_ & _ & ?); lia]|].
        split; [split; [discriminate|intros [? _]; discriminate]|].
        intros g'. split.
        -- intros [= <-]. split; [intros (_ & _ & ?); lia|].
           split; [|reflexivity]. intros [? _]. discriminate.
        -- intros (_ & _ & ->). reflexivity.
      * split; [split; [intros _|reflexivity]|].
        { split; [discriminate|]. split; [discriminate|lia]. }
        split; [split; [discriminate|intros [? _]; discriminate]|].
        intros g'. split; [discriminate|]. intros (H' & _). exfalso.
        apply H'. split; [discriminate|]. split; [discriminate|lia].
Qed.

(** ** [LabelGrid] *)

Lemma headed_label_add hs data g g' :
  hs <> [] -> headed hs g -> LabelGrid.add_row data g = Ok g' -> headed hs g'.
Proof.
  intros Hhs (Hh & Hn & Hrect). unfold LabelGrid.add_row.
  rewrite Hh, Hn. destruct hs as [|h hs]; [contradiction|].
  cbn [truthy andb].
  destruct (len (h :: hs) =? len data) eqn:E; cbn [negb]; [|discriminate].
  intros [= <-]. split; [reflexivity|]. split; [reflexivity|].
  apply Forall_app. split; [exact Hrect|]. constructor; [lia|constructor].
Qed.

Lemma label_grid_headed n hs g0 g :
  hs <> [] -> LabelGrid.__init__ n (Some hs) = Ok g0 ->
  label_grid_from g0 g -> headed hs g.
Proof.
  intros Hhs E. induction 1 as [|data g g' _ IH Ea|i g g' _ IH Er|g g' _ IH Ec].
  - now apply (headed_init n).
  - now apply (headed_label_add hs data g).
  - now apply (headed_remove hs i g).
  - now apply (headed_clear hs g).
Qed.

(** X7. A [LabelGrid] built with (non-empty) headers has, after any
    [add_row], [remove_row] and [clear], only rows with one label per
    header: [add_row] raises [ValueError] on data of any other length,
    the empty list included, and appends the data as the last row
    otherwise. *)
Theorem label_grid_with_headers (n : Z) (hs : list string)
    (g0 g : Grid.t) :
  hs <> [] -> LabelGrid.__init__ n (Some hs) = Ok g0 ->
  label_grid_from g0 g ->
  Grid.headers g = hs
  /\ Forall (fun row => len row = n) (Grid.rows g)
  /\ forall data,
      (LabelGrid.add_row data g = Raise ValueError <-> len data <> n)
      /\ (len data = n ->
          LabelGrid.add_row data g
          = Ok (Grid.mk hs (Grid.rows g ++ [data]) n)).
Proof.
  intros Hhs E Hfrom.
  assert (En : len hs = n).
  { revert E. unfold LabelGrid.__init__, Grid.__init__.
    destruct hs as [|h l]; [contradiction|].
    destruct (len (h :: l) =? n) eqn:E; cbn [negb]; [lia|discriminate]. }
  destruct (label_grid_headed n hs g0 g Hhs E Hfrom) as (Hh & Hn & Hrect).
  rewrite En in *. split; [exact Hh|]. split; [exact Hrect|].
  intros data. unfold LabelGrid.add_row. rewrite Hh, Hn.
  destruct hs as [|h l]; [contradiction|]. cbn [truthy andb].
  rewrite En. destruct (n =? len data) eqn:El; cbn [negb].
  - split; [split; [discriminate|lia]|reflexivity].
  - split; [split; [lia|reflexivity]|lia].
Qed.

Lemma label_grid_with_headers_witness :
  let hs := ["name"; "unit"]%string in
  let g0 := Grid.mk hs [] 2 in
  hs <> [] /\ LabelGrid.__init__ 2 (Some hs) = Ok g0 /\ label_grid_from g0 g0
  /\ LabelGrid.add_row ["mass"]%string g0 = Raise ValueError.
Proof.
  intros hs g0.
  assert (Hhs : hs <> []) by discriminate.
  assert (E : LabelGrid.__init__ 2 (Some hs) = Ok g0) by reflexivity.
  assert (Hfrom : label_grid_from g0 g0) by apply label_grid_start.
  split; [exact Hhs|]. split; [exact E|]. split; [exact Hfrom|].
  apply (proj2 (proj2 (label_grid_with_headers 2 hs g0 g0 Hhs E Hfrom))
           ["mass"]%string).
  cbn. lia.
Defined.

(** ** [ButtonGrid] *)

(** X8. [ButtonGrid.add_row] called without data, as its default
    argument allows, always raises [TypeError]: the loop over the data
    has nothing to go through. With data it raises [ValueError] exactly
    when the grid has headers and the data is non-empty and of another
    length than the headers, and otherwise appends one row with the
    buttons' texts; so an empty list is taken by every grid and gives a
    row without buttons. *)
Theorem button_grid_add_row_outcome (C : Type) (g : Grid.t) :
  ButtonGrid.add_row (@None (list (string * C))) g = Raise TypeError
  /\ (forall d : list (string * C),
         (ButtonGrid.add_row (Some d) g = Raise ValueError
          <-> Grid.headers g <> [] /\ d <> []
              /\ len (Grid.headers g) <> len d)
         /\ (~ (Grid.headers g <> [] /\ d <> []
                /\ len (Grid.headers g) <> len d) ->
             ButtonGrid.add_row (Some d) g
             = Ok (Grid.mk (Grid.headers g) (Grid.rows g ++ [map fst d])
                           (Grid.num_of_columns g))))
  /\ ButtonGrid.add_row (Some (@nil (string * C))) g
     = Ok (Grid.mk (Grid.headers g) (Grid.rows g ++ [[]])
                   (Grid.num_of_columns g)).
Proof.
  unfold ButtonGrid.add_row. split; [|split].
  - cbn [truthy_opt]. now rewrite andb_false_r.
  - intros d. cbn [truthy_opt].
    destruct (Grid.headers g) as [|h hs]; cbn [truthy andb].
    + split; [split; [discriminate|tauto]|reflexivity].
    + destruct d as [|b bs]; cbn [truthy andb].
      * split; [split; [discriminate|tauto]|reflexivity].
      * destruct (len (h :: hs) =? len (b :: bs)) eqn:E; cbn [negb].
        -- split; [split; [discriminate|intros (_ & _ & ?); lia]|reflexivity].
        -- split; [split; [intros _|reflexivity]|].
           ++ split; [discriminate|]. split; [discriminate|lia].
           ++ intros H. exfalso. apply H.
              split; [discriminate|]. split; [discriminate|lia].
  - cbn [truthy_opt truthy]. now rewrite andb_false_r.
Qed.

(** ** The reader shows the window at its position *)

(** Reading the sheet into the cleared grid of a reader that is put at
    position [p]. *)
Lemma reload_window sheet rtd ctd p r :
  shows_window sheet rtd ctd r -> 0 <= rtd -> 0 <= fst p -> 0 <= snd p ->
  let g := Grid.mk (Grid.headers (SpreadSheetReader.entry_grid r)) []
                   (Grid.num_of_columns (SpreadSheetReader.entry_grid r)) in
  let r1 := SpreadSheetReader.with_position p
              (SpreadSheetReader.with_grid g r) in
  exists r',
    SpreadSheetReader.read_xl (fst (SpreadSheetReader.current_position r1))
      (snd (SpreadSheetReader.current_position r1)) r1 = Ok r'
    /\ shows_window sheet rtd ctd r'
    /\ SpreadSheetReader.current_position r' = p
    /\ SpreadSheetReader.opened r' = S (SpreadSheetReader.opened r).
Proof.
  intros (Hs & Hr & Hc & Hrp & Hcp & Hg) Hrtd Hp1 Hp2 g r1.
  unfold SpreadSheetReader.read_xl.
  cbn [r1 SpreadSheetReader.with_position SpreadSheetReader.with_grid
       SpreadSheetReader.current_position SpreadSheetReader.rows_to_display
       SpreadSheetReader.cols_to_display SpreadSheetReader.sheet
       SpreadSheetReader.entry_grid SpreadSheetReader.opened].
  rewrite Hs, Hr, Hc.
  assert (Eg : g = Grid.mk [] [] 8) by (unfold g; now rewrite Hg).
  rewrite Eg.
  rewrite read_rows_window; [|split; [reflexivity|cbn; lia]|lia|lia].
  cbn [bind]. eexists. split; [reflexivity|].
  split; [|split; reflexivity].
  unfold shows_window. cbn. repeat (split; [trivial; lia|]).
  unfold window. rewrite Z.sub_0_r.
  replace (fst p + rtd + 1 - Z.max 0 (fst p)) with (rtd + 1) by lia.
  reflexivity.
Qed.

Lemma init_shows_window sheet rtd ctd r0 :
  0 <= rtd -> SpreadSheetReader.__init__ sheet rtd ctd = Ok r0 ->
  shows_window sheet rtd ctd r0
  /\ SpreadSheetReader.current_position r0 = (0, 0).
Proof.
  intros Hrtd. unfold SpreadSheetReader.__init__.
  cbn [EntryGrid.__init__ Grid.__init__ bind].
  unfold SpreadSheetReader.read_xl.
  cbn [SpreadSheetReader.current_position SpreadSheetReader.rows_to_display
       SpreadSheetReader.cols_to_display SpreadSheetReader.sheet
       SpreadSheetReader.entry_grid SpreadSheetReader.opened].
  rewrite read_rows_window; [|split; [reflexivity|cbn; lia]|lia|lia].
  cbn [bind]. intros [= <-]. split; [|reflexivity].
  unfold shows_window. cbn. repeat (split; [trivial; lia|]).
  unfold window. rewrite Z.sub_0_r. reflexivity.
Qed.

Section Window.
Variables (sheet : list (list string)) (rtd ctd : Z).
Hypotheses (Hrtd : 0 <= rtd) (Hctd : 0 <= ctd).
Variable r : SpreadSheetReader.t.
Hypothesis Hr : shows_window sheet rtd ctd r.

Let rp := fst (SpreadSheetReader.current_position r).
Let cp := snd (SpreadSheetReader.current_position r).

Ltac start_move f :=
  unfold f;
  pose proof Hr as (Hs & Hrows & Hcols & Hrp & Hcp & Hg);
  destruct (SpreadSheetReader.current_position r) as [rp0 cp0] eqn:Epos;
  subst rp cp; cbn [fst snd] in *.

Ltac reload :=
  rewrite clear_spec; cbn [bind]; cbv zeta;
  match goal with
  | |- context [SpreadSheetReader.read_xl _ _
                  (SpreadSheetReader.with_position ?p _)] =>
      destruct (reload_window sheet rtd ctd p r Hr Hrtd)
        as (r' & E & Hw & Hpos & Hop);
      [cbn [fst snd SpreadSheetReader.with_grid
            SpreadSheetReader.rows_to_display
            SpreadSheetReader.cols_to_display]; lia..|]
  end.

Ltac reloaded E Hw Hpos Hop Hrows Hcols :=
  split; [exact E|]; split; [exact Hw|]; split; [|exact Hop];
  rewrite Hpos;
  cbn [SpreadSheetReader.with_grid SpreadSheetReader.rows_to_display
       SpreadSheetReader.cols_to_display];
  rewrite ?Hrows, ?Hcols; reflexivity.

Lemma move_down_window (page : bool) :
  exists r',
    SpreadSheetReader.move_down page r = Ok r'
    /\ shows_window sheet rtd ctd r'
    /\ SpreadSheetReader.current_position r'
       = (rp + (if page then rtd else 1), cp)
    /\ SpreadSheetReader.opened r' = S (SpreadSheetReader.opened r).
Proof using Hrtd Hctd Hr.
  start_move SpreadSheetReader.move_down.
  destruct page.
  - reload. exists r'. reloaded E Hw Hpos Hop Hrows Hcols.
  - reload. exists r'. reloaded E Hw Hpos Hop Hrows Hcols.
Qed.

Lemma move_right_window (page : bool) :
  exists r',
    SpreadSheetReader.move_right page r = Ok r'
    /\ shows_window sheet rtd ctd r'
    /\ SpreadSheetReader.current_position r'
       = (rp, cp + (if page then ctd else 1))
    /\ SpreadSheetReader.opened r' = S (SpreadSheetReader.opened r).
Proof using Hrtd Hctd Hr.
  start_move SpreadSheetReader.move_right.
  destruct page.
  - reload. exists r'. reloaded E Hw Hpos Hop Hrows Hcols.
  - reload. exists r'. reloaded E Hw Hpos Hop Hrows Hcols.
Qed.

Lemma move_up_window (page : bool) :
  (if page then rp <? rtd else rp =? 0) = true
  /\ SpreadSheetReader.move_up page r = Ok r
  \/
  (if page then rp <? rtd else rp =? 0) = false
  /\ exists r',
       SpreadSheetReader.move_up page r = Ok r'
       /\ shows_window sheet rtd ctd r'
       /\ SpreadSheetReader.current_position r'
          = (rp - (if page then rtd else 1), cp)
       /\ SpreadSheetReader.opened r' = S (SpreadSheetReader.opened r).
Proof using Hrtd Hctd Hr.
  start_move SpreadSheetReader.move_up. rewrite Hrows.
  destruct page; cbn [negb andb].
  - destruct (rp0 <? rtd) eqn:Eb; [left; auto|right; split; [reflexivity|]].
    reload. exists r'. reloaded E Hw Hpos Hop Hrows Hcols.
  - destruct (rp0 =? 0) eqn:Eb; [left; auto|right; split; [reflexivity|]].
    reload. exists r'. reloaded E Hw Hpos Hop Hrows Hcols.
Qed.

Lemma move_left_window (page : bool) :
  (if page then cp <? ctd else cp =? 0) = true
  /\ SpreadSheetReader.move_left page r = Ok r
  \/
  (if page then cp <? ctd else cp =? 0) = false
  /\ exists r',
       SpreadSheetReader.move_left page r = Ok r'
       /\ shows_window sheet rtd ctd r'
       /\ SpreadSheetReader.current_position r'
          = (rp, cp - (if page then ctd else 1))
       /\ SpreadSheetReader.opened r' = S (SpreadSheetReader.opened r).
Proof using Hrtd Hctd Hr.
  start_move SpreadSheetReader.move_left. rewrite Hcols.
  destruct page; cbn [negb andb].
  - destruct (cp0 <? ctd) eqn:Eb; [left; auto|right; split; [reflexivity|]].
    reload. exists r'. reloaded E Hw Hpos Hop Hrows Hcols.
  - destruct (cp0 =? 0) eqn:Eb; [left; auto|right; split; [reflexivity|]].
    reload. exists r'. reloaded E Hw Hpos Hop Hrows Hcols.
Qed.

End Window.

Lemma reader_from_window sheet rtd ctd r0 r :
  0 <= rtd -> 0 <= ctd ->
  SpreadSheetReader.__init__ sheet rtd ctd = Ok r0 ->
  reader_from r0 r -> shows_window sheet rtd ctd r.
Proof.
  intros Hrtd Hctd E.
  induction 1 as [|page r r' _ IH Em|page r r' _ IH Em
                  |page r r' _ IH Em|page r r' _ IH Em].
  - now apply init_shows_window.
  - destruct (move_right_window sheet rtd ctd Hrtd Hctd r IH page)
      as (r1 & E1 & Hw & _). congruence.
  - destruct (move_left_window sheet rtd ctd Hrtd Hctd r IH page)
      as [[_ E1]|[_ (r1 & E1 & Hw & _)]]; congruence.
  - destruct (move_down_window sheet rtd ctd Hrtd Hctd r IH page)
      as (r1 & E1 & Hw & _). congruence.
  - destruct (move_up_window sheet rtd ctd Hrtd Hctd r IH page)
      as [[_ E1]|[_ (r1 & E1 & Hw & _)]]; congruence.
Qed.

Lemma window_past_the_end sheet rtd ctd rp cp :
  len sheet <= rp -> window sheet rtd ctd rp cp = [].
Proof.
  intros H. unfold window.
  rewrite skipn_all2 by (unfold len in H; lia). now rewrite firstn_nil.
Qed.

Lemma window_length sheet rtd ctd rp cp :
  0 <= rtd -> 0 <= rp ->
  len (window sheet rtd ctd rp cp) = Z.min (rtd + 1) (Z.max 0 (len sheet - rp)).
Proof.
  intros Hrtd Hrp. unfold window, len.
  rewrite length_map, length_firstn, length_skipn. lia.
Qed.

(** X9. A reader built with non-negative page sizes and then moved
    about by its four moves always shows the window of the sheet at its
    position: the offsets never become negative, and the grid holds the
    sheet rows from the row offset on, at most [rows_to_display + 1] of
    them, each cut to the [cols_to_display] columns from the column
    offset on (a row that has no cell there is shown as 8 blank cells).
    Nothing bounds the offsets from above: once the row offset is at or
    past the end of the sheet, the grid is empty. *)
Theorem reader_shows_window (sheet : list (list string)) (rtd ctd : Z)
    (r0 r : SpreadSheetReader.t) :
  0 <= rtd -> 0 <= ctd ->
  SpreadSheetReader.__init__ sheet rtd ctd = Ok r0 ->
  reader_from r0 r ->
  let rp := fst (SpreadSheetReader.current_position r) in
  let cp := snd (SpreadSheetReader.current_position r) in
  let shown := Grid.rows (SpreadSheetReader.entry_grid r) in
  0 <= rp /\ 0 <= cp
  /\ SpreadSheetReader.sheet r = sheet
  /\ SpreadSheetReader.rows_to_display r = rtd
  /\ SpreadSheetReader.cols_to_display r = ctd
  /\ shown
     = map (fun row => shown_row 8 (slice row cp (cp + ctd)))
           (firstn (Z.to_nat (rtd + 1)) (skipn (Z.to_nat rp) sheet))
  /\ len shown = Z.min (rtd + 1) (Z.max 0 (len sheet - rp))
  /\ (len sheet <= rp -> shown = []).
Proof.
  intros Hrtd Hctd E Hfrom rp cp shown.
  destruct (reader_from_window sheet rtd ctd r0 r Hrtd Hctd E Hfrom)
    as (Hs & Hrows & Hcols & Hrp & Hcp & Hg).
  fold rp cp in Hrp, Hcp, Hg.
  assert (Hshown : shown = window sheet rtd ctd rp cp)
    by (unfold shown; now rewrite Hg).
  repeat (split; [assumption|]). rewrite Hshown.
  split; [now apply window_length|]. apply window_past_the_end.
Qed.

Lemma reader_shows_window_witness :
  let sheet := [["a"; "b"]; ["c"; "d"]; ["e"; "f"]]%string in
  exists r0 r1 r2,
    SpreadSheetReader.__init__ sheet 0 1 = Ok r0
    /\ SpreadSheetReader.move_down false r0 = Ok r1
    /\ SpreadSheetReader.move_right false r1 = Ok r2
    /\ reader_from r0 r2
    /\ Grid.rows (SpreadSheetReader.entry_grid r2)
       = map (fun row => shown_row 8 (slice row 1 (1 + 1)))
             (firstn (Z.to_nat (0 + 1)) (skipn (Z.to_nat 1) sheet)).
Proof.
  intros sheet.
  pose (g0 := Grid.mk [] [["a"]]%string 8).
  pose (g1 := Grid.mk [] [["c"]]%string 8).
  pose (g2 := Grid.mk [] [["d"]]%string 8).
  pose (r0 := SpreadSheetReader.mk sheet 0 1 (0, 0) g0 1).
  pose (r1 := SpreadSheetReader.mk sheet 0 1 (1, 0) g1 2).
  pose (r2 := SpreadSheetReader.mk sheet 0 1 (1, 1) g2 3).
  assert (E0 : SpreadSheetReader.__init__ sheet 0 1 = Ok r0) by reflexivity.
  assert (E1 : SpreadSheetReader.move_down false r0 = Ok r1) by reflexivity.
  assert (E2 : SpreadSheetReader.move_right false r1 = Ok r2) by reflexivity.
  assert (Hfrom : reader_from r0 r2).
  { apply (reader_right r0 false r1 r2); [|exact E2].
    apply (reader_down r0 false r0 r1); [apply reader_start|exact E1]. }
  exists r0, r1, r2. split; [exact E0|]. split; [exact E1|].
  split; [exact E2|]. split; [exact Hfrom|].
  assert (H0 : 0 <= 0) by lia. assert (H1 : 0 <= 1) by lia.
  exact (proj1 (proj2 (proj2 (proj2 (proj2 (proj2
           (reader_shows_window sheet 0 1 r0 r2 H0 H1 E0 Hfrom))))))).
Defined.

(** X10. On such a reader a move down followed by the matching move up
    (both by one row, or both by a page), and a move right followed by
    the matching move left, are always carried out and bring back the
    position and the rows shown; each of the two moves opens the
    workbook once more. The other order is no round trip at the edge:
    from the top row a move up is refused, so that a move up followed by
    a move down ends one row further down. *)
Theorem move_there_and_back (sheet : list (list string)) (rtd ctd : Z)
    (r0 r : SpreadSheetReader.t) (page : bool) :
  0 <= rtd -> 0 <= ctd ->
  SpreadSheetReader.__init__ sheet rtd ctd = Ok r0 ->
  reader_from r0 r ->
  (exists r1 r2,
      SpreadSheetReader.move_down page r = Ok r1
      /\ SpreadSheetReader.move_up page r1 = Ok r2
      /\ SpreadSheetReader.current_position r2
         = SpreadSheetReader.current_position r
      /\ SpreadSheetReader.entry_grid r2 = SpreadSheetReader.entry_grid r
      /\ SpreadSheetReader.opened r2 = S (S (SpreadSheetReader.opened r)))
  /\ (exists r1 r2,
         SpreadSheetReader.move_right page r = Ok r1
         /\ SpreadSheetReader.move_left page r1 = Ok r2
         /\ SpreadSheetReader.current_position r2
            = SpreadSheetReader.current_position r
         /\ SpreadSheetReader.entry_grid r2 = SpreadSheetReader.entry_grid r
         /\ SpreadSheetReader.opened r2 = S (S (SpreadSheetReader.opened r)))
  /\ (fst (SpreadSheetReader.current_position r) = 0 ->
      exists r1 r2,
        SpreadSheetReader.move_up false r = Ok r1
        /\ SpreadSheetReader.move_down false r1 = Ok r2
        /\ SpreadSheetReader.current_position r2
           = (1, snd (SpreadSheetReader.current_position r))).
Proof.
  intros Hrtd Hctd E Hfrom.
  pose proof (reader_from_window sheet rtd ctd r0 r Hrtd Hctd E Hfrom) as Hw.
  pose proof Hw as (Hs & Hrows & Hcols & Hrp & Hcp & Hg).
  destruct (SpreadSheetReader.current_position r) as [rp cp] eqn:Epos.
  cbn [fst snd] in *.
  split; [|split].
  - destruct (move_down_window sheet rtd ctd Hrtd Hctd r Hw page)
      as (r1 & E1 & Hw1 & Hp1 & Ho1).
    rewrite Epos in Hp1. cbn [fst snd] in Hp1.
    destruct (move_up_window sheet rtd ctd Hrtd Hctd r1 Hw1 page)
      as [[Hb _]|[_ (r2 & E2 & Hw2 & Hp2 & Ho2)]].
    + rewrite Hp1 in Hb. cbn [fst] in Hb. destruct page; lia.
    + exists r1, r2. split; [exact E1|]. split; [exact E2|].
      rewrite Hp1 in Hp2. cbn [fst snd] in Hp2.
      assert (Hp : SpreadSheetReader.current_position r2 = (rp, cp))
        by (rewrite Hp2; f_equal; lia).
      split; [exact Hp|]. split; [|congruence].
      destruct Hw2 as (_ & _ & _ & _ & _ & Hg2). rewrite Hg2, Hg, Hp.
      reflexivity.
  - destruct (move_right_window sheet rtd ctd Hrtd Hctd r Hw page)
      as (r1 & E1 & Hw1 & Hp1 & Ho1).
    rewrite Epos in Hp1. cbn [fst snd] in Hp1.
    destruct (move_left_window sheet rtd ctd Hrtd Hctd r1 Hw1 page)
      as [[Hb _]|[_ (r2 & E2 & Hw2 & Hp2 & Ho2)]].
    + rewrite Hp1 in Hb. cbn [snd] in Hb. destruct page; lia.
    + exists r1, r2. split; [exact E1|]. split; [exact E2|].
      rewrite Hp1 in Hp2. cbn [fst snd] in Hp2.
      assert (Hp : SpreadSheetReader.current_position r2 = (rp, cp))
        by (rewrite Hp2; f_equal; lia).
      split; [exact Hp|]. split; [|congruence].
      destruct Hw2 as (_ & _ & _ & _ & _ & Hg2). rewrite Hg2, Hg, Hp.
      reflexivity.
  - intros ->.
    destruct (move_up_window sheet rtd ctd Hrtd Hctd r Hw false)
      as [[_ E1]|[Hb _]].
    + destruct (move_down_window sheet rtd ctd Hrtd Hctd r Hw false)
        as (r2 & E2 & _ & Hp2 & _).
      exists r, r2. split; [exact E1|]. split; [exact E2|].
      rewrite Hp2, Epos. reflexivity.
    + rewrite Epos in Hb. cbn in Hb. discriminate.
Qed.

Lemma move_there_and_back_witness :
  let sheet := [["a"; "b"]; ["c"; "d"]; ["e"; "f"]]%string in
  exists r0,
    SpreadSheetReader.__init__ sheet 0 1 = Ok r0
    /\ reader_from r0 r0
    /\ exists r1 r2,
        SpreadSheetReader.move_down true r0 = Ok r1
        /\ SpreadSheetReader.move_up true r1 = Ok r2
        /\ SpreadSheetReader.current_position r2
           = SpreadSheetReader.current_position r0
        /\ SpreadSheetReader.entry_grid r2 = SpreadSheetReader.entry_grid r0
        /\ SpreadSheetReader.opened r2
           = S (S (SpreadSheetReader.opened r0)).
Proof.
  intros sheet.
  pose (r0 := SpreadSheetReader.mk sheet 0 1 (0, 0)
                (Grid.mk [] [["a"]]%string 8) 1).
  assert (E0 : SpreadSheetReader.__init__ sheet 0 1 = Ok r0) by reflexivity.
  assert (Hfrom : reader_from r0 r0) by apply reader_start.
  exists r0. split; [exact E0|]. split; [exact Hfrom|].
  assert (H0 : 0 <= 0) by lia. assert (H1 : 0 <= 1) by lia.
  exact (proj1 (move_there_and_back sheet 0 1 r0 r0 true H0 H1 E0 Hfrom)).
Defined.

(** ** The cells of a month calendar *)

(** Cell [col] of week [k] is entry [7 * k + col] of the days. *)
Lemma weeks_of_cell (days : list Z) (k col : nat) :
  cell_day (weeks_of days) k col
  = if (col <? 7)%nat then nth_error days (7 * k + col) else None.
Proof.
  unfold cell_day, weeks_of, range_step.
  rewrite !nth_error_map, nth_error_seq.
  set (N := Z.to_nat ((len days + 7 - 1) / 7)).
  assert (HN : (k < N)%nat <-> (7 * k < List.length days)%nat).
  { unfold N, len.
    generalize (Z.of_nat (List.length days))
               (Nat2Z.is_nonneg (List.length days))
               (Nat2Z.id (List.length days)).
    intros L HL HidL. rewrite <- HidL.
    assert (Hk : (k < Z.to_nat ((L + 7 - 1) / 7))%nat
                 <-> Z.of_nat k < (L + 7 - 1) / 7).
    { assert (0 <= (L + 7 - 1) / 7) by (apply Z.div_pos; lia). lia. }
    rewrite Hk. clear Hk.
    assert (Hl : (7 * k < Z.to_nat L)%nat <-> 7 * Z.of_nat k < L) by lia.
    rewrite Hl. clear Hl. generalize (Z.of_nat k). intros z.
    split; intros H; Z.to_euclidean_division_equations; lia. }
  destruct (k <? N)%nat eqn:Ek.
  - apply Nat.ltb_lt, HN in Ek. cbn [option_map Nat.add].
    unfold slice, clamp, len.
    replace (7 * Z.of_nat k <? 0) with false by lia.
    replace (7 * Z.of_nat k + 7 <? 0) with false by lia.
    rewrite nth_error_firstn, nth_error_skipn.
    replace (Z.to_nat (Z.min (7 * Z.of_nat k) (Z.of_nat (List.length days))))
      with (7 * k)%nat by lia.
    destruct (col <? 7)%nat eqn:Ec.
    + apply Nat.ltb_lt in Ec.
      destruct (col <? _)%nat eqn:Ec'; [reflexivity|].
      apply Nat.ltb_ge in Ec'. symmetry. apply nth_error_None. lia.
    + apply Nat.ltb_ge in Ec.
      destruct (col <? _)%nat eqn:Ec'; [|reflexivity].
      apply Nat.ltb_lt in Ec'. lia.
  - apply Nat.ltb_ge in Ek. cbn [option_map].
    destruct (col <? 7)%nat; [|reflexivity].
    symmetry. apply nth_error_None.
    destruct (Nat.lt_ge_cases (7 * k) (List.length days)) as [H|H]; [|lia].
    apply HN in H. lia.
Qed.

Lemma nth_error_range a b (i : nat) :
  nth_error (range a b) i
  = if (i <? Z.to_nat (b - a))%nat then Some (a + Z.of_nat i) else None.
Proof.
  unfold range. rewrite nth_error_map, nth_error_seq.
  now destruct (i <? _)%nat.
Qed.

(** The entries of the days of a month: day [d] is entry [b + d - 1],
    and every other entry is 0. *)
Lemma month_days_entry (b n : Z) (j : nat) (d : Z) :
  0 <= b -> 0 <= n ->
  nth_error (month_days b n) j = Some d ->
  (d <> 0 <-> b <= Z.of_nat j < b + n) /\ (d <> 0 -> d = Z.of_nat j - b + 1).
Proof.
  intros Hb Hn. unfold month_days.
  destruct (Nat.lt_ge_cases j (Z.to_nat b)) as [H1|H1].
  - rewrite nth_error_app1 by (rewrite repeat_length; exact H1).
    rewrite nth_error_repeat by exact H1. intros [= <-]. split; [split; [tauto|lia]|tauto].
  - rewrite nth_error_app2 by (rewrite repeat_length; exact H1).
    rewrite repeat_length.
    assert (Hlen : List.length (range 1 (n + 1)) = Z.to_nat n).
    { unfold range. rewrite length_map, length_seq. f_equal. lia. }
    destruct (Nat.lt_ge_cases (j - Z.to_nat b) (Z.to_nat n)) as [H2|H2].
    + rewrite nth_error_app1 by (rewrite Hlen; exact H2).
      rewrite nth_error_range.
      replace (j - Z.to_nat b <? Z.to_nat (n + 1 - 1))%nat with true
        by (symmetry; apply Nat.ltb_lt; lia).
      intros H.
      assert (E : 1 + Z.of_nat (j - Z.to_nat b) = d) by congruence.
      clear H. split; [split; intros; lia|intros; lia].
    + rewrite nth_error_app2 by (rewrite Hlen; exact H2).
      intros H. apply nth_error_In, repeat_spec in H. subst d.
      split; [|tauto]. split; [tauto|]. lia.
Qed.

Lemma month_days_day (b n d : Z) :
  0 <= b -> 1 <= d <= n ->
  nth_error (month_days b n) (Z.to_nat (b + d - 1)) = Some d.
Proof.
  intros Hb Hd. unfold month_days.
  rewrite nth_error_app2 by (rewrite repeat_length; lia).
  rewrite repeat_length.
  assert (Hlen : List.length (range 1 (n + 1)) = Z.to_nat n).
  { unfold range. rewrite length_map, length_seq. f_equal. lia. }
  rewrite nth_error_app1 by (rewrite Hlen; lia).
  rewrite nth_error_range.
  replace (_ <? _)%nat with true by (symmetry; apply Nat.ltb_lt; lia).
  f_equal. lia.
Qed.

Lemma month_days_length (b n : Z) :
  0 <= b -> 0 <= n ->
  Z.of_nat (List.length (month_days b n)) = b + n + (- b - n) mod 7.
Proof.
  intros Hb Hn. unfold month_days, range.
  rewrite !length_app, !repeat_length, length_map, length_seq.
  pose proof (Z.mod_pos_bound (- b - n) 7). lia.
Qed.

(** ** Selecting a day *)

Lemma day_text (d : Z) :
  1 <= d <= 31 ->
  Treeview._convert_stringval (fmt02d d) = Treeview.VInt d
  /\ int (fmt02d d) = Ok d
  /\ nonempty (fmt02d d) = true.
Proof.
  intros H.
  assert (C : d = 1 \/ d = 2 \/ d = 3 \/ d = 4 \/ d = 5 \/ d = 6 \/ d = 7
              \/ d = 8 \/ d = 9 \/ d = 10 \/ d = 11 \/ d = 12 \/ d = 13
              \/ d = 14 \/ d = 15 \/ d = 16 \/ d = 17 \/ d = 18 \/ d = 19
              \/ d = 20 \/ d = 21 \/ d = 22 \/ d = 23 \/ d = 24 \/ d = 25
              \/ d = 26 \/ d = 27 \/ d = 28 \/ d = 29 \/ d = 30 \/ d = 31)
    by lia.
  repeat (destruct C as [->|C]; [vm_compute; auto|]). subst. vm_compute. auto.
Qed.

(** The cells of the month calendar of a calendar widget. *)
Lemma inv_cal c cal :
  calendar_inv c ->
  calendar.monthdayscalendar (Calendar._cal c)
    (datetime.year (Calendar._date c)) (datetime.month (Calendar._date c))
  = Ok cal ->
  cal = weeks_of (month_days (first_column c)
                    (month_length (datetime.year (Calendar._date c))
                                  (datetime.month (Calendar._date c))))
  /\ 0 <= first_column c < 7
  /\ 28 <= month_length (datetime.year (Calendar._date c))
                        (datetime.month (Calendar._date c)) <= 31.
Proof.
  intros Hinv Hcal. pose proof (inv_date c Hinv) as Hdate.
  destruct Hinv as [_ Hy Hm _ _ _ _].
  rewrite monthdayscalendar_shape in Hcal by trivial.
  injection Hcal as <-. unfold first_column.
  rewrite <- days_in_month_gregorian by exact Hm.
  unfold Calendar.shown_month in Hdate. cbn [fst snd] in Hdate.
  rewrite <- Hdate.
  split; [reflexivity|]. split; [apply Z.mod_pos_bound; lia|].
  now apply days_in_month_bounds.
Qed.

Lemma inv_cell c cal k col d :
  calendar_inv c ->
  calendar.monthdayscalendar (Calendar._cal c)
    (datetime.year (Calendar._date c)) (datetime.month (Calendar._date c))
  = Ok cal ->
  cell_day cal k col = Some d -> d <> 0 ->
  1 <= d <= month_length (datetime.year (Calendar._date c))
                         (datetime.month (Calendar._date c))
  /\ Z.of_nat (7 * k + col) = first_column c + d - 1
  /\ (col < 7)%nat.
Proof.
  intros Hinv Hcal Hcell Hd.
  destruct (inv_cal c cal Hinv Hcal) as (-> & Hb & Hn).
  rewrite weeks_of_cell in Hcell.
  destruct (col <? 7)%nat eqn:Ec; [|discriminate].
  apply Nat.ltb_lt in Ec.
  apply month_days_entry in Hcell; [|lia|lia].
  destruct Hcell as [Hiff Heq]. specialize (Heq Hd). apply Hiff in Hd.
  split; [lia|]. split; [lia|exact Ec].
Qed.

Lemma inv_day_cell c cal d :
  calendar_inv c ->
  calendar.monthdayscalendar (Calendar._cal c)
    (datetime.year (Calendar._date c)) (datetime.month (Calendar._date c))
  = Ok cal ->
  1 <= d <= month_length (datetime.year (Calendar._date c))
                         (datetime.month (Calendar._date c)) ->
  cell_day cal (Z.to_nat ((first_column c + d - 1) / 7))
               (Z.to_nat ((first_column c + d - 1) mod 7)) = Some d.
Proof.
  intros Hinv Hcal Hd.
  destruct (inv_cal c cal Hinv Hcal) as (-> & Hb & Hn).
  rewrite weeks_of_cell.
  set (j := first_column c + d - 1).
  assert (Hj : 0 <= j) by (unfold j; lia).
  pose proof (Z.mod_pos_bound j 7).
  replace (Z.to_nat (j mod 7) <? 7)%nat with true
    by (symmetry; apply Nat.ltb_lt; lia).
  replace (7 * Z.to_nat (j / 7) + Z.to_nat (j mod 7))%nat with (Z.to_nat j).
  - apply month_days_day; lia.
  - assert (0 <= j / 7) by (apply Z.div_pos; lia).
    pose proof (Z.div_mod j 7). lia.
Qed.

(** The values the tree reports for a week row. *)
Lemma row_value c cal k item col d :
  calendar_inv c ->
  calendar.monthdayscalendar (Calendar._cal c)
    (datetime.year (Calendar._date c)) (datetime.month (Calendar._date c))
  = Ok cal ->
  nth_error (Calendar._items c) k = Some item ->
  cell_day cal k col = Some d ->
  let vals := Treeview.values item (Calendar._calendar c) in
  (col < List.length vals)%nat
  /\ nth col vals (Treeview.VStr EmptyString)
     = Treeview._convert_stringval
         (if negb (d =? 0) then fmt02d d else EmptyString).
Proof.
  intros Hinv Hcal Hk Hcell vals. unfold vals, Treeview.values.
  rewrite (inv_row_values c cal k item Hinv Hcal Hk).
  unfold cell_day in Hcell.
  destruct (nth_error cal k) as [week|] eqn:Ew; [|discriminate].
  rewrite (nth_error_nth _ _ [] Ew).
  unfold Calendar.fmt_week. rewrite !length_map. split.
  - apply nth_error_Some. congruence.
  - apply nth_error_nth. rewrite !nth_error_map, Hcell. reflexivity.
Qed.

(** A press on a cell that shows day [d]. *)
Lemma pressed_day c cal k item column d (bbox : bool) :
  calendar_inv c ->
  calendar.monthdayscalendar (Calendar._cal c)
    (datetime.year (Calendar._date c)) (datetime.month (Calendar._date c))
  = Ok cal ->
  nth_error (Calendar._items c) k = Some item ->
  1 <= column <= 7 ->
  cell_day cal k (Z.to_nat (column - 1)) = Some d -> d <> 0 ->
  Calendar._pressed (Calendar.mk_event (Some item) (Some column) bbox) c
  = Ok (if bbox then selected (fmt02d d) item column c else c).
Proof.
  intros Hinv Hcal Hk Hcol Hcell Hd.
  destruct (inv_cell c cal k _ d Hinv Hcal Hcell Hd) as (Hdm & _ & _).
  destruct (inv_cal c cal Hinv Hcal) as (_ & _ & Hn).
  destruct (day_text d) as (Hconv & _ & _); [lia|].
  destruct (row_value c cal k item _ d Hinv Hcal Hk Hcell) as [Hlen Hval].
  unfold Calendar._pressed.
  cbn [Calendar.hit_column Calendar.hit_row Calendar.hit_bbox].
  rewrite existsb_in by (eapply nth_error_In; eassumption). cbn [negb].
  set (vals := Treeview.values item (Calendar._calendar c)) in *.
  replace (len vals =? 0) with false by (unfold len; lia).
  rewrite column_digit_small by lia. cbn [bind].
  rewrite (index_nth vals (column - 1) (Treeview.VStr EmptyString))
    by (unfold len; lia).
  cbn [bind]. rewrite Hval.
  replace (negb (d =? 0)) with true by lia. rewrite Hconv.
  cbn [Treeview.truthy_value]. replace (negb (d =? 0)) with true by lia.
  cbn [negb]. destruct bbox; cbn [negb]; [|reflexivity].
  cbn [Treeview.fmt02d_value bind]. unfold selected.
  cbn. now destruct (Calendar.callback c).
Qed.

Lemma selected_selection c d item column :
  calendar_inv c ->
  1 <= d <= month_length (datetime.year (Calendar._date c))
                         (datetime.month (Calendar._date c)) ->
  Calendar.selection (selected (fmt02d d) item column c)
  = Ok (Some (datetime.mk (datetime.year (Calendar._date c))
                          (datetime.month (Calendar._date c)) d)).
Proof.
  intros [_ Hy Hm _ _ _ _] Hd.
  pose proof (days_in_month_gregorian
                (datetime.year (Calendar._date c))
                (datetime.month (Calendar._date c)) Hm) as Hg.
  pose proof (days_in_month_bounds
                (datetime.year (Calendar._date c))
                (datetime.month (Calendar._date c)) Hm) as Hb.
  unfold Calendar.selection, selected.
  cbn [Calendar._selection Calendar._date].
  destruct (day_text d) as (_ & -> & _); [lia|]. cbn [bind].
  rewrite new_ok by (trivial; lia). reflexivity.
Qed.

Lemma weeks_of_length (days : list Z) :
  List.length (weeks_of days) = Z.to_nat ((len days + 7 - 1) / 7).
Proof.
  unfold weeks_of, range_step. now rewrite !length_map, length_seq.
Qed.

(** A week row either has a cell in each of the seven columns or lies
    beyond the weeks of the month. *)
Lemma inv_no_cell c cal k col :
  calendar_inv c ->
  calendar.monthdayscalendar (Calendar._cal c)
    (datetime.year (Calendar._date c)) (datetime.month (Calendar._date c))
  = Ok cal ->
  (col < 7)%nat -> cell_day cal k col = None ->
  (List.length cal <= k)%nat.
Proof.
  intros Hinv Hcal Hcol Hcell.
  destruct (inv_cal c cal Hinv Hcal) as (-> & Hb & Hn).
  set (b := first_column c) in *.
  set (n := month_length _ _) in *.
  rewrite weeks_of_cell in Hcell.
  replace (col <? 7)%nat with true in Hcell
    by (symmetry; now apply Nat.ltb_lt).
  apply nth_error_None in Hcell. rewrite weeks_of_length. unfold len.
  pose proof (month_days_length b n) as Hl.
  assert (Hc : Z.of_nat (List.length (month_days b n))
               <= 7 * Z.of_nat k + Z.of_nat col) by lia.
  revert Hc. rewrite Hl by lia. intros Hc.
  assert (Hcol' : Z.of_nat col < 7) by lia.
  assert (Hq : (b + n + (- b - n) mod 7 + 7 - 1) / 7 <= Z.of_nat k).
  { revert Hc Hcol'. generalize (Z.of_nat k) (Z.of_nat col).
    intros K C Hc HC. Z.to_euclidean_division_equations. lia. }
  revert Hq. generalize ((b + n + (- b - n) mod 7 + 7 - 1) / 7).
  intros q Hq. lia.
Qed.

(** What a press can do on a calendar: nothing, or select the day of the
    cell it hit. *)
Lemma pressed_cases c evt :
  calendar_inv c -> toolkit_event c evt ->
  Calendar._pressed evt c = Ok c
  \/ exists d item column,
       1 <= d <= month_length (datetime.year (Calendar._date c))
                              (datetime.month (Calendar._date c))
       /\ Calendar._pressed evt c = Ok (selected (fmt02d d) item column c).
Proof.
  intros Hinv [Hcol Hrow].
  pose proof Hinv as [_ Hy Hm _ _ _ (cal & Hcal & _)].
  destruct evt as [[item|] [column|] bbox];
    cbn [Calendar.hit_column Calendar.hit_row] in *;
    [|left; apply (pressed_void_inv c cal); trivial; apply void_no_column
     |left; apply (pressed_void_inv c cal); trivial; apply void_no_row
     |left; apply (pressed_void_inv c cal); trivial; apply void_no_column].
  destruct (in_dec Nat.eq_dec item (Calendar._items c)) as [Hin|Hnot].
  - apply In_nth_error in Hin. destruct Hin as [k Hk].
    destruct (cell_day cal k (Z.to_nat (column - 1))) as [d|] eqn:Hcell.
    + destruct (Z.eq_dec d 0) as [->|Hd].
      * left. apply (pressed_void_inv c cal); trivial.
        now apply (void_empty_cell c cal k).
      * rewrite (pressed_day c cal k item column d bbox Hinv Hcal Hk)
          by (trivial; lia).
        destruct bbox; [right|left; reflexivity].
        exists d, item, column. split; [|reflexivity].
        now destruct (inv_cell c cal k _ d Hinv Hcal Hcell Hd).
    + left. apply (pressed_void_inv c cal); trivial.
      apply (void_beyond_weeks c cal k); [exact Hk|].
      apply (inv_no_cell c cal k (Z.to_nat (column - 1))); trivial. lia.
  - left. apply (pressed_void_inv c cal); trivial.
    now apply void_not_a_week.
Qed.

Lemma inv_toolkit_event c k item column bbox :
  calendar_inv c -> nth_error (Calendar._items c) k = Some item ->
  1 <= column <= 7 ->
  toolkit_event c (Calendar.mk_event (Some item) (Some column) bbox).
Proof.
  intros [_ _ _ _ _ Hin _] Hk Hcol. split; cbn; [exact Hcol|].
  apply Hin. eapply nth_error_In. eassumption.
Qed.

(** X11. On a reachable calendar, a press on the cell of week row [k]
    and column [column] that shows day [d] of the month, once the
    calendar is visible, selects that day: the stored selection is the
    two-digit text of [d] with the row and the column, the selection
    canvas is shown with that text, an installed callback is called
    once, the month shown and the week rows (what they show and the
    values they hold) stay as they are, and [selection] is the date of
    day [d] in the month shown. While the
    calendar is not visible yet (the cell has no bounding box) the press
    does nothing. The day of a cell is given by its place: counting
    cells row by row from the column of the first of the month. *)
Theorem pressed_selects_day (c : Calendar.t) (cal : list (list Z))
    (k : nat) (item : Treeview.item) (column d : Z) :
  reachable c ->
  calendar.monthdayscalendar (Calendar._cal c)
    (datetime.year (Calendar._date c)) (datetime.month (Calendar._date c))
  = Ok cal ->
  nth_error (Calendar._items c) k = Some item ->
  1 <= column <= 7 ->
  cell_day cal k (Z.to_nat (column - 1)) = Some d -> d <> 0 ->
  let y := datetime.year (Calendar._date c) in
  let m := datetime.month (Calendar._date c) in
  (exists c',
      Calendar._pressed (Calendar.mk_event (Some item) (Some column) true) c
      = Ok c'
      /\ Calendar._selection c' = Some (fmt02d d, item, column)
      /\ Calendar.canvas_placed c' = true
      /\ Calendar.canvas_text c' = fmt02d d
      /\ Calendar.callback_calls c'
         = (if Calendar.callback c then S (Calendar.callback_calls c)
            else Calendar.callback_calls c)
      /\ Calendar.shown_month c' = (y, m)
      /\ Calendar.week_rows c' = Calendar.week_rows c
      /\ Calendar.raw_rows c' = Calendar.raw_rows c
      /\ Calendar.selection c' = Ok (Some (datetime.mk y m d))
      /\ reachable c')
  /\ Calendar._pressed (Calendar.mk_event (Some item) (Some column) false) c
     = Ok c
  /\ 1 <= d <= month_length y m
  /\ 7 * Z.of_nat k + column = first_column c + d.
Proof.
  intros Hreach Hcal Hk Hcol Hcell Hd y m.
  pose proof (reachable_inv c Hreach) as Hinv.
  destruct (inv_cell c cal k _ d Hinv Hcal Hcell Hd) as (Hdm & Hpos & _).
  fold y m in Hdm.
  split; [|split; [|split; [exact Hdm|lia]]].
  - exists (selected (fmt02d d) item column c).
    assert (E : Calendar._pressed
                  (Calendar.mk_event (Some item) (Some column) true) c
                = Ok (selected (fmt02d d) item column c))
      by (apply (pressed_day c cal k item column d true); trivial; lia).
    split; [exact E|]. do 7 (split; [reflexivity|]).
    split; [now apply selected_selection|].
    apply (reach_pressed _ c _ Hreach (inv_toolkit_event c k item column true
                                         Hinv Hk Hcol) E).
  - apply (pressed_day c cal k item column d false); trivial; lia.
Qed.

Lemma pressed_selects_day_witness :
  exists c,
    Calendar.__init__ true None 2024 1 = Ok c
    /\ exists cal,
        calendar.monthdayscalendar 6 2024 1 = Ok cal
        /\ nth_error (Calendar._items c) 2 = Some 3%nat
        /\ cell_day cal 2 (Z.to_nat (2 - 1)) = Some 15
        /\ exists c',
            Calendar._pressed
              (Calendar.mk_event (Some 3%nat) (Some 2) true) c = Ok c'
            /\ Calendar.callback_calls c' = 1%nat
            /\ Calendar.selection c' = Ok (Some (datetime.mk 2024 1 15)).
Proof.
  run_ok. run_ok.
  match goal with
  | |- nth_error (Calendar._items ?c) _ = _ /\ cell_day ?cal _ _ = _ /\ _ =>
      assert (Hr : reachable c)
        by (apply (reach_init true None 2024 1); vm_compute; reflexivity);
      assert (Hcal : calendar.monthdayscalendar (Calendar._cal c)
                       (datetime.year (Calendar._date c))
                       (datetime.month (Calendar._date c)) = Ok cal)
        by (vm_compute; reflexivity);
      assert (Hk : nth_error (Calendar._items c) 2 = Some 3%nat)
        by reflexivity;
      assert (Hcell : cell_day cal 2 (Z.to_nat (2 - 1)) = Some 15)
        by reflexivity;
      assert (Hcol : 1 <= 2 <= 7) by lia;
      assert (Hd : 15 <> 0) by discriminate;
      destruct (pressed_selects_day c cal 2 3%nat 2 15 Hr Hcal Hk Hcol
                  Hcell Hd)
        as ((c' & Ep & _ & _ & _ & Hcalls & _ & _ & _ & Hsel & _) & _)
  end.
  split; [exact Hk|]. split; [exact Hcell|].
  exists c'. split; [exact Ep|]. split; [exact Hcalls|exact Hsel].
Defined.

(** X12. On a reachable calendar no press that the toolkit can report
    makes [_pressed] raise: it returns, leaves the month shown and the
    week rows (what they show and the values they hold) as they are,
    and either changes nothing at all or selects a
    day of the month shown, which [selection] then returns. *)
Theorem pressed_never_raises (c : Calendar.t) (evt : Calendar.event) :
  reachable c -> toolkit_event c evt ->
  let y := datetime.year (Calendar._date c) in
  let m := datetime.month (Calendar._date c) in
  exists c',
    Calendar._pressed evt c = Ok c'
    /\ reachable c'
    /\ Calendar.shown_month c' = (y, m)
    /\ Calendar.week_rows c' = Calendar.week_rows c
    /\ Calendar.raw_rows c' = Calendar.raw_rows c
    /\ (c' = c
        \/ exists d,
             1 <= d <= month_length y m
             /\ Calendar.canvas_placed c' = true
             /\ Calendar.selection c' = Ok (Some (datetime.mk y m d))).
Proof.
  intros Hreach Hevt y m. pose proof (reachable_inv c Hreach) as Hinv.
  destruct (pressed_cases c evt Hinv Hevt) as [E|(d & item & column & Hd & E)].
  - exists c. split; [exact E|]. split; [exact Hreach|].
    do 3 (split; [reflexivity|]). now left.
  - exists (selected (fmt02d d) item column c). split; [exact E|].
    split; [exact (reach_pressed evt c _ Hreach Hevt E)|].
    do 3 (split; [reflexivity|]). right.
    exists d. split; [exact Hd|]. split; [reflexivity|].
    now apply selected_selection.
Qed.

Lemma pressed_never_raises_witness :
  exists c,
    Calendar.__init__ false None 2024 1 = Ok c
    /\ toolkit_event c (Calendar.mk_event (Some 0%nat) (Some 3) true)
    /\ exists c',
        Calendar._pressed (Calendar.mk_event (Some 0%nat) (Some 3) true) c
        = Ok c'
        /\ reachable c'.
Proof.
  run_ok.
  match goal with
  | |- toolkit_event ?c ?evt /\ _ =>
      assert (Hr : reachable c)
        by (apply (reach_init false None 2024 1); vm_compute; reflexivity);
      assert (Hevt : toolkit_event c evt)
        by (split; [cbn; lia|cbn; tauto]);
      destruct (pressed_never_raises c evt Hr Hevt) as (c' & E & Hr' & _)
  end.
  split; [exact Hevt|]. exists c'. split; [exact E|exact Hr'].
Defined.

(** ** The stored selection *)

(** The arrow buttons change the date, the tree and the canvas, and
    nothing else. *)
Lemma next_month_frame c c' :
  Calendar._next_month c = Ok c' ->
  Calendar._selection c' = Calendar._selection c
  /\ Calendar.callback c' = Calendar.callback c
  /\ Calendar.callback_calls c' = Calendar.callback_calls c
  /\ Calendar._cal c' = Calendar._cal c
  /\ Calendar._items c' = Calendar._items c
  /\ Calendar.canvas_text c' = Calendar.canvas_text c.
Proof.
  unfold Calendar._next_month.
  destruct (calendar.monthrange _ _); cbn [bind]; [|discriminate].
  destruct (datetime.add_days _ _); cbn [bind]; [|discriminate].
  destruct (datetime.new _ _ _); cbn [bind]; [|discriminate].
  intros E. apply build_calendar_frame in E. destruct E as (tv & -> & _).
  cbn. auto 10.
Qed.

Lemma prev_month_frame c c' :
  Calendar._prev_month c = Ok c' ->
  Calendar._selection c' = Calendar._selection c
  /\ Calendar.callback c' = Calendar.callback c
  /\ Calendar.callback_calls c' = Calendar.callback_calls c
  /\ Calendar._cal c' = Calendar._cal c
  /\ Calendar._items c' = Calendar._items c
  /\ Calendar.canvas_text c' = Calendar.canvas_text c.
Proof.
  unfold Calendar._prev_month.
  destruct (datetime.add_days _ _); cbn [bind]; [|discriminate].
  destruct (datetime.new _ _ _); cbn [bind]; [|discriminate].
  intros E. apply build_calendar_frame in E. destruct E as (tv & -> & _).
  cbn. auto 10.
Qed.

(** The arrow buttons leave the columns of the tree as they are. *)
Lemma next_month_columns c c' :
  Calendar._next_month c = Ok c' ->
  Treeview.columns (Calendar._calendar c')
  = Treeview.columns (Calendar._calendar c).
Proof.
  unfold Calendar._next_month.
  destruct (calendar.monthrange _ _); cbn [bind]; [|discriminate].
  destruct (datetime.add_days _ _); cbn [bind]; [|discriminate].
  destruct (datetime.new _ _ _); cbn [bind]; [|discriminate].
  intros E. apply build_calendar_frame in E. destruct E as (tv & -> & Hc).
  cbn in *. exact Hc.
Qed.

Lemma prev_month_columns c c' :
  Calendar._prev_month c = Ok c' ->
  Treeview.columns (Calendar._calendar c')
  = Treeview.columns (Calendar._calendar c).
Proof.
  unfold Calendar._prev_month.
  destruct (datetime.add_days _ _); cbn [bind]; [|discriminate].
  destruct (datetime.new _ _ _); cbn [bind]; [|discriminate].
  intros E. apply build_calendar_frame in E. destruct E as (tv & -> & Hc).
  cbn in *. exact Hc.
Qed.

Lemma month_length_bound y m : month_length y m <= 31.
Proof.
  unfold month_length.
  destruct m as [|[[[[|[]|]|[[]|[]|]|]|[[[]|[]|]|[[]|[]|]|]|]
                  |[[[]|[]|]|[[]|[]|]|]|]|];
    try destruct (leap_year y); lia.
Qed.

Lemma reachable_day_selection c : reachable c -> day_selection c.
Proof.
  induction 1 as [cb loc y m c E|evt c c' Hc IH Hevt E|c c' _ IH E|c c' _ IH E
                  |c _ IH].
  - apply init_spec in E. destruct E as (_ & _ & Hsel & _).
    unfold day_selection. now rewrite Hsel.
  - destruct (pressed_cases c evt (reachable_inv c Hc) Hevt)
      as [E'|(d & item & column & Hd & E')]; rewrite E' in E;
      injection E as <-; [exact IH|].
    unfold day_selection, selected. cbn [Calendar._selection].
    exists d. split; [|reflexivity].
    pose proof (month_length_bound (datetime.year (Calendar._date c))
                  (datetime.month (Calendar._date c))). lia.
  - apply next_month_frame in E. destruct E as (Hsel & _).
    unfold day_selection in *. now rewrite Hsel.
  - apply prev_month_frame in E. destruct E as (Hsel & _).
    unfold day_selection in *. now rewrite Hsel.
  - exact IH.
Qed.

(** X13. What [selection] gives on a reachable calendar. With nothing
    stored it is [None]. Otherwise the stored text is the two-digit text
    of a day number [d] from 1 to 31, the day of the cell last selected,
    in whatever month that was; [selection] reads it against the month
    shown now, and returns day [d] of that month when the month has a day
    [d], and raises [ValueError] when it is shorter. *)
Theorem selection_outcome (c : Calendar.t) :
  reachable c ->
  let y := datetime.year (Calendar._date c) in
  let m := datetime.month (Calendar._date c) in
  match Calendar._selection c with
  | None => Calendar.selection c = Ok None
  | Some (text, _, _) =>
      exists d,
        1 <= d <= 31 /\ text = fmt02d d
        /\ (d <= month_length y m ->
            Calendar.selection c = Ok (Some (datetime.mk y m d)))
        /\ (month_length y m < d ->
            Calendar.selection c = Raise ValueError)
  end.
Proof.
  intros Hreach y m. subst y m.
  pose proof (reachable_inv c Hreach) as Hinv.
  pose proof (reachable_day_selection c Hreach) as Hsel.
  unfold day_selection in Hsel. unfold Calendar.selection.
  destruct (Calendar._selection c) as [[[text item] column]|] eqn:Es;
    [|reflexivity].
  destruct Hsel as (d & Hd & ->). exists d. split; [exact Hd|].
  split; [reflexivity|].
  destruct (day_text d Hd) as (_ & -> & _). cbn [bind].
  destruct Hinv as [_ Hy Hm _ _ _ _].
  rewrite <- days_in_month_gregorian by exact Hm. split; intros H.
  - rewrite new_ok by (trivial; lia). reflexivity.
  - unfold datetime.new, datetime.MINYEAR, datetime.MAXYEAR.
    rewrite !fits_int_small by lia. cbn [andb negb].
    replace ((1 <=? datetime.year (Calendar._date c))
             && (datetime.year (Calendar._date c) <=? 9999)) with true by lia.
    replace ((1 <=? datetime.month (Calendar._date c))
             && (datetime.month (Calendar._date c) <=? 12)) with true by lia.
    replace ((1 <=? d) && (d <=? datetime._days_in_month _ _)) with false
      by lia.
    reflexivity.
Qed.

Lemma selection_outcome_witness :
  exists c0,
    Calendar.__init__ false None 2024 1 = Ok c0
    /\ exists c1,
        Calendar._pressed (Calendar.mk_event (Some 5%nat) (Some 4) true) c0
        = Ok c1
        /\ exists c2,
            Calendar._next_month c1 = Ok c2
            /\ reachable c2
            /\ exists d,
                1 <= d <= 31 /\ fmt02d 31 = fmt02d d
                /\ (d <= month_length 2024 2 ->
                    Calendar.selection c2
                    = Ok (Some (datetime.mk 2024 2 d)))
                /\ (month_length 2024 2 < d ->
                    Calendar.selection c2 = Raise ValueError).
Proof.
  run_ok.
  match goal with
  | |- exists c1, Calendar._pressed ?evt ?c0 = _ /\ _ =>
      assert (H0 : reachable c0)
        by (apply (reach_init false None 2024 1); vm_compute; reflexivity);
      assert (Hevt : toolkit_event c0 evt) by (split; [cbn; lia|cbn; tauto])
  end.
  run_ok.
  match goal with
  | |- exists c2, Calendar._next_month ?c1 = _ /\ _ =>
      assert (H1 : reachable c1)
        by (eapply reach_pressed;
            [exact H0|exact Hevt|vm_compute; reflexivity])
  end.
  run_ok.
  match goal with
  | |- reachable ?c2 /\ _ =>
      assert (H2 : reachable c2)
        by (eapply reach_next; [exact H1|vm_compute; reflexivity]);
      split; [exact H2|exact (selection_outcome c2 H2)]
  end.
Defined.

(** ** Navigation there and back *)

Lemma succ_pred_month ym : snd ym <= 12 -> succ_month (pred_month ym) = ym.
Proof.
  destruct ym as [y m]. cbn [snd]. intros Hm. unfold succ_month, pred_month.
  destruct (m =? 1) eqn:E.
  - cbn. f_equal; lia.
  - destruct (m - 1 =? 12) eqn:E'; f_equal; lia.
Qed.

Lemma pred_month_not_last y m :
  y <= 9999 -> m <= 12 -> pred_month (y, m) <> (9999, 12).
Proof.
  intros Hy Hm. unfold pred_month. destruct (m =? 1) eqn:E; intros [=]; lia.
Qed.

(** The week rows hold the values of the month shown. *)
Lemma inv_rows_agree c c' :
  calendar_inv c -> calendar_inv c' ->
  Calendar._date c' = Calendar._date c ->
  Calendar._cal c' = Calendar._cal c ->
  Calendar.raw_rows c' = Calendar.raw_rows c.
Proof.
  intros [_ _ _ _ _ _ (cal & Hcal & Hrows)]
         [_ _ _ _ _ _ (cal' & Hcal' & Hrows')] Ed Ec.
  rewrite Ed, Ec, Hcal in Hcal'. injection Hcal' as <-. congruence.
Qed.

(** X14. From every reachable calendar that does not show January of
    year 1, [_prev_month] followed by [_next_month] succeeds and brings
    back the month and its week rows (what they show and the values
    they hold); the stored selection, the callback
    and the number of its calls are untouched by the two moves, and the
    selection canvas is hidden. On January of year 1 [_prev_month] raises
    [OverflowError]. *)
Theorem prev_then_next_month (c : Calendar.t) :
  reachable c ->
  (Calendar.shown_month c <> (1, 1) ->
   exists c1 c2,
     Calendar._prev_month c = Ok c1
     /\ Calendar._next_month c1 = Ok c2
     /\ Calendar._date c2 = Calendar._date c
     /\ Calendar.week_rows c2 = Calendar.week_rows c
     /\ Calendar.raw_rows c2 = Calendar.raw_rows c
     /\ Calendar._selection c2 = Calendar._selection c
     /\ Calendar.callback c2 = Calendar.callback c
     /\ Calendar.callback_calls c2 = Calendar.callback_calls c
     /\ Calendar.canvas_placed c2 = false)
  /\ (Calendar.shown_month c = (1, 1) ->
      Calendar._prev_month c = Raise OverflowError).
Proof.
  intros Hreach. pose proof (reachable_inv c Hreach) as Hinv.
  split; [|now apply prev_month_first].
  intros Hne.
  pose proof (inv_year c Hinv) as Hy. pose proof (inv_month c Hinv) as Hm.
  destruct (prev_month_spec c Hinv Hne) as (c1 & E1 & Hinv1 & Hs1 & _).
  destruct (next_month_spec c1 Hinv1) as (c2 & E2 & Hinv2 & Hs2 & _ & Hcv).
  - rewrite Hs1. unfold Calendar.shown_month.
    apply pred_month_not_last; lia.
  - exists c1, c2. split; [exact E1|]. split; [exact E2|].
    assert (Hs : Calendar.shown_month c2 = Calendar.shown_month c).
    { rewrite Hs2, Hs1. apply succ_pred_month.
      unfold Calendar.shown_month. cbn. lia. }
    assert (Hd : Calendar._date c2 = Calendar._date c).
    { rewrite (inv_date c2 Hinv2), (inv_date c Hinv), Hs. reflexivity. }
    destruct (prev_month_frame c c1 E1) as (S1 & B1 & N1 & C1 & _).
    destruct (next_month_frame c1 c2 E2) as (S2 & B2 & N2 & C2 & _).
    split; [exact Hd|].
    assert (Hraw : Calendar.raw_rows c2 = Calendar.raw_rows c)
      by (apply inv_rows_agree; trivial; congruence).
    split.
    { rewrite !week_rows_cells, Hraw, (next_month_columns c1 c2 E2).
      now rewrite (prev_month_columns c c1 E1). }
    split; [exact Hraw|].
    repeat split; congruence.
Qed.

Lemma prev_then_next_month_witness :
  exists c,
    Calendar.__init__ false None 2024 1 = Ok c
    /\ exists c1 c2,
        Calendar._prev_month c = Ok c1
        /\ Calendar._next_month c1 = Ok c2
        /\ Calendar._date c2 = Calendar._date c
        /\ Calendar.week_rows c2 = Calendar.week_rows c
        /\ Calendar.raw_rows c2 = Calendar.raw_rows c
        /\ Calendar._selection c2 = Calendar._selection c
        /\ Calendar.callback c2 = Calendar.callback c
        /\ Calendar.callback_calls c2 = Calendar.callback_calls c
        /\ Calendar.canvas_placed c2 = false.
Proof.
  run_ok.
  match goal with
  | |- exists c1 c2, Calendar._prev_month ?c = _ /\ _ =>
      apply (prev_then_next_month c);
        [apply (reach_init false None 2024 1); vm_compute; reflexivity
        |vm_compute; discriminate]
  end.
Defined.

(** ** The weekday of a cell *)

(** [_build_calendar] writes to the week rows only. *)
Lemma build_calendar_other c c' it :
  NoDup (Calendar._items c) ->
  incl (Calendar._items c) (Treeview.ids (Calendar._calendar c)) ->
  Calendar._build_calendar c = Ok c' ->
  ~ In it (Calendar._items c) ->
  Treeview.raw_values it (Calendar._calendar c')
  = Treeview.raw_values it (Calendar._calendar c).
Proof.
  intros Hnd Hin. unfold Calendar._build_calendar.
  destruct (calendar.monthdayscalendar _ _ _) as [cal|]; cbn [bind];
    [|discriminate].
  destruct (fill_items_spec cal (Calendar._items c) 0 (Calendar._calendar c))
    as (tv & E & _ & _ & Hother); [lia|exact Hnd|exact Hin|].
  rewrite E. cbn [bind]. intros [= <-] Hit. cbn. now apply Hother.
Qed.

Lemma header_inv_step cols c c0 c' :
  calendar_inv c -> header_inv cols c ->
  Calendar._items c0 = Calendar._items c ->
  Calendar._calendar c0 = Calendar._calendar c ->
  Calendar._cal c0 = Calendar._cal c ->
  Calendar._build_calendar c0 = Ok c' ->
  header_inv cols c'.
Proof.
  intros [_ _ _ _ Hnd Hin _] (Hcal & Hitems & Hcols & Hhead) Ei Et Ec E.
  pose proof (build_calendar_frame c0 c' E) as (tv & Ec' & Htv).
  unfold header_inv.
  rewrite (build_calendar_other c0 c' 0%nat); rewrite ?Ei, ?Et; trivial.
  - subst c'. cbn. rewrite Ei, Ec, Htv, Et. auto.
  - rewrite Hitems. cbn. intuition discriminate.
Qed.

(** What [_build_calendar] makes of the calendar that [__init__] hands
    to it. *)
Lemma init_state_built cb y m cols :
  1 <= y <= 9999 -> 1 <= m <= 12 ->
  exists c,
    Calendar._build_calendar (init_state cb (datetime.mk y m 1) cols) = Ok c
    /\ Calendar.shown_month c = (y, m)
    /\ Calendar._selection c = None
    /\ Calendar.canvas_placed c = false
    /\ Calendar.callback c = cb
    /\ Calendar.callback_calls c = 0%nat
    /\ header_inv cols c.
Proof.
  intros Hy Hm. set (s0 := init_state cb (datetime.mk y m 1) cols).
  destruct (init_state_shape cb (datetime.mk y m 1) cols) as (Hlen & Hnd & Hin).
  fold s0 in Hlen, Hnd, Hin.
  destruct (build_calendar_inv s0 eq_refl Hy Hm Hlen Hnd Hin)
    as (c & E & _ & Hdate & Hsel & Hit & Hcal & Hcv).
  exists c. split; [exact E|].
  pose proof (build_calendar_other s0 c 0%nat Hnd Hin E) as Hhead.
  destruct (build_calendar_frame s0 c E) as (tv & -> & Htv).
  cbn in Hhead |- *. do 5 (split; [reflexivity|]).
  unfold header_inv. cbn. rewrite Htv, Hhead by intuition discriminate.
  auto.
Qed.

Lemma init_header cb loc y m c :
  Calendar.__init__ cb loc y m = Ok c ->
  exists names,
    Calendar.day_abbr (Calendar._get_calendar loc calendar.SUNDAY) = Ok names
    /\ header_inv (str_split (Calendar.weekheader_text names calendar.SUNDAY 3))
                  c.
Proof.
  rewrite init_unfold.
  destruct (datetime.new y m 1) as [date|e] eqn:En; cbn [bind]; [|discriminate].
  apply new_inv in En. destruct En as (-> & Hy & Hm & _).
  destruct (Calendar.day_abbr _) as [names|]; cbn [bind]; [|discriminate].
  cbv zeta. destruct (negb _); [discriminate|].
  intros E. exists names. split; [reflexivity|].
  destruct (init_state_built cb y m
              (str_split (Calendar.weekheader_text names calendar.SUNDAY 3))
              Hy Hm) as (c' & E' & _ & _ & _ & _ & _ & H).
  congruence.
Qed.

(** The states reached from a calendar that the constructor built are
    reachable. *)
Lemma reached_reachable c0 c :
  reachable c0 -> reached_from c0 c -> reachable c.
Proof.
  intros H0. induction 1 as [|evt c c' _ IH Hevt E|c c' _ IH E|c c' _ IH E
                            |c _ IH].
  - exact H0.
  - exact (reach_pressed evt c c' IH Hevt E).
  - exact (reach_next c c' IH E).
  - exact (reach_prev c c' IH E).
  - exact (reach_add_callback c IH).
Qed.

(** No method changes the header after construction. *)
Lemma reached_header cols c0 c :
  reachable c0 -> header_inv cols c0 -> reached_from c0 c ->
  header_inv cols c.
Proof.
  intros H0 Hh0.
  induction 1 as [|evt c c' Hc IH _ E|c c' Hc IH E|c c' Hc IH E|c _ IH].
  - exact Hh0.
  - apply pressed_frame in E. destruct E as (_ & Et & Ei & Ec).
    unfold header_inv in *. now rewrite Et, Ei, Ec.
  - pose proof (reachable_inv c (reached_reachable c0 c H0 Hc)) as Hinv.
    revert E. unfold Calendar._next_month.
    destruct (calendar.monthrange _ _); cbn [bind]; [|discriminate].
    destruct (datetime.add_days _ _); cbn [bind]; [|discriminate].
    destruct (datetime.new _ _ _); cbn [bind]; [|discriminate].
    intros E. now apply (header_inv_step cols c _ c' Hinv IH) in E.
  - pose proof (reachable_inv c (reached_reachable c0 c H0 Hc)) as Hinv.
    revert E. unfold Calendar._prev_month.
    destruct (datetime.add_days _ _); cbn [bind]; [|discriminate].
    destruct (datetime.new _ _ _); cbn [bind]; [|discriminate].
    intros E. now apply (header_inv_step cols c _ c' Hinv IH) in E.
  - exact IH.
Qed.

(** The word at the head of column [col] when weeks start on Sunday. *)
Lemma weekheader_sunday names (col : Z) :
  0 <= col < 7 ->
  nth_error (weekheader names calendar.SUNDAY) (Z.to_nat col)
  = Some (str_take (nth (Z.to_nat ((6 + col) mod 7)) names EmptyString) 3).
Proof.
  intros H.
  assert (C : col = 0 \/ col = 1 \/ col = 2 \/ col = 3 \/ col = 4
              \/ col = 5 \/ col = 6) by lia.
  repeat (destruct C as [->|C]; [reflexivity|]). subst. reflexivity.
Qed.

Lemma weekday_of_day y m d :
  datetime.weekday (datetime.mk y m d)
  = (datetime.weekday (datetime.mk y m 1) + d - 1) mod 7.
Proof.
  unfold datetime.weekday, datetime.toordinal, datetime._ymd2ord.
  cbn [datetime.year datetime.month datetime.day].
  generalize (datetime._days_before_year y + datetime._days_before_month y m).
  intros o. euclid.
Qed.

(** A row of seven values is shown as it is in seven columns. *)
Lemma cells_full (r : list string) (n : nat) :
  List.length r = n ->
  map (fun k => nth k r EmptyString) (seq 0 n) = r.
Proof.
  intros H. rewrite cells_padded by lia.
  rewrite H, Nat.sub_diag. cbn [repeat]. apply app_nil_r.
Qed.

(** ** Construction *)

Lemma new_first_cases y m :
  (~ (INT_MIN <= y <= INT_MAX /\ INT_MIN <= m <= INT_MAX)
   /\ datetime.new y m 1 = Raise OverflowError)
  \/ ((INT_MIN <= y <= INT_MAX /\ INT_MIN <= m <= INT_MAX)
      /\ ~ (1 <= y <= 9999 /\ 1 <= m <= 12)
      /\ datetime.new y m 1 = Raise ValueError)
  \/ ((1 <= y <= 9999 /\ 1 <= m <= 12)
      /\ datetime.new y m 1 = Ok (datetime.mk y m 1)).
Proof.
  unfold datetime.new, datetime.MINYEAR, datetime.MAXYEAR.
  change (fits_int 1) with true. rewrite andb_true_r.
  destruct (fits_int y && fits_int m) eqn:Ef; cbn [negb].
  - apply andb_true_iff in Ef. destruct Ef as [Fy Fm].
    unfold fits_int in Fy, Fm.
    destruct ((1 <=? y) && (y <=? 9999)) eqn:Ey; cbn [negb];
      [|right; left; repeat split; lia].
    destruct ((1 <=? m) && (m <=? 12)) eqn:Em; cbn [negb];
      [|right; left; repeat split; lia].
    right. right. split; [lia|].
    pose proof (days_in_month_bounds y m ltac:(lia)) as Hb.
    replace ((1 <=? 1) && (1 <=? datetime._days_in_month y m)) with true
      by lia.
    reflexivity.
  - left. split; [|reflexivity].
    apply andb_false_iff in Ef. unfold fits_int in Ef. lia.
Qed.

(** X15. [Calendar.__init__] with the options [locale], [year] and
    [month]. It raises [OverflowError] exactly when the year or the
    month does not fit a C [int]. It raises [ValueError] exactly when
    both fit and either the year is outside 1..9999 or the month outside
    1..12, or the locale is supported and the week header holds no word
    at all. It raises [locale.Error] exactly when year and month are in
    these ranges and the platform does not support the locale. In every
    other case it builds a calendar that shows that month, with nothing
    selected ([selection] is [None]), the selection canvas not shown,
    the callback as given and not yet called, the words of the week
    header as the columns of the tree and in its first row, and six week
    rows below it. Without a locale these words are the names from Sun
    to Sat. *)
Theorem calendar_init_outcome (cb : bool) (loc : option locale.t)
    (y m : Z) :
  let cal := Calendar._get_calendar loc calendar.SUNDAY in
  let header names :=
    str_split (Calendar.weekheader_text names calendar.SUNDAY 3) in
  let fits := INT_MIN <= y <= INT_MAX /\ INT_MIN <= m <= INT_MAX in
  let valid := 1 <= y <= 9999 /\ 1 <= m <= 12 in
  (Calendar.__init__ cb loc y m = Raise OverflowError <-> ~ fits)
  /\ (Calendar.__init__ cb loc y m = Raise ValueError
      <-> fits
          /\ (~ valid
              \/ exists names,
                  Calendar.day_abbr cal = Ok names /\ header names = []))
  /\ (Calendar.__init__ cb loc y m = Raise LocaleError
      <-> valid /\ loc = Some locale.Unsupported)
  /\ (forall names,
        valid -> Calendar.day_abbr cal = Ok names -> header names <> [] ->
        exists c,
          Calendar.__init__ cb loc y m = Ok c
          /\ Calendar.shown_month c = (y, m)
          /\ Calendar._selection c = None
          /\ Calendar.selection c = Ok None
          /\ Calendar.canvas_placed c = false
          /\ Calendar.callback c = cb
          /\ Calendar.callback_calls c = 0%nat
          /\ Treeview.columns (Calendar._calendar c) = header names
          /\ Treeview.raw_values 0%nat (Calendar._calendar c) = header names
          /\ List.length (Calendar.week_rows c) = 6%nat)
  /\ (loc = None ->
      Calendar.day_abbr cal = Ok Calendar.weekday_names
      /\ header Calendar.weekday_names
         = ["Sun"; "Mon"; "Tue"; "Wed"; "Thu"; "Fri"; "Sat"]%string).
Proof.
  intros cal header fits valid.
  assert (Hvf : valid -> fits).
  { unfold valid, fits, INT_MIN, INT_MAX. change (2 ^ 31) with 2147483648.
    lia. }
  assert (Hnone : loc = None ->
                  Calendar.day_abbr cal = Ok Calendar.weekday_names
                  /\ header Calendar.weekday_names
                     = ["Sun"; "Mon"; "Tue"; "Wed"; "Thu"; "Fri"; "Sat"]%string).
  { intros Hl. subst cal. rewrite Hl. split; reflexivity. }
  rewrite init_unfold. fold cal.
  destruct (new_first_cases y m) as [[Hnf ->]|[(Hf & Hnv & ->)|[Hv ->]]];
    fold fits in Hnf || fold fits in Hf || idtac;
    fold valid in Hnv || fold valid in Hv || idtac;
    cbn [bind].
  - split; [tauto|]. split; [split; [discriminate|tauto]|].
    split; [split; [discriminate|]; intros [H _]; tauto|].
    split; [intros names H; tauto|].
    intros ->. split; reflexivity.
  - split; [split; [discriminate|tauto]|]. split; [tauto|].
    split; [split; [discriminate|tauto]|].
    split; [intros names H; tauto|].
    intros ->. split; reflexivity.
  - destruct (day_abbr_cases loc calendar.SUNDAY)
      as [[Hloc E]|(Hloc & names & E & _)]; fold cal in E; rewrite E;
      cbn [bind]; cbv zeta.
    + split; [split; [discriminate|tauto]|].
      split.
      { split; [discriminate|]. intros (_ & [H|(names & H & _)]);
          [tauto|discriminate]. }
      split; [tauto|].
      split; [intros names _ H; discriminate|].
      intros ->. discriminate.
    + fold (header names).
      destruct (header names) as [|col cols] eqn:Eh; cbn [truthy negb].
      * split; [split; [discriminate|tauto]|].
        split.
        { split; [|reflexivity]. intros _. split; [auto|]. right.
          exists names. auto. }
        split; [split; [discriminate|tauto]|].
        split.
        { intros names' _ [= <-] H. rewrite Eh in H. now contradiction H. }
        intros Hl. destruct (Hnone Hl) as [H1 H2].
        split; [congruence|exact H2].
      * pose proof Hv as [Hy Hm].
        destruct (init_state_built cb y m (col :: cols) Hy Hm)
          as (c & Ec & Hshown & Hsel & Hcv & Hcb & Hcalls
              & (_ & Hitems & Hcols & Hhead)).
        rewrite Ec.
        split; [split; [discriminate|tauto]|].
        split.
        { split; [discriminate|].
          intros (_ & [H|(names' & [= <-] & H)]); [tauto|].
          rewrite Eh in H. discriminate. }
        split; [split; [discriminate|tauto]|].
        split.
        { intros names' _ [= <-] _. rewrite Eh. exists c.
          split; [reflexivity|]. split; [exact Hshown|].
          split; [exact Hsel|].
          split; [unfold Calendar.selection; now rewrite Hsel|].
          split; [exact Hcv|]. split; [exact Hcb|]. split; [exact Hcalls|].
          split; [exact Hcols|]. split; [exact Hhead|].
          unfold Calendar.week_rows. now rewrite length_map, Hitems. }
        intros Hl. destruct (Hnone Hl) as [H1 H2].
        split; [congruence|exact H2].
Qed.

(** X16. Take a calendar as [__init__] builds it for a locale whose
    seven abbreviated weekday names each begin with a word of up to
    three characters (no white space among the first three characters,
    and at least one), and any state [c] it goes through. Every day [d]
    of the month that [c] shows stands in the tree under the name of its
    weekday: counting from the column of the first of the month, day [d]
    is in one of the six week rows, its cell holds the two-digit text of
    [d], and the heading of that column and the first row of the tree
    hold, in the same column, the first three characters of the
    locale's name of the weekday of that date ([datetime.weekday],
    Monday being 0). *)
Theorem day_under_its_weekday (cb : bool) (loc : option locale.t)
    (y0 m0 : Z) (names : list string) (c0 c : Calendar.t) (d : Z) :
  Calendar.__init__ cb loc y0 m0 = Ok c0 ->
  Calendar.day_abbr (Calendar._get_calendar loc calendar.SUNDAY) = Ok names ->
  Forall (fun name => is_word (str_take name 3) = true) names ->
  reached_from c0 c ->
  let y := datetime.year (Calendar._date c) in
  let m := datetime.month (Calendar._date c) in
  1 <= d <= month_length y m ->
  let j := first_column c + d - 1 in
  let name :=
    str_take (nth (Z.to_nat (datetime.weekday (datetime.mk y m d))) names
                  EmptyString) 3 in
  exists row,
    nth_error (Calendar.week_rows c) (Z.to_nat (j / 7)) = Some row
    /\ nth_error row (Z.to_nat (j mod 7)) = Some (fmt02d d)
    /\ nth_error (Treeview.columns (Calendar._calendar c))
                 (Z.to_nat (j mod 7)) = Some name
    /\ nth_error (Treeview.raw_values 0%nat (Calendar._calendar c))
                 (Z.to_nat (j mod 7)) = Some name
    /\ 0 <= j / 7 < 6 /\ 0 <= j mod 7 < 7.
Proof.
  intros Hinit Hnames Hwords Hreached y m Hd j name. subst y m name.
  assert (H0 : reachable c0) by exact (reach_init cb loc y0 m0 c0 Hinit).
  pose proof (reached_reachable c0 c H0 Hreached) as Hreach.
  pose proof (reachable_inv c Hreach) as Hinv.
  destruct (init_header cb loc y0 m0 c0 Hinit) as (names' & Hnames' & Hh0).
  rewrite Hnames in Hnames'. injection Hnames' as <-.
  assert (Hlen7 : List.length names = 7%nat).
  { destruct (day_abbr_cases loc calendar.SUNDAY)
      as [[_ E]|(_ & names' & E & H)]; congruence. }
  rewrite weekheader_words in Hh0 by assumption.
  destruct (reached_header _ c0 c H0 Hh0 Hreached)
    as (Hfw & Hitems & Hcols & Hhead).
  pose proof Hinv as [_ _ _ Hlen _ _ (cal & Hcal & Hrows)].
  destruct (inv_cal c cal Hinv Hcal) as (_ & Hb & Hn).
  pose proof (inv_day_cell c cal d Hinv Hcal Hd) as Hcell. fold j in Hcell.
  assert (Hj : 0 <= j <= 36) by (unfold j; lia).
  assert (Hq : 0 <= j / 7 < 6) by (clearbody j; euclid).
  assert (Hr : 0 <= j mod 7 < 7) by (apply Z.mod_pos_bound; lia).
  unfold cell_day in Hcell.
  destruct (nth_error cal (Z.to_nat (j / 7))) as [week|] eqn:Ew;
    [|discriminate].
  assert (Hweek : List.length (Calendar.fmt_week week) = 7%nat).
  { unfold Calendar.fmt_week. rewrite length_map.
    assert (Hlt : (Z.to_nat (j mod 7) < List.length week)%nat)
      by (apply nth_error_Some; congruence).
    destruct (inv_raw_grid c Hinv) as (_ & (w & Hw & Hlens) & _).
    assert (Hin : In (List.length (Calendar.fmt_week week))
                     (map (@List.length string) (Calendar.raw_rows c))).
    { apply in_map. rewrite Hrows. apply in_map_iff.
      exists (Z.to_nat (j / 7)). split.
      - now rewrite (nth_error_nth _ _ [] Ew).
      - apply in_seq. lia. }
    rewrite Hlens in Hin. unfold Calendar.fmt_week in Hin.
    rewrite length_map in Hin. apply in_app_or in Hin.
    destruct Hin as [Hin|Hin]; apply repeat_spec in Hin; lia. }
  assert (Hname : nth_error (weekheader names calendar.SUNDAY)
                            (Z.to_nat (j mod 7))
                  = Some (str_take
                            (nth (Z.to_nat
                                    (datetime.weekday
                                       (datetime.mk
                                          (datetime.year (Calendar._date c))
                                          (datetime.month (Calendar._date c))
                                          d)))
                                 names EmptyString) 3)).
  { rewrite weekheader_sunday by exact Hr. do 4 f_equal.
    rewrite weekday_of_day. unfold j, first_column. rewrite Hfw.
    rewrite (inv_date c Hinv) at 1. unfold Calendar.shown_month.
    cbn [fst snd]. unfold calendar.SUNDAY.
    generalize (datetime.weekday
                  (datetime.mk (datetime.year (Calendar._date c))
                               (datetime.month (Calendar._date c)) 1)).
    intros w. euclid. }
  exists (Calendar.fmt_week week).
  split; [|split; [|split; [|split; [|auto]]]].
  - rewrite week_rows_cells, Hcols, weekheader_length, Hrows.
    rewrite nth_error_map, nth_error_map, nth_error_seq.
    replace (Z.to_nat (j / 7) <? 6)%nat with true
      by (symmetry; apply Nat.ltb_lt; lia).
    cbn [option_map Nat.add]. rewrite (nth_error_nth _ _ [] Ew).
    now rewrite cells_full.
  - unfold Calendar.fmt_week. rewrite nth_error_map, Hcell.
    cbn [option_map]. replace (negb (d =? 0)) with true by lia. reflexivity.
  - rewrite Hcols. exact Hname.
  - rewrite Hhead. exact Hname.
Qed.

Lemma day_under_its_weekday_witness :
  exists c,
    Calendar.__init__ false None 2024 2 = Ok c
    /\ 1 <= 29 <= month_length 2024 2
    /\ exists row,
        nth_error (Calendar.week_rows c) 4 = Some row
        /\ nth_error row 4 = Some "29"%string
        /\ nth_error (Treeview.columns (Calendar._calendar c)) 4
           = Some "Thu"%string
        /\ nth_error (Treeview.raw_values 0%nat (Calendar._calendar c)) 4
           = Some "Thu"%string.
Proof.
  run_ok.
  assert (Hd : 1 <= 29 <= month_length 2024 2) by (vm_compute; intuition discriminate).
  split; [exact Hd|].
  match goal with
  | |- exists row, nth_error (Calendar.week_rows ?c) _ = _ /\ _ =>
      assert (Hi : Calendar.__init__ false None 2024 2 = Ok c)
        by (vm_compute; reflexivity);
      assert (Hw : Forall (fun name => is_word (str_take name 3) = true)
                          Calendar.weekday_names)
        by (repeat constructor);
      destruct (day_under_its_weekday false None 2024 2
                  Calendar.weekday_names c c 29 Hi eq_refl Hw
                  (reached_start c) Hd)
        as (row & Hrow & Hcell & Hcols & Hhead & _)
  end.
  exists row. split; [exact Hrow|]. split; [exact Hcell|].
  split; [exact Hcols|exact Hhead].
Defined.

(** ** Loops that update a list place by place *)

Lemma store_length {A} (l : list A) (i : nat) (x : A) :
  List.length (KeyValueForm.store l i x) = List.length l.
Proof.
  revert i. induction l as [|y l IH]; intros [|i]; cbn; auto.
Qed.

Lemma store_firstn {A} (l : list A) (i : nat) (x : A) :
  (i < List.length l)%nat ->
  firstn (S i) (KeyValueForm.store l i x) = firstn i l ++ [x].
Proof.
  revert i. induction l as [|y l IH]; intros [|i] H; cbn in *; try lia.
  - reflexivity.
  - f_equal. apply IH. lia.
Qed.

Lemma store_skipn {A} (l : list A) (i : nat) (x : A) :
  skipn (S i) (KeyValueForm.store l i x) = skipn (S i) l.
Proof.
  revert i. induction l as [|y l IH]; intros [|i]; try reflexivity.
  cbn [KeyValueForm.store]. change (skipn (S (S i)) (y :: l)) with (skipn (S i) l).
  rewrite <- IH. reflexivity.
Qed.

Lemma skipn_nth {A} (l : list A) (k : nat) (d : A) :
  (k < List.length l)%nat -> skipn k l = nth k l d :: skipn (S k) l.
Proof.
  revert k. induction l as [|y l IH]; intros [|k] H; cbn in *; try lia.
  - reflexivity.
  - now apply IH; lia.
Qed.

Lemma mapi_from_length {A B} (f : nat -> A -> B) (l : list A) :
  forall k, List.length (mapi_from k f l) = List.length l.
Proof. induction l as [|x l IH]; intros k; cbn; auto. Qed.

(** A loop over the places [k], [k + 1], ... of a list, whose body puts
    [g i x] in place of the element [x] at place [i]. *)
Lemma for_each_places {X A} (body : X -> list A -> Result (list A))
    (h : nat -> X) (g : nat -> A -> A) (d : A) (n : nat) :
  (forall i vals,
      (i < n)%nat -> List.length vals = n ->
      body (h i) vals
      = Ok (KeyValueForm.store vals i (g i (nth i vals d)))) ->
  forall m k vals,
    (k + m = n)%nat -> List.length vals = n ->
    for_each body (map h (seq k m)) vals
    = Ok (firstn k vals ++ mapi_from k g (skipn k vals)).
Proof.
  intros Hbody. induction m as [|m IH]; intros k vals Hk Hlen.
  - cbn. rewrite skipn_all2 by lia. cbn. rewrite app_nil_r.
    now rewrite firstn_all2 by lia.
  - cbn [seq map for_each]. rewrite Hbody by lia. cbn [bind].
    rewrite IH by (rewrite ?store_length; lia).
    rewrite store_firstn, store_skipn by lia.
    rewrite (skipn_nth vals k d) by lia. cbn [mapi_from].
    now rewrite <- app_assoc.
Qed.

Lemma for_each_range {A} (body : Z -> list A -> Result (list A))
    (g : nat -> A -> A) (d : A) (vals : list A) :
  (forall i vs,
      (i < List.length vals)%nat -> List.length vs = List.length vals ->
      body (Z.of_nat i) vs
      = Ok (KeyValueForm.store vs i (g i (nth i vs d)))) ->
  for_each body (range 0 (len vals)) vals = Ok (mapi_from 0 g vals).
Proof.
  intros Hbody. unfold range, len. rewrite Z.sub_0_r, Nat2Z.id.
  exact (for_each_places body (fun k => 0 + Z.of_nat k) g d
           (List.length vals) Hbody (List.length vals) 0%nat vals
           eq_refl eq_refl).
Qed.

Lemma combine_places {A B} (f : nat -> B) (l : list A) (d : A) :
  forall k,
    combine (map f (seq k (List.length l))) l
    = map (fun i => (f i, nth (i - k) l d)) (seq k (List.length l)).
Proof.
  induction l as [|x l IH]; intros k; [reflexivity|].
  cbn [List.length seq map combine]. rewrite Nat.sub_diag. cbn [nth].
  f_equal. rewrite IH. apply map_ext_in. intros i Hi. apply in_seq in Hi.
  replace (i - k)%nat with (S (i - S k)) by lia. reflexivity.
Qed.

Lemma enumerate_places {A} (l : list A) (d : A) :
  enumerate l = map (fun i => (Z.of_nat i, nth i l d)) (seq 0 (List.length l)).
Proof.
  unfold enumerate, range, len. rewrite Z.sub_0_r, Nat2Z.id.
  rewrite (combine_places (fun k => 0 + Z.of_nat k) l d 0).
  apply map_ext. intros i. now rewrite Nat.sub_0_r.
Qed.

(** ** The rows of a key-value form *)

Lemma append_empty (s : string) : (s ++ EmptyString)%string = s.
Proof. induction s as [|c s IH]; cbn; [reflexivity|now rewrite IH]. Qed.

Lemma insert_after_delete (s : string) (e : Entry.t) :
  Entry.normal e = true ->
  Entry.insert0 s (Entry.delete_all e) = Entry.mk s true.
Proof.
  intros H. unfold Entry.delete_all, Entry.insert0. rewrite H. cbn.
  now rewrite append_empty.
Qed.

Lemma store_same {A} (l : list A) (i : nat) (d : A) :
  KeyValueForm.store l i (nth i l d) = l.
Proof.
  revert i. induction l as [|y l IH]; intros [|i]; cbn; try reflexivity.
  now rewrite IH.
Qed.

Lemma index_place {A} (l : list A) (i : nat) (d : A) :
  (i < List.length l)%nat -> index l (Z.of_nat i) = Ok (nth i l d).
Proof.
  intros H. rewrite (index_nth l (Z.of_nat i) d) by (unfold len; lia).
  now rewrite Nat2Z.id.
Qed.

Lemma redraw_row_place l i vals :
  let n := List.length (KeyValueEntry.keys l) in
  List.length (KeyValueEntry.defaults l) = n ->
  List.length (KeyValueEntry.unit_labels l) = n ->
  List.length (KeyValueEntry.enables l) = n ->
  (i < n)%nat -> List.length vals = n ->
  KeyValueForm.redraw_row l (Z.of_nat i) vals
  = Ok (KeyValueForm.store vals i (redrawn l i (nth i vals Entry.new))).
Proof.
  intros n Hd Hu He Hi Hv. unfold KeyValueForm.redraw_row.
  rewrite (index_place (KeyValueEntry.keys l) i EmptyString) by (fold n; lia).
  rewrite (index_place vals i Entry.new) by lia.
  rewrite (index_place (KeyValueEntry.unit_labels l) i EmptyString) by lia.
  rewrite (index_place (KeyValueEntry.defaults l) i None) by lia.
  rewrite (index_place (KeyValueEntry.enables l) i None) by lia.
  cbn [bind]. rewrite Nat2Z.id. do 2 f_equal. unfold redrawn. cbv zeta.
  set (d := nth i (KeyValueEntry.defaults l) None).
  set (en := nth i (KeyValueEntry.enables l) None).
  set (e := nth i vals Entry.new).
  destruct (KeyValueForm.truthy_default d) eqn:Et.
  - rewrite insert_after_delete by reflexivity.
    destruct d as [s|]; [|discriminate]. cbn [default_text].
    now destruct en as [[|]|].
  - now destruct en as [[|]|].
Qed.

Lemma reset_row_place l i vals :
  (i < List.length (KeyValueEntry.defaults l))%nat ->
  (i < List.length vals)%nat ->
  KeyValueForm.reset_row l (Z.of_nat i) vals
  = Ok (KeyValueForm.store vals i (reset_entry l i (nth i vals Entry.new))).
Proof.
  intros Hd Hv. unfold KeyValueForm.reset_row.
  rewrite (index_place vals i Entry.new) by lia.
  rewrite (index_place (KeyValueEntry.defaults l) i None) by lia.
  cbn [bind]. rewrite Nat2Z.id. do 2 f_equal. unfold reset_entry.
  set (e := nth i vals Entry.new).
  destruct (Entry.normal e) eqn:En.
  - destruct (nth i (KeyValueEntry.defaults l) None) as [s|];
      cbn [default_text].
    + now apply insert_after_delete.
    + unfold Entry.delete_all. now rewrite En.
  - unfold Entry.delete_all, Entry.insert0. rewrite En.
    destruct (nth i (KeyValueEntry.defaults l) None); now rewrite ?En.
Qed.

Lemma load_row_place data l i vals :
  (i < List.length vals)%nat ->
  KeyValueForm.load_row data (nth i (KeyValueEntry.keys l) EmptyString)
    (Z.of_nat i) vals
  = Ok (KeyValueForm.store vals i (loaded data l i (nth i vals Entry.new))).
Proof.
  intros Hv. unfold KeyValueForm.load_row, loaded.
  destruct (Dict.get _ data) as [v|].
  - rewrite (index_place vals i Entry.new) by lia. cbn [bind].
    rewrite Nat2Z.id. do 2 f_equal.
    set (e := nth i vals Entry.new). destruct e as [t [|]]; cbn.
    + now rewrite append_empty.
    + now rewrite append_empty.
  - now rewrite store_same.
Qed.

Lemma mapi_from_nth_error {A B} (f : nat -> A -> B) (l : list A) :
  forall k i,
    nth_error (mapi_from k f l) i = option_map (f (k + i)%nat) (nth_error l i).
Proof.
  induction l as [|x l IH]; intros k [|i]; cbn; try reflexivity.
  - now rewrite Nat.add_0_r.
  - rewrite IH. now replace (S k + i)%nat with (k + S i)%nat by lia.
Qed.

(** [add_row] on a form whose lists are aligned. *)
Lemma add_row_spec key default unit_label enable f :
  aligned f ->
  let l := KeyValueEntry.add_row key default unit_label enable
             (KeyValueForm.lists f) in
  KeyValueForm.add_row key default unit_label enable f
  = Ok (KeyValueForm.mk l
          (mapi_from 0 (redrawn l) (KeyValueForm.values f ++ [Entry.new]))).
Proof.
  intros (Hd & Hu & He & Hv) l. unfold KeyValueForm.add_row. fold l.
  assert (Hn : List.length (KeyValueEntry.keys l)
               = List.length (KeyValueForm.values f ++ [Entry.new])).
  { unfold l. cbn. rewrite !length_app. cbn. lia. }
  replace (len (KeyValueEntry.keys l))
    with (len (KeyValueForm.values f ++ [Entry.new]))
    by (unfold len; now rewrite Hn).
  rewrite (for_each_range _ (redrawn l) Entry.new); [reflexivity|].
  intros i vs Hi Hvs. apply redraw_row_place; rewrite ?Hn; trivial;
    unfold l; cbn; rewrite !length_app in *; cbn in *; lia.
Qed.

Lemma add_row_aligned key default unit_label enable f f' :
  aligned f ->
  KeyValueForm.add_row key default unit_label enable f = Ok f' ->
  aligned f'.
Proof.
  intros Ha. rewrite add_row_spec by exact Ha. intros [= <-].
  destruct Ha as (Hd & Hu & He & Hv). unfold aligned. cbn.
  rewrite mapi_from_length, !length_app. cbn. lia.
Qed.

(** X17. [KeyValueEntry.add_row] on a form with one entry per key adds
    the row and then goes over every row of the form again: an entry
    whose row has a non-empty default gets that default as its text,
    whatever it held, an entry without one keeps its text, and every
    entry is set to the state given by the [enable] of its row (disabled
    for [False], normal otherwise), whatever [change_enables] had made
    of it. The new entry shows the new default, or nothing. *)
Theorem add_row_redraws_every_row (key : string)
    (default unit_label : option string) (enable : option bool)
    (f : KeyValueForm.t) :
  aligned f ->
  exists f',
    KeyValueForm.add_row key default unit_label enable f = Ok f'
    /\ KeyValueForm.lists f'
       = KeyValueEntry.add_row key default unit_label enable
           (KeyValueForm.lists f)
    /\ aligned f'
    /\ List.length (KeyValueForm.values f')
       = S (List.length (KeyValueForm.values f))
    /\ (forall i e,
           nth_error (KeyValueForm.values f) i = Some e ->
           let d := nth i (KeyValueEntry.defaults (KeyValueForm.lists f))
                        None in
           let en := nth i (KeyValueEntry.enables (KeyValueForm.lists f))
                         None in
           nth_error (KeyValueForm.values f') i
           = Some (Entry.mk (if KeyValueForm.truthy_default d
                             then default_text d else Entry.text e)
                            (enabled en)))
    /\ nth_error (KeyValueForm.values f')
                 (List.length (KeyValueForm.values f))
       = Some (Entry.mk (if KeyValueForm.truthy_default default
                         then default_text default else EmptyString)
                        (enabled enable)).
Proof.
  intros Ha. pose proof (add_row_spec key default unit_label enable f Ha) as E.
  cbv zeta in E. eexists. split; [exact E|]. split; [reflexivity|].
  split; [exact (add_row_aligned _ _ _ _ f _ Ha E)|].
  destruct Ha as (Hd & Hu & He & Hv).
  cbn [KeyValueForm.values KeyValueForm.lists].
  split; [rewrite mapi_from_length, length_app; cbn; lia|]. split.
  - intros i e Hi.
    assert (Hlt : (i < List.length (KeyValueForm.values f))%nat)
      by (apply nth_error_Some; congruence).
    rewrite mapi_from_nth_error, nth_error_app1, Hi by exact Hlt.
    cbn [option_map Nat.add]. unfold redrawn.
    cbn [KeyValueEntry.add_row KeyValueEntry.defaults KeyValueEntry.enables].
    rewrite !app_nth1 by lia. reflexivity.
  - rewrite mapi_from_nth_error, nth_error_app2, Nat.sub_diag by lia.
    cbn [nth_error option_map Nat.add]. unfold redrawn.
    cbn [KeyValueEntry.add_row KeyValueEntry.defaults KeyValueEntry.enables].
    rewrite !app_nth2 by lia.
    replace (List.length (KeyValueForm.values f)
             - List.length (KeyValueEntry.defaults (KeyValueForm.lists f)))%nat
      with 0%nat by lia.
    replace (List.length (KeyValueForm.values f)
             - List.length (KeyValueEntry.enables (KeyValueForm.lists f)))%nat
      with 0%nat by lia.
    reflexivity.
Qed.

Lemma add_row_redraws_every_row_witness :
  let f := KeyValueForm.mk
             (KeyValueEntry.mk ["a"; "b"]%string [Some "1"%string; None]
                [EmptyString; EmptyString] [Some false; None] None)
             [Entry.mk "typed"%string true; Entry.mk "kept"%string false] in
  aligned f
  /\ exists f',
      KeyValueForm.add_row "c"%string None None None f = Ok f'
      /\ KeyValueForm.values f'
         = [Entry.mk "1"%string false; Entry.mk "kept"%string true;
            Entry.mk EmptyString true].
Proof.
  intros f.
  assert (Ha : aligned f) by (repeat split).
  split; [exact Ha|].
  destruct (add_row_redraws_every_row "c"%string None None None f Ha)
    as (f' & E & _).
  exists f'. split; [exact E|].
  assert (E' : KeyValueForm.add_row "c"%string None None None f
               = Ok (KeyValueForm.mk
                       (KeyValueEntry.mk ["a"; "b"; "c"]%string
                          [Some "1"%string; None; None]
                          [EmptyString; EmptyString; EmptyString]
                          [Some false; None; None] None)
                       [Entry.mk "1"%string false;
                        Entry.mk "kept"%string true;
                        Entry.mk EmptyString true])) by reflexivity.
  rewrite E' in E. injection E as <-. reflexivity.
Defined.

(** X18. [KeyValueEntry.reset] on a form with one entry per key changes
    the entries that are in their normal state only: such an entry gets
    the default of its row as its text, and becomes empty when the row has
    no default. A disabled entry keeps its text, since the toolkit leaves
    the text of a disabled entry alone. The states and the lists stay as
    they are. *)
Theorem reset_restores_enabled_entries (f : KeyValueForm.t) :
  aligned f ->
  exists f',
    KeyValueForm.reset f = Ok f'
    /\ KeyValueForm.lists f' = KeyValueForm.lists f
    /\ aligned f'
    /\ List.length (KeyValueForm.values f')
       = List.length (KeyValueForm.values f)
    /\ forall i e,
        nth_error (KeyValueForm.values f) i = Some e ->
        nth_error (KeyValueForm.values f') i
        = Some (if Entry.normal e
                then Entry.mk
                       (default_text
                          (nth i (KeyValueEntry.defaults
                                    (KeyValueForm.lists f)) None))
                       true
                else e).
Proof.
  intros (Hd & Hu & He & Hv). unfold KeyValueForm.reset.
  rewrite (for_each_range _ (reset_entry (KeyValueForm.lists f)) Entry.new).
  - cbn [bind]. eexists. split; [reflexivity|]. split; [reflexivity|].
    split; [|split].
    + unfold aligned. cbn. now rewrite mapi_from_length.
    + cbn. now rewrite mapi_from_length.
    + intros i e Hi. cbn [KeyValueForm.values].
      rewrite mapi_from_nth_error, Hi. reflexivity.
  - intros i vs Hi Hvs. apply reset_row_place; lia.
Qed.

Lemma reset_restores_enabled_entries_witness :
  let f := KeyValueForm.mk
             (KeyValueEntry.mk ["a"; "b"; "c"]%string
                [Some "1"%string; Some "2"%string; None]
                [EmptyString; EmptyString; EmptyString]
                [None; Some false; None] None)
             [Entry.mk "x"%string true; Entry.mk "y"%string false;
              Entry.mk "z"%string true] in
  aligned f
  /\ exists f',
      KeyValueForm.reset f = Ok f'
      /\ KeyValueForm.values f'
         = [Entry.mk "1"%string true; Entry.mk "y"%string false;
            Entry.mk EmptyString true].
Proof.
  intros f.
  assert (Ha : aligned f) by (repeat split).
  split; [exact Ha|].
  destruct (reset_restores_enabled_entries f Ha) as (f' & E & _).
  exists f'. split; [exact E|].
  assert (E' : KeyValueForm.reset f
               = Ok (KeyValueForm.mk (KeyValueForm.lists f)
                       [Entry.mk "1"%string true; Entry.mk "y"%string false;
                        Entry.mk EmptyString true])) by reflexivity.
  rewrite E' in E. injection E as <-. reflexivity.
Defined.

(** ** [change_enables] *)

Lemma change_rows_spec (enables_list : list bool) :
  forall vals i,
    0 <= i ->
    (i + len vals <= len enables_list ->
     KeyValueForm.change_rows enables_list i vals
     = Ok (map (fun eb => Entry.config_state (snd eb) (fst eb))
               (combine vals (skipn (Z.to_nat i) enables_list))))
    /\ (i <= len enables_list -> len enables_list < i + len vals ->
        KeyValueForm.change_rows enables_list i vals = Raise IndexError).
Proof.
  induction vals as [|e vals IH]; intros i Hi.
  - split; [reflexivity|]. unfold len at 3. cbn [List.length]. lia.
  - cbn [KeyValueForm.change_rows].
    assert (Hl : len (e :: vals) = 1 + len vals)
      by (unfold len; cbn [List.length]; lia).
    rewrite Hl. pose proof (len_nonneg vals) as Hnn.
    destruct (IH (i + 1)) as [IHok IHbad]; [lia|]. split; [intros H|intros Hle H].
    + rewrite (index_nth enables_list i false) by lia. cbn [bind].
      rewrite IHok by lia. cbn [bind].
      rewrite (skipn_nth enables_list (Z.to_nat i) false)
        by (unfold len in *; lia).
      cbn [combine map fst snd].
      replace (Z.to_nat (i + 1)) with (S (Z.to_nat i)) by lia. reflexivity.
    + destruct (index enables_list i) as [b|x] eqn:E; cbn [bind].
      * assert (i < len enables_list).
        { unfold index in E. replace (i <? 0) with false in E by lia.
          destruct ((i <? 0) || (len enables_list <=? i)) eqn:Eb;
            [discriminate|]. lia. }
        rewrite IHbad by lia. reflexivity.
      * now rewrite (index_only_index_error _ _ _ E).
Qed.

Lemma nth_error_combine {A B} (l1 : list A) :
  forall (l2 : list B) i a b,
    nth_error l1 i = Some a -> nth_error l2 i = Some b ->
    nth_error (combine l1 l2) i = Some (a, b).
Proof.
  induction l1 as [|x l1 IH]; intros [|y l2] [|i] a b; cbn;
    try discriminate.
  - congruence.
  - apply IH.
Qed.

(** X19. [KeyValueEntry.change_enables] raises [IndexError] when the
    list given is shorter than the form has entries. Otherwise it sets
    the state of every entry from the element at its place (elements past
    the last entry are not looked at) and changes no text; the [enables]
    the form was built with are not updated, which is why a later
    [add_row] puts the states back. *)
Theorem change_enables_outcome (enables_list : list bool)
    (f : KeyValueForm.t) :
  (len enables_list < len (KeyValueForm.values f) ->
   KeyValueForm.change_enables enables_list f = Raise IndexError)
  /\ (len (KeyValueForm.values f) <= len enables_list ->
      exists f',
        KeyValueForm.change_enables enables_list f = Ok f'
        /\ KeyValueForm.lists f' = KeyValueForm.lists f
        /\ List.length (KeyValueForm.values f')
           = List.length (KeyValueForm.values f)
        /\ forall i e b,
            nth_error (KeyValueForm.values f) i = Some e ->
            nth_error enables_list i = Some b ->
            nth_error (KeyValueForm.values f') i
            = Some (Entry.mk (Entry.text e) b)).
Proof.
  unfold KeyValueForm.change_enables.
  destruct (change_rows_spec enables_list (KeyValueForm.values f) 0)
    as [Hok Hbad]; [lia|].
  split; intros H.
  - rewrite Hbad; [reflexivity|apply len_nonneg|lia].
  - rewrite Hok by lia. cbn [bind Z.to_nat skipn]. eexists.
    split; [reflexivity|]. split; [reflexivity|].
    cbn [KeyValueForm.values]. split.
    + rewrite length_map, length_combine. unfold len in H. lia.
    + intros i e b He Hb.
      rewrite nth_error_map, (nth_error_combine _ _ i e b He Hb).
      reflexivity.
Qed.

(** ** [load] and [get] *)

Lemma load_spec data f :
  aligned f ->
  KeyValueForm.load data f
  = Ok (KeyValueForm.mk (KeyValueForm.lists f)
          (mapi_from 0 (loaded data (KeyValueForm.lists f))
                     (KeyValueForm.values f))).
Proof.
  intros (_ & _ & _ & Hv). unfold KeyValueForm.load.
  rewrite (enumerate_places _ EmptyString).
  rewrite (for_each_places
             (fun il => KeyValueForm.load_row data (snd il) (fst il))
             (fun i => (Z.of_nat i,
                        nth i (KeyValueEntry.keys (KeyValueForm.lists f))
                            EmptyString))
             (loaded data (KeyValueForm.lists f)) Entry.new
             (List.length (KeyValueEntry.keys (KeyValueForm.lists f))));
    [reflexivity| |reflexivity|exact Hv].
  intros i vals Hi Hlen. cbn [fst snd]. apply load_row_place. lia.
Qed.

(** X20. [KeyValueEntry.load] on a form with one entry per key writes
    the value of every key of the form that the dictionary has into the
    entry of that key, whatever the entry held: into a disabled entry
    too, which is enabled for the write and disabled again. Entries of
    keys the dictionary does not have, the states of all entries and the
    lists of the form stay as they are; keys of the dictionary that the
    form does not have are ignored. *)
Theorem load_writes_known_keys (data : Dict.t string) (f : KeyValueForm.t) :
  aligned f ->
  exists f',
    KeyValueForm.load data f = Ok f'
    /\ KeyValueForm.lists f' = KeyValueForm.lists f
    /\ aligned f'
    /\ List.length (KeyValueForm.values f')
       = List.length (KeyValueForm.values f)
    /\ forall i key e,
        nth_error (KeyValueEntry.keys (KeyValueForm.lists f)) i = Some key ->
        nth_error (KeyValueForm.values f) i = Some e ->
        nth_error (KeyValueForm.values f') i
        = Some (match Dict.get key data with
                | Some v => Entry.mk v (Entry.normal e)
                | None => e
                end).
Proof.
  intros Ha. rewrite load_spec by exact Ha. eexists.
  split; [reflexivity|]. split; [reflexivity|].
  cbn [KeyValueForm.values KeyValueForm.lists].
  destruct Ha as (Hd & Hu & He & Hv). split; [|split].
  - unfold aligned. cbn. now rewrite mapi_from_length.
  - now rewrite mapi_from_length.
  - intros i key e Hk Hi. rewrite mapi_from_nth_error, Hi.
    cbn [option_map Nat.add]. unfold loaded.
    now rewrite (nth_error_nth _ _ EmptyString Hk).
Qed.

Lemma load_writes_known_keys_witness :
  let f := KeyValueForm.mk
             (KeyValueEntry.mk ["a"; "b"]%string [None; None]
                [EmptyString; EmptyString] [None; Some false] None)
             [Entry.mk "x"%string true; Entry.mk "y"%string false] in
  let data := [("b", "2"); ("z", "9")]%string in
  aligned f
  /\ exists f',
      KeyValueForm.load data f = Ok f'
      /\ KeyValueForm.values f'
         = [Entry.mk "x"%string true; Entry.mk "2"%string false].
Proof.
  intros f data.
  assert (Ha : aligned f) by (repeat split).
  split; [exact Ha|].
  destruct (load_writes_known_keys data f Ha) as (f' & E & _).
  exists f'. split; [exact E|].
  assert (E' : KeyValueForm.load data f
               = Ok (KeyValueForm.mk (KeyValueForm.lists f)
                       [Entry.mk "x"%string true;
                        Entry.mk "2"%string false])) by reflexivity.
  rewrite E' in E. injection E as <-. reflexivity.
Defined.

Lemma get_update ks :
  forall vs d,
    fold_left (fun data kv => Dict.set (fst kv) (Entry.get (snd kv)) data)
              (combine ks vs) d
    = Dict.update d (combine ks (map Entry.get vs)).
Proof.
  induction ks as [|k ks IH]; intros [|v vs] d; try reflexivity.
  cbn [combine map fold_left Dict.update fst snd]. apply IH.
Qed.

Lemma get_distinct f :
  NoDup (KeyValueEntry.keys (KeyValueForm.lists f)) ->
  KeyValueForm.get f
  = combine (KeyValueEntry.keys (KeyValueForm.lists f))
            (map Entry.get (KeyValueForm.values f)).
Proof.
  intros Hnd. unfold KeyValueForm.get. rewrite get_update.
  rewrite update_distinct; [reflexivity|now apply NoDup_combine_keys|].
  intros k _ [].
Qed.

Lemma dict_get_combine (ks : list string) :
  forall (vs : list string) i k v,
    NoDup ks -> nth_error ks i = Some k -> nth_error vs i = Some v ->
    Dict.get k (combine ks vs) = Some v.
Proof.
  induction ks as [|k0 ks IH]; intros [|v0 vs] [|i] k v Hnd Hk Hv;
    cbn in *; try discriminate.
  - injection Hk as ->. injection Hv as ->. now rewrite String.eqb_refl.
  - inversion Hnd as [|? ? Hnot Hnd']; subst.
    destruct (String.eqb k0 k) eqn:E.
    + apply String.eqb_eq in E. subst k0. exfalso. apply Hnot.
      eapply nth_error_In. eassumption.
    + now apply (IH vs i).
Qed.

Lemma mapi_from_same {A} (g : nat -> A -> A) (l : list A) :
  forall k,
    (forall i x, nth_error l i = Some x -> g (k + i)%nat x = x) ->
    mapi_from k g l = l.
Proof.
  induction l as [|x l IH]; intros k H; [reflexivity|].
  cbn [mapi_from]. f_equal.
  - rewrite <- (Nat.add_0_r k). now apply H.
  - apply IH. intros i y Hy.
    replace (S k + i)%nat with (k + S i)%nat by lia. now apply H.
Qed.

(** X21. On a form with one entry per key and distinct keys, [get]
    returns the keys in order, each with the text of its entry. Loading
    what [get] returned changes nothing, and after loading any
    dictionary [get] returns, for every key of the form, the value loaded
    for that key, or the text the entry had when the dictionary has no
    such key. *)
Theorem get_and_load (f : KeyValueForm.t) :
  aligned f -> NoDup (KeyValueEntry.keys (KeyValueForm.lists f)) ->
  KeyValueForm.get f
  = combine (KeyValueEntry.keys (KeyValueForm.lists f))
            (map Entry.get (KeyValueForm.values f))
  /\ KeyValueForm.load (KeyValueForm.get f) f = Ok f
  /\ forall data,
      exists f',
        KeyValueForm.load data f = Ok f'
        /\ forall key,
            In key (KeyValueEntry.keys (KeyValueForm.lists f)) ->
            Dict.get key (KeyValueForm.get f')
            = match Dict.get key data with
              | Some v => Some v
              | None => Dict.get key (KeyValueForm.get f)
              end.
Proof.
  intros Ha Hnd. pose proof Ha as (_ & _ & _ & Hv).
  split; [now apply get_distinct|]. split.
  - rewrite load_spec by exact Ha. destruct f as [l vals]. f_equal. f_equal.
    cbn [KeyValueForm.lists KeyValueForm.values] in *.
    apply mapi_from_same. intros i e Hi. cbn [Nat.add]. unfold loaded.
    assert (Hlt : (i < List.length (KeyValueEntry.keys l))%nat).
    { rewrite <- Hv. apply nth_error_Some. congruence. }
    destruct (nth_error (KeyValueEntry.keys l) i) as [k|] eqn:Hk;
      [|apply nth_error_None in Hk; lia].
    rewrite (nth_error_nth _ _ EmptyString Hk).
    rewrite get_distinct by exact Hnd.
    cbn [KeyValueForm.lists KeyValueForm.values].
    rewrite (dict_get_combine _ _ i k (Entry.get e) Hnd Hk)
      by (now rewrite nth_error_map, Hi).
    now destruct e.
  - intros data. rewrite load_spec by exact Ha. eexists.
    split; [reflexivity|]. intros key Hin.
    apply In_nth_error in Hin. destruct Hin as [i Hk].
    assert (Hlt : (i < List.length (KeyValueForm.values f))%nat).
    { rewrite Hv. apply nth_error_Some. congruence. }
    destruct (nth_error (KeyValueForm.values f) i) as [e|] eqn:Hi;
      [|apply nth_error_None in Hi; lia].
    rewrite !get_distinct by exact Hnd.
    cbn [KeyValueForm.lists KeyValueForm.values].
    rewrite (dict_get_combine _ _ i key
               (Entry.get (loaded data (KeyValueForm.lists f) i e)) Hnd Hk)
      by (now rewrite nth_error_map, mapi_from_nth_error, Hi).
    rewrite (dict_get_combine _ _ i key (Entry.get e) Hnd Hk)
      by (now rewrite nth_error_map, Hi).
    unfold loaded. rewrite (nth_error_nth _ _ EmptyString Hk).
    now destruct (Dict.get key data).
Qed.

Lemma get_and_load_witness :
  let f := KeyValueForm.mk
             (KeyValueEntry.mk ["a"; "b"]%string [None; None]
                [EmptyString; EmptyString] [None; Some false] None)
             [Entry.mk "x"%string true; Entry.mk "y"%string false] in
  aligned f
  /\ NoDup (KeyValueEntry.keys (KeyValueForm.lists f))
  /\ KeyValueForm.get f = [("a", "x"); ("b", "y")]%string
  /\ KeyValueForm.load (KeyValueForm.get f) f = Ok f.
Proof.
  intros f.
  assert (Ha : aligned f) by (repeat split).
  assert (Hnd : NoDup (KeyValueEntry.keys (KeyValueForm.lists f))).
  { cbn. repeat constructor; cbn; intuition discriminate. }
  split; [exact Ha|]. split; [exact Hnd|].
  destruct (get_and_load f Ha Hnd) as (Hget & Hload & _).
  split; [exact Hget|exact Hload].
Defined.

(** ** Construction of a key-value form *)

Lemma add_row_fresh key default unit_label enable f :
  aligned f -> fresh f ->
  exists f',
    KeyValueForm.add_row key default unit_label enable f = Ok f'
    /\ KeyValueForm.lists f'
       = KeyValueEntry.add_row key default unit_label enable
           (KeyValueForm.lists f)
    /\ aligned f' /\ fresh f'.
Proof.
  intros Ha Hf.
  pose proof (add_row_spec key default unit_label enable f Ha) as E.
  cbv zeta in E. eexists. split; [exact E|]. split; [reflexivity|].
  split; [exact (add_row_aligned _ _ _ _ f _ Ha E)|].
  destruct Ha as (Hd & Hu & He & Hv). unfold fresh in *.
  cbn [KeyValueForm.values KeyValueForm.lists].
  set (l := KeyValueForm.lists f) in *.
  set (l' := KeyValueEntry.add_row key default unit_label enable l).
  set (n := List.length (KeyValueForm.values f)) in *.
  rewrite mapi_from_length, length_app. cbn [List.length].
  apply nth_error_ext. intros i.
  rewrite !mapi_from_nth_error. cbn [Nat.add].
  destruct (Nat.lt_trichotomy i n) as [Hi|[->|Hi]].
  - rewrite nth_error_app1 by (fold n; exact Hi).
    rewrite nth_error_repeat by lia. cbn [option_map].
    rewrite Hf, mapi_from_nth_error, nth_error_repeat by exact Hi.
    cbn [option_map Nat.add]. f_equal. unfold redrawn.
    unfold l'. cbn [KeyValueEntry.add_row KeyValueEntry.defaults
                    KeyValueEntry.enables Entry.text].
    rewrite !app_nth1 by lia.
    now destruct (KeyValueForm.truthy_default _).
  - rewrite nth_error_app2 by (fold n; lia). fold n. rewrite Nat.sub_diag.
    rewrite nth_error_repeat by lia. reflexivity.
  - rewrite (proj2 (nth_error_None _ _))
      by (rewrite length_app; cbn; fold n; lia).
    rewrite (proj2 (nth_error_None _ _)) by (rewrite repeat_length; lia).
    reflexivity.
Qed.

(** The widgets follow the lists: the form is built row by row as the
    lists are. *)
Lemma form_add_rows ks defaults unit_labels enables idxs :
  forall f,
    aligned f -> fresh f ->
    match KeyValueEntry.add_rows ks defaults unit_labels enables idxs
            (KeyValueForm.lists f) with
    | Ok kv =>
        exists f',
          KeyValueForm.add_rows ks defaults unit_labels enables idxs f
          = Ok f'
          /\ KeyValueForm.lists f' = kv /\ aligned f' /\ fresh f'
    | Raise e =>
        KeyValueForm.add_rows ks defaults unit_labels enables idxs f
        = Raise e
    end.
Proof.
  induction idxs as [|i idxs IH]; intros f Ha Hf.
  - cbn. eauto.
  - cbn [KeyValueEntry.add_rows KeyValueForm.add_rows].
    destruct (index ks i) as [key|]; cbn [bind]; [|reflexivity].
    destruct (KeyValueEntry.pick defaults i) as [d|]; cbn [bind];
      [|reflexivity].
    destruct (KeyValueEntry.pick unit_labels i) as [u|]; cbn [bind];
      [|reflexivity].
    destruct (KeyValueEntry.pick enables i) as [en|]; cbn [bind];
      [|reflexivity].
    destruct (add_row_fresh key d u en f Ha Hf) as (f1 & E & El & Ha1 & Hf1).
    rewrite E. cbn [bind]. rewrite <- El. now apply IH.
Qed.

Lemma pick_place {A} (xs : option (list A)) (n : nat) (i : nat) :
  ~ mismatched (Z.of_nat n) xs -> (i < n)%nat ->
  exists a, KeyValueEntry.pick xs (0 + Z.of_nat i) = Ok a.
Proof. intros H Hi. apply (pick_ok (Z.of_nat n)); [exact H|lia]. Qed.

(** The lists after the rows [k], ..., [k + m - 1] have been added. *)
Lemma kv_add_rows_places ks (defaults unit_labels : option (list string))
    (enables : option (list bool)) :
  ~ mismatched (len ks) defaults -> ~ mismatched (len ks) unit_labels ->
  ~ mismatched (len ks) enables ->
  forall m k kv0,
    (k + m <= List.length ks)%nat ->
    List.length (KeyValueEntry.keys kv0) = k ->
    List.length (KeyValueEntry.defaults kv0) = k ->
    List.length (KeyValueEntry.enables kv0) = k ->
    exists kv,
      KeyValueEntry.add_rows ks defaults unit_labels enables
        (map (fun j => 0 + Z.of_nat j) (seq k m)) kv0 = Ok kv
      /\ KeyValueEntry.keys kv
         = KeyValueEntry.keys kv0 ++ firstn m (skipn k ks)
      /\ (forall i, (i < k)%nat ->
            nth i (KeyValueEntry.defaults kv) None
            = nth i (KeyValueEntry.defaults kv0) None
            /\ nth i (KeyValueEntry.enables kv) None
               = nth i (KeyValueEntry.enables kv0) None)
      /\ (forall i, (k <= i < k + m)%nat ->
            KeyValueEntry.pick defaults (Z.of_nat i)
            = Ok (nth i (KeyValueEntry.defaults kv) None)
            /\ KeyValueEntry.pick enables (Z.of_nat i)
               = Ok (nth i (KeyValueEntry.enables kv) None)).
Proof.
  intros Nd Nu Ne. induction m as [|m IH]; intros k kv0 Hk Hkeys Hdef Hen.
  - cbn. exists kv0. split; [reflexivity|]. split; [now rewrite app_nil_r|].
    split; [auto|]. intros i Hi. lia.
  - cbn [seq map KeyValueEntry.add_rows].
    rewrite (index_nth ks (0 + Z.of_nat k) EmptyString) by (unfold len; lia).
    cbn [bind].
    destruct (pick_place defaults (List.length ks) k Nd) as [d Ed]; [lia|].
    destruct (pick_place unit_labels (List.length ks) k Nu) as [u Eu]; [lia|].
    destruct (pick_place enables (List.length ks) k Ne) as [en Een]; [lia|].
    rewrite Ed, Eu, Een. cbn [bind].
    match goal with
    | |- exists kv, KeyValueEntry.add_rows _ _ _ _ _ ?kv1 = _ /\ _ =>
        destruct (IH (S k) kv1) as (kv & E & Hks & Hold & Hnew);
          [lia|cbn; rewrite length_app; cbn; lia..|]
    end.
    exists kv. split; [exact E|]. split; [|split].
    + rewrite Hks. cbn [KeyValueEntry.keys KeyValueEntry.add_row].
      rewrite <- app_assoc. f_equal.
      rewrite (skipn_nth ks k EmptyString) by lia. cbn [firstn app].
      do 2 f_equal. cbn [Z.add]. now rewrite Nat2Z.id.
    + intros i Hi. destruct (Hold i) as [H1 H2]; [lia|].
      rewrite H1, H2.
      cbn [KeyValueEntry.defaults KeyValueEntry.enables KeyValueEntry.add_row].
      now rewrite !app_nth1 by lia.
    + intros i Hi. destruct (Nat.eq_dec i k) as [->|Hne].
      * destruct (Hold k) as [H1 H2]; [lia|]. rewrite H1, H2.
        cbn [KeyValueEntry.defaults KeyValueEntry.enables
             KeyValueEntry.add_row].
        rewrite !app_nth2 by lia. rewrite Hdef, Hen, Nat.sub_diag.
        cbn [nth]. cbn [Z.add] in Ed, Een. auto.
      * apply Hnew. lia.
Qed.

(** X22. The entry widgets of a [KeyValueEntry] follow its lists.
    Construction raises for the widgets exactly as it does for the lists;
    when it succeeds the form has the keys given, one entry per key, and
    the entry of row [i] shows [defaults[i]] when that is a non-empty
    text and is empty otherwise (no defaults given, or an empty list or
    an empty text), and it is disabled when [enables[i]] is [False] and
    in its normal state otherwise: a disabled entry shows its default
    too. *)
Theorem key_value_entry_widgets (ks : list string)
    (defaults unit_labels : option (list string))
    (enables : option (list bool)) (title : option string) :
  match KeyValueEntry.__init__ ks defaults unit_labels enables title with
  | Raise e =>
      KeyValueForm.__init__ ks defaults unit_labels enables title = Raise e
  | Ok kv =>
      exists f,
        KeyValueForm.__init__ ks defaults unit_labels enables title = Ok f
        /\ KeyValueForm.lists f = kv
        /\ KeyValueEntry.keys kv = ks
        /\ List.length (KeyValueForm.values f) = List.length ks
        /\ aligned f
        /\ forall i,
            (i < List.length ks)%nat ->
            exists d en,
              KeyValueEntry.pick defaults (Z.of_nat i) = Ok d
              /\ KeyValueEntry.pick enables (Z.of_nat i) = Ok en
              /\ nth_error (KeyValueForm.values f) i
                 = Some (Entry.mk
                           (if KeyValueForm.truthy_default d
                            then default_text d else EmptyString)
                           (enabled en))
  end.
Proof.
  unfold KeyValueEntry.__init__, KeyValueForm.__init__.
  pose proof (mismatched_check (len ks) defaults) as Hd.
  pose proof (mismatched_check (len ks) unit_labels) as Hu.
  pose proof (mismatched_check (len ks) enables) as He.
  destruct (truthy_opt defaults && _); [reflexivity|].
  destruct (truthy_opt unit_labels && _); [reflexivity|].
  destruct (truthy_opt enables && _); [reflexivity|].
  assert (Nd : ~ mismatched (len ks) defaults)
    by (intros H; apply Hd in H; discriminate).
  assert (Nu : ~ mismatched (len ks) unit_labels)
    by (intros H; apply Hu in H; discriminate).
  assert (Ne : ~ mismatched (len ks) enables)
    by (intros H; apply He in H; discriminate).
  clear Hd Hu He.
  set (kv0 := KeyValueEntry.mk [] [] [] [] title).
  destruct (kv_add_rows_places ks defaults unit_labels enables Nd Nu Ne
              (List.length ks) 0 kv0)
    as (kv & E & Hks & _ & Hnew); try reflexivity.
  assert (Er : range 0 (len ks)
               = map (fun j => 0 + Z.of_nat j) (seq 0 (List.length ks))).
  { unfold range, len. now rewrite Z.sub_0_r, Nat2Z.id. }
  rewrite Er.
  pose proof (form_add_rows ks defaults unit_labels enables
                (map (fun j => 0 + Z.of_nat j) (seq 0 (List.length ks)))
                (KeyValueForm.mk kv0 [])) as Hform.
  cbn [KeyValueForm.lists] in Hform. rewrite E in Hform |- *.
  destruct Hform as (f & Ef & El & Ha & Hf); [repeat split|reflexivity|].
  exists f. split; [exact Ef|]. split; [exact El|].
  assert (Hkeys : KeyValueEntry.keys kv = ks).
  { rewrite Hks. cbn. now rewrite firstn_all. }
  split; [exact Hkeys|].
  assert (Hlen : List.length (KeyValueForm.values f) = List.length ks).
  { destruct Ha as (_ & _ & _ & Hv). now rewrite Hv, El, Hkeys. }
  split; [exact Hlen|]. split; [exact Ha|].
  intros i Hi. destruct (Hnew i) as [Hpd Hpe]; [lia|].
  eexists. eexists. split; [exact Hpd|]. split; [exact Hpe|].
  rewrite Hf, mapi_from_nth_error, nth_error_repeat by lia.
  cbn [option_map Nat.add]. unfold redrawn. now rewrite El.
Qed.
